(** * youtube_automation_app: segment timing and resilient generation

    A shallow embedding of the pipeline of the repository:

    - [core/audio_processor.py]   : [AudioProcessor.get_duration],
                                    [AudioProcessor.get_duration_fallback],
                                    [AudioProcessor.generate_timestamps],
                                    [AudioProcessor._check_ffmpeg_availability],
                                    [AudioProcessor.split_audio],
                                    [AudioProcessor.normalize_audio],
                                    [AudioProcessor.combine_audio_files],
                                    [AudioProcessor.add_fade_effects]
    - [core/openai_generator.py]  : [OpenAIImageGenerator.create_scene_prompt],
                                    [OpenAIImageGenerator._get_style_guidelines],
                                    [OpenAIImageGenerator.generate_and_save_image],
                                    [OpenAIImageGenerator._download_image],
                                    [OpenAIImageGenerator.generate_character_reference],
                                    [OpenAIImageGenerator.estimate_cost]
    - [core/video_processor.py]   : [VideoProcessor.create_full_video],
                                    [VideoProcessor.images_to_clips]
    - [ai_video_tool_openai.py]   : [ProcessingThread._split_script],
                                    [ProcessingThread.process_ai_images],
                                    [ProcessingThread.process_broll],
                                    the style list of the main window

    Conventions of the embedding.

    - Python [int] is [Z]; Python [float] seconds are rationals [Q]. The
      clip arithmetic of MoviePy and of [create_full_video] rounds every
      sum and difference to the nearest binary64 float, as the code does
      ([round64]); the arithmetic of [audio_processor.py], of the segment
      loop and of the cost estimate is exact, and its rounding is outside
      the model.
    - Python [str] is [string]; a character is an 8-bit code point.
    - A function that can raise returns a [result]; a function that also
      talks to the outside world (image API, clock, file system, Qt signals)
      is a computation in the monad [M], which threads a [world] holding the
      chronological trace of effects. The audio editing methods, which start
      processes and call pydub, are computations in the monad [Act] over
      the list of the calls they make.
    - External collaborators (the image API, HTTP, MoviePy, the file
      system, the encoder, the random generator) are oracles stored in an
      environment record: every theorem holds whatever they answer, unless
      it says what they answer. *)

From Stdlib Require Import List String Ascii ZArith QArith Lia Bool.
From Stdlib Require Import Permutation DecimalString Lqa.
Import ListNotations.

Local Open Scope string_scope.
Local Open Scope list_scope.
Local Open Scope Z_scope.

(* ================================================================== *)
(** * Python values and built-ins used by the sources *)
(* ================================================================== *)

Module Py.

(** Exception classes that occur in the modelled functions. *)
Inductive exn_class : Type :=
| Exception
| ValueError
| FileNotFoundError
| RuntimeError
| ZeroDivisionError
| TypeError
| OSError
| RequestException
| ConnectionError.

Record exn : Type := mk_exn { exn_cls : exn_class; exn_msg : string }.

(** [str(e)] *)
Definition str (e : exn) : string := exn_msg e.

Inductive result (A : Type) : Type :=
| Ok (a : A)
| Raise (e : exn).
Arguments Ok {A} a.
Arguments Raise {A} e.

Definition is_ok {A} (r : result A) : bool :=
  match r with Ok _ => true | Raise _ => false end.

(** ** Characters and strings *)

Definition ord (c : ascii) : Z := Z.of_nat (nat_of_ascii c).
Definition chr (z : Z) : ascii := ascii_of_nat (Z.to_nat z).

(** [c.isspace()] for code points below 256: TAB..CR, FS..US, SPACE,
    NEL and NBSP. *)
Definition isspace (c : ascii) : bool :=
  let n := ord c in
  ((9 <=? n) && (n <=? 13)) || ((28 <=? n) && (n <=? 32))
  || (n =? 133) || (n =? 160).

(** [c.lower()] for code points below 256: A..Z and the Latin-1 capitals
    (U+00C0..U+00DE except the multiplication sign U+00D7). *)
Definition lower_char (c : ascii) : ascii :=
  let n := ord c in
  if ((65 <=? n) && (n <=? 90))
     || ((192 <=? n) && (n <=? 222) && negb (n =? 215))
  then chr (n + 32) else c.

Fixpoint lower (s : string) : string :=
  match s with
  | EmptyString => EmptyString
  | String c s' => String (lower_char c) (lower s')
  end.

(** [s.startswith(p)] *)
Fixpoint startswith (p s : string) : bool :=
  match p, s with
  | EmptyString, _ => true
  | String _ _, EmptyString => false
  | String a p', String b s' => Ascii.eqb a b && startswith p' s'
  end.

(** [p in s] on strings *)
Fixpoint contains (p s : string) : bool :=
  startswith p s
  || match s with
     | EmptyString => false
     | String _ s' => contains p s'
     end.

(** [s.endswith(p)] *)
Definition endswith (s p : string) : bool :=
  let n := String.length s in
  let k := String.length p in
  (k <=? n)%nat && String.eqb (String.substring (n - k)%nat k s) p.

(** [s.split()] with no argument: maximal runs of non-whitespace
    characters; [cur] is the run being scanned. *)
Fixpoint split_aux (cur : string) (s : string) : list string :=
  match s with
  | EmptyString =>
      match cur with
      | EmptyString => []
      | _ => [cur]
      end
  | String c s' =>
      if isspace c then
        match cur with
        | EmptyString => split_aux EmptyString s'
        | _ => cur :: split_aux EmptyString s'
        end
      else split_aux (cur ++ String c EmptyString)%string s'
  end.

Definition split (s : string) : list string := split_aux EmptyString s.

(** [sep.join(l)] *)
Fixpoint join (sep : string) (l : list string) : string :=
  match l with
  | [] => EmptyString
  | [x] => x
  | x :: (_ :: _) as t => (x ++ sep ++ join sep t)%string
  end.

(** ** Lists *)

Definition len {A} (l : list A) : Z := Z.of_nat (List.length l).

(** [range(n)] *)
Definition range (n : Z) : list Z := map Z.of_nat (seq 0 (Z.to_nat n)).

(** Index normalisation of a slice bound: a negative bound counts from
    the end, and every bound is clipped to [0, len]. *)
Definition clip_index (n i : Z) : Z :=
  if i <? 0 then Z.max 0 (i + n) else Z.min i n.

(** [l[start:stop]] *)
Definition slice {A} (l : list A) (start stop : Z) : list A :=
  let a := clip_index (len l) start in
  let b := clip_index (len l) stop in
  firstn (Z.to_nat (b - a)) (skipn (Z.to_nat a) l).

(** [l[start:]] *)
Definition slice_from {A} (l : list A) (start : Z) : list A :=
  skipn (Z.to_nat (clip_index (len l) start)) l.

(** [l[i]]: a negative index counts from the end; [None] stands for
    IndexError. *)
Definition index {A} (l : list A) (i : Z) : option A :=
  let j := if i <? 0 then i + len l else i in
  if j <? 0 then None else nth_error l (Z.to_nat j).

(** ** Number formatting *)

(** [str(n)] / [f"{n}"] for an integer *)
Definition str_int (n : Z) : string := NilEmpty.string_of_int (Z.to_int n).

Fixpoint zeros (k : nat) : string :=
  match k with
  | O => EmptyString
  | S k' => String "0" (zeros k')
  end.

(** [f"{n:03d}"]: zero padding to width 3, after the sign if any. *)
Definition format_03d (n : Z) : string :=
  if n <? 0 then
    let digits := str_int (- n) in
    ("-" ++ zeros (2 - String.length digits)%nat ++ digits)%string
  else
    let digits := str_int n in
    (zeros (3 - String.length digits)%nat ++ digits)%string.

(** ** Paths and rationals *)

(** [os.path.join(dir, name)] on a POSIX path. *)
Definition path_join (dir name : string) : string :=
  if startswith "/" name then name
  else if String.eqb dir "" then name
  else if endswith dir "/" then (dir ++ name)%string
  else (dir ++ "/" ++ name)%string.

(** [a < b] and [a > b] on seconds. *)
Definition Qltb (a b : Q) : bool := negb (Qle_bool b a).

(** [int(x)]: truncation toward zero. *)
Definition int_of_Q (x : Q) : Z := Z.quot (Qnum x) (Zpos (Qden x)).

(** ** Floating point

    A Python [float] is an IEEE 754 binary64 number; it is modelled by the
    rational it denotes. An operation on floats is the exact operation
    followed by a rounding to the nearest float, the one with an even
    significand when two are equally near. *)

(** [num / (den * 2^e)] as a quotient of two integers. *)
Definition scaled (num den e : Z) : Z * Z :=
  if 0 <=? e then (num, den * 2 ^ e) else (num * 2 ^ (- e), den).

(** The integer nearest to [num / den], the even one of two that are
    equally near. *)
Definition nearest_even (num den : Z) : Z :=
  let q := num / den in
  let r := num mod den in
  if 2 * r <? den then q
  else if den <? 2 * r then q + 1
  else if Z.even q then q else q + 1.

(** The float nearest to [x]: a significand of 53 bits over an exponent
    [e] that is at least -1074 (below, the numbers are subnormal).
    Overflow is left out: seconds are far from [2^1024]. *)
Definition round64 (x : Q) : Q :=
  let x := Qred x in
  let n := Qnum x in
  let d := Zpos (Qden x) in
  if n =? 0 then 0%Q
  else
    let a := Z.abs n in
    let e0 := Z.log2 a - Z.log2 d - 52 in
    let e1 := if (let (num, den) := scaled a d e0 in num / den <? 2 ^ 52)
              then e0 - 1 else e0 in
    let e := Z.max e1 (-1074) in
    let (num, den) := scaled a d e in
    let m := Z.sgn n * nearest_even num den in
    Qred (if 0 <=? e then inject_Z (m * 2 ^ e) else m # Z.to_pos (2 ^ (- e))).

(** [a + b] and [a - b] on floats. *)
Definition fadd (a b : Q) : Q := round64 (a + b).
Definition fsub (a b : Q) : Q := round64 (a - b).

(** The literal [0.1]. *)
Definition tenth : Q := round64 (1 # 10).

(** [bool(s)] for a string that may be [None]. *)
Definition truthy (s : option string) : bool :=
  match s with
  | Some (String _ _) => true
  | _ => false
  end.

(** [l[i] = v] for an index inside the list. *)
Fixpoint setitem {A} (l : list A) (i : nat) (v : A) : list A :=
  match l, i with
  | [], _ => []
  | _ :: l', O => v :: l'
  | x :: l', S i' => x :: setitem l' i' v
  end.

End Py.
Import Py.

(* ================================================================== *)
(** * Effects: the outside world as a trace *)
(* ================================================================== *)

Module Effects.

Inductive level : Type := INFO | WARNING | ERROR.

(** The text of a log line or status line. A line that interpolates a
    float keeps the number itself instead of its decimal rendering. *)
Inductive text : Type :=
| Text (s : string)
| Seconds (before : string) (x : Q) (after : string).

(** An entry of [generation_history] (its wall-clock field is left out). *)
Record history_entry : Type := mk_history {
  original_prompt : string;
  revised_prompt : string;
  image_path : string;
  history_style : string
}.

(** An element of [generated_images]:
    [{'path': ..., 'timestamp': ..., 'duration': ...}]. *)
Record image_record : Type := mk_image {
  path : string;
  timestamp : Q;
  duration : Q
}.

(** The dictionary dumped to [generation_metadata.json]. *)
Record metadata : Type := mk_metadata {
  images : list image_record;
  script_path : string;
  voice_path : string;
  total_duration : Q;
  character_description : string;
  style : string;
  api : string
}.

(** What a file is opened for writing with. *)
Inductive content : Type :=
| ImageData (url : string)
| PromptRecord (original revised style_name : string)
| Metadata (m : metadata).

(** The statement a [time.sleep] belongs to: the handler of
    [generate_and_save_image], or the HTTP retry of [_download_image]. *)
Inductive sleep_site : Type := Backoff | DownloadRetry.

(** Everything the modelled code does to its environment, in order. *)
Inductive event : Type :=
| EvLog (l : level) (t : text)                   (* logger.info / warning / error *)
| EvSleep (site : sleep_site) (seconds : Z)      (* time.sleep *)
| EvImagesGenerate (prompt : string)             (* client.images.generate *)
| EvRequestsGet (url : string)                   (* requests.get *)
| EvMakedirs (dir : string)                      (* os.makedirs *)
| EvWrite (file : string) (c : content)          (* open(file, 'w') + write *)
| EvStatus (t : text)                            (* status_updated.emit *)
| EvProgress (percent : Z)                       (* progress_updated.emit *)
| EvImageGenerated (file : string) (at_s : Q)    (* image_generated.emit *)
| EvErrorOccurred (msg : string)                 (* error_occurred.emit *)
| EvAudioFileClip (file : string)                (* AudioFileClip(file) *)
| EvImageClip (file : string) (d : Q)            (* ImageClip(file, duration=d) *)
| EvWriteVideofile (file : string) (d : option Q) (bitrate : option string)
                                                 (* clip.write_videofile *)
| EvClose (what : string)                        (* clip.close() *)
| EvConcatenateClips (playlist : list string) (target : option Q)
                                                 (* video_proc.concatenate_clips *)
| EvAddAudioToVideo (video audio out : string).  (* video_proc.add_audio_to_video *)

Record world : Type := mk_world {
  trace : list event;                       (* oldest first *)
  api_calls : nat;                          (* images.generate calls so far *)
  generation_history : list history_entry   (* OpenAIImageGenerator state *)
}.

Definition initial_world : world := mk_world [] 0 [].

(** State-and-exception monad: the world survives a raise. *)
Definition M (A : Type) : Type := world -> result A * world.

Definition ret {A} (a : A) : M A := fun w => (Ok a, w).

Definition bind {A B} (m : M A) (k : A -> M B) : M B :=
  fun w =>
    match m w with
    | (Ok a, w') => k a w'
    | (Raise e, w') => (Raise e, w')
    end.

Definition raise {A} (e : exn) : M A := fun w => (Raise e, w).

(** [try: m  except Exception as e: ...] hands the outcome to the handler. *)
Definition try_ {A} (m : M A) : M (result A) :=
  fun w => let (r, w') := m w in (Ok r, w').

Definition lift {A} (r : result A) : M A := fun w => (r, w).

Definition emit (e : event) : M unit :=
  fun w => (Ok tt, mk_world (trace w ++ [e]) (api_calls w) (generation_history w)).

Definition log (l : level) (t : text) : M unit := emit (EvLog l t).
Definition sleep (site : sleep_site) (seconds : Z) : M unit :=
  emit (EvSleep site seconds).
Definition status (t : text) : M unit := emit (EvStatus t).

(** Projections of a trace. *)
(** The seconds slept by the handler of [generate_and_save_image]. *)
Fixpoint backoff_delays (tr : list event) : list Z :=
  match tr with
  | [] => []
  | EvSleep Backoff s :: tr' => s :: backoff_delays tr'
  | _ :: tr' => backoff_delays tr'
  end.

Fixpoint generate_calls (tr : list event) : list string :=
  match tr with
  | [] => []
  | EvImagesGenerate p :: tr' => p :: generate_calls tr'
  | _ :: tr' => generate_calls tr'
  end.

Definition is_external (e : event) : bool :=
  match e with
  | EvImagesGenerate _ | EvRequestsGet _ | EvAudioFileClip _
  | EvImageClip _ _ | EvWriteVideofile _ _ _
  | EvConcatenateClips _ _ | EvAddAudioToVideo _ _ _ => true
  | _ => false
  end.

End Effects.
Import Effects.

Declare Scope monad_scope.
Delimit Scope monad_scope with monad.
Notation "x <- c1 ;; c2" := (bind c1 (fun x => c2))
  (at level 61, c1 at next level, right associativity) : monad_scope.
Notation "c1 ;; c2" := (bind c1 (fun _ => c2))
  (at level 61, right associativity) : monad_scope.
Local Open Scope monad_scope.

(** The collaborators, as oracles. *)
Record env : Type := mk_env {
  (* credential store *)
  get_api_key : option string;
  (* file system *)
  path_exists : string -> bool;                       (* os.path.exists *)
  getsize : string -> result Z;                       (* os.path.getsize *)
  read_text : string -> result string;                (* open(p).read() *)
  open_w : string -> result unit;                     (* open(p, 'w') *)
  ensure_writable_path : string -> string;            (* _ensure_writable_path *)
  (* audio decoding *)
  ffmpeg_available : bool;                            (* AudioProcessor.ffmpeg_available *)
  wave_read : string -> result (Z * Z);               (* getnframes, getframerate *)
  AudioSegment_from_file : string -> result Z;        (* len(audio), milliseconds *)
  makedirs : string -> result unit;                   (* os.makedirs(p, exist_ok=True) *)
  (* image service: outcome of the k-th call, k counted from 0 *)
  images_generate : nat -> string -> result (string * string);
                                                      (* url, revised prompt *)
  (* HTTP, for the picture of the k-th call: the j-th requests.get with
     raise_for_status answers with the content-type header or raises;
     streaming the body may raise; the clock is read once *)
  requests_get : nat -> nat -> string -> result string;
  iter_content : nat -> string -> result unit;
  time_time : nat -> Z;                               (* int(time.time()) *)
  (* MoviePy readers *)
  audio_clip_duration : string -> result Q;           (* AudioFileClip(p).duration *)
  image_size : string -> result (Z * Z);              (* ImageClip(p).size = (w, h) *)
  (* the flag written by the controlling thread, as read at loop index i *)
  cancelled_at : Z -> bool;
  (* random source: the k-th draw of randbelow(n) *)
  randbelow : nat -> Z -> Z;
  (* the media encoder: whether the external call described by the event
     succeeds *)
  external_result : event -> result unit
}.

(* ================================================================== *)
(** * core/audio_processor.py *)
(* ================================================================== *)

Module AudioProcessor.
Section WithEnv.
Variable E : env.

(** The file-size estimate of [get_duration], lines 89-103. *)
Definition estimate_from_size (audio_path : string) (file_size : Z) : Q :=
  if endswith (lower audio_path) ".mp3" then
    (* Assume 128kbps for MP3 *)
    (inject_Z (file_size * 8) / inject_Z (128 * 1000))%Q
  else if endswith (lower audio_path) ".m4a" then
    (* Assume 256kbps for M4A *)
    (inject_Z (file_size * 8) / inject_Z (256 * 1000))%Q
  else
    (* Default to 128kbps *)
    (inject_Z (file_size * 8) / inject_Z (128 * 1000))%Q.

(** [with wave.open(...)]: frames / float(rate); a zero rate raises
    inside the [try]. *)
Definition wav_duration (audio_path : string) : result Q :=
  match wave_read E audio_path with
  | Ok (frames, rate) =>
      if rate =? 0 then Raise (mk_exn ZeroDivisionError "float division by zero")
      else Ok (inject_Z frames / inject_Z rate)%Q
  | Raise e => Raise e
  end.

Definition fallback_estimate (audio_path : string) : M Q :=
  match getsize E audio_path with
  | Ok file_size =>
      let estimated_duration := estimate_from_size audio_path file_size in
      log WARNING (Seconds "Using estimated duration: " estimated_duration
                           " seconds (based on file size)") ;;
      ret estimated_duration
  | Raise e =>
      log ERROR (Text ("All duration methods failed: " ++ str e)) ;;
      raise (mk_exn RuntimeError
        "Cannot determine audio duration - FFmpeg is required for accurate audio processing")
  end.

Definition pydub_or_fallback (audio_path : string) : M Q :=
  if ffmpeg_available E then
    match AudioSegment_from_file E audio_path with
    | Ok ms =>
        let duration := (inject_Z ms / 1000)%Q in
        log INFO (Seconds "Pydub duration: " duration " seconds") ;;
        ret duration
    | Raise e =>
        log WARNING (Text ("Pydub failed: " ++ str e)) ;;
        fallback_estimate audio_path
    end
  else fallback_estimate audio_path.

(** [AudioProcessor.get_duration(audio_path)] *)
Definition get_duration (audio_path : string) : M Q :=
  log INFO (Text ("Getting duration of " ++ audio_path)) ;;
  if negb (path_exists E audio_path) then
    raise (mk_exn FileNotFoundError ("Audio file not found: " ++ audio_path))
  else
    (* Try WAV files first (no FFmpeg needed) *)
    if endswith (lower audio_path) ".wav" then
      match wav_duration audio_path with
      | Ok duration =>
          log INFO (Seconds "WAV duration: " duration " seconds") ;;
          ret duration
      | Raise e =>
          log WARNING (Text ("WAV parsing failed: " ++ str e)) ;;
          pydub_or_fallback audio_path
      end
    else pydub_or_fallback audio_path.

End WithEnv.

(** [AudioProcessor.generate_timestamps(total_duration, num_segments)] *)
Definition generate_timestamps (total_duration : Q) (num_segments : Z)
  : M (list Q) :=
  if num_segments <=? 0 then
    raise (mk_exn ValueError "Number of segments must be positive")
  else
    let segment_duration := (total_duration / inject_Z num_segments)%Q in
    let timestamps :=
      fold_left
        (fun timestamps i =>
           let timestamp := (inject_Z i * segment_duration)%Q in
           timestamps ++ [timestamp])
        (range num_segments) [] in
    log INFO (Seconds ("Generated " ++ str_int num_segments ++ " timestamps for ")
                      total_duration "s audio") ;;
    ret timestamps.

End AudioProcessor.
Import AudioProcessor.

(* ================================================================== *)
(** * core/openai_generator.py *)
(* ================================================================== *)

Module OpenAIImageGenerator.

Definition nl : string := String (ascii_of_nat 10) EmptyString.

(** The dictionary [style_guides] of [_get_style_guidelines]. *)
Definition style_guides : list (string * string) :=
  [ ("Photorealistic", "Realistic proportions, natural textures, authentic environments");
    ("Cinematic", "Movie-like composition, dramatic angles, film color grading");
    ("Anime/Manga", "Japanese animation style, expressive features, vibrant colors");
    ("3D Render", "Pixar-like quality, smooth surfaces, ambient occlusion");
    ("Oil Painting", "Visible brush strokes, rich textures, classical composition");
    ("Watercolor", "Soft edges, flowing colors, paper texture visible");
    ("Comic Book", "Bold outlines, flat colors, dynamic poses, speech bubble ready");
    ("Digital Art", "Modern digital painting style, vibrant colors, fantasy elements ok") ].

(** [d.get(key, default)] *)
Fixpoint dict_get (d : list (string * string)) (key default : string) : string :=
  match d with
  | [] => default
  | (k, v) :: d' => if String.eqb k key then v else dict_get d' key default
  end.

Definition _get_style_guidelines (style : string) : string :=
  dict_get style_guides style "High quality artistic rendering".

(** [OpenAIImageGenerator.create_scene_prompt] *)
Definition create_scene_prompt (script_segment character_desc style : string)
           (scene_number : Z) : string :=
  let base_prompt :=
    ("Create a " ++ lower style ++ " style image. " ++ nl
     ++ nl
     ++ "Main character: " ++ character_desc ++ nl
     ++ nl
     ++ "Scene " ++ str_int scene_number ++ " context: " ++ script_segment ++ nl
     ++ nl
     ++ "Important guidelines:" ++ nl
     ++ "- Maintain exact same character appearance as described" ++ nl
     ++ "- " ++ _get_style_guidelines style ++ nl
     ++ "- Professional quality suitable for video content" ++ nl
     ++ "- Clear focal point on the main character" ++ nl
     ++ "- Appropriate lighting and composition")%string in
  (* Add style-specific enhancements *)
  if String.eqb style "Cinematic" then
    (base_prompt ++ nl ++ "- Wide aspect ratio feeling, dramatic lighting"
                 ++ nl ++ "- Film grain texture, color grading like a movie")%string
  else if String.eqb style "Photorealistic" then
    (base_prompt ++ nl ++ "- Ultra realistic details, natural lighting"
                 ++ nl ++ "- Shot with professional camera, shallow depth of field")%string
  else base_prompt.

(** Lines 160-167: the file extension for a content-type header. *)
Definition extension_of (content_type_header : string) : string :=
  let content_type := lower content_type_header in
  if contains "png" content_type then "png"
  else if contains "jpeg" content_type || contains "jpg" content_type then "jpg"
  else "jpg".  (* Default to jpg if content type is unknown *)

(** Line 174: [os.path.join(output_dir, f"{filename_prefix}_{timestamp}.{ext}")] *)
Definition image_file (output_dir filename_prefix : string) (timestamp : Z)
           (ext : string) : string :=
  path_join output_dir (filename_prefix ++ "_" ++ str_int timestamp ++ "." ++ ext).

(** A [RequestException] or a [ConnectionError] is what the HTTP loop of
    [_download_image] catches. *)
Definition retriable (e : exn) : bool :=
  match exn_cls e with
  | RequestException | ConnectionError => true
  | _ => false
  end.

Section WithEnv.
Variable E : env.

(** [self.client.images.generate(...)]: the call is counted, then the
    service answers or raises. *)
Definition client_images_generate (prompt : string) : M (string * string) :=
  fun w =>
    let k := api_calls w in
    (images_generate E k prompt,
     mk_world (trace w ++ [EvImagesGenerate prompt]) (S k) (generation_history w)).

(** The HTTP loop of [_download_image], lines 148-157; [k] is the number
    of the generate call the picture belongs to, [todo] what is left of
    [range(max_retries)]. A [RequestException] or a [ConnectionError] is
    retried, anything else leaves the loop. *)
Fixpoint download_attempts (k : nat) (url : string) (max_retries : Z) (todo : list Z)
  : M string :=
  match todo with
  | [] => raise (mk_exn Exception "local variable 'response' referenced before assignment")
  | attempt :: rest =>
      emit (EvRequestsGet url) ;;
      match requests_get E k (Z.to_nat attempt) url with
      | Ok content_type => ret content_type
      | Raise e =>
          if retriable e then
            if attempt =? max_retries - 1 then
              raise (mk_exn Exception
                       ("Failed to download image after " ++ str_int max_retries
                          ++ " attempts: " ++ str e))
            else
              sleep DownloadRetry 1 ;;  (* Wait before retry *)
              download_attempts k url max_retries rest
          else raise e
      end
  end.

(** [with open(file, 'w') as f: f.write(...)] *)
Definition write_file (file : string) (c : content) : M unit :=
  lift (open_w E file) ;; emit (EvWrite file c).

(** The body of the outer [try] of [_download_image], lines 147-182. *)
Definition download_body (k : nat) (url output_dir filename_prefix : string)
  : M string :=
  (* Make the request with timeout and retry logic *)
  content_type <- download_attempts k url 3 (range 3) ;;
  (* Determine file extension *)
  let ext := extension_of content_type in
  (* Ensure output directory exists *)
  emit (EvMakedirs output_dir) ;;
  lift (makedirs E output_dir) ;;
  (* Save image with unique filename *)
  let timestamp := time_time E k in
  let image_path := image_file output_dir filename_prefix timestamp ext in
  (* Save in chunks to handle large files *)
  lift (open_w E image_path) ;;
  lift (iter_content E k url) ;;
  emit (EvWrite image_path (ImageData url)) ;;
  ret image_path.

(** [self._download_image(url, output_dir, filename_prefix)]: any error
    of the body is logged and raised again inside a new [Exception]. The
    picture belongs to the last generate call made. *)
Definition _download_image (url output_dir filename_prefix : string) : M string :=
  fun w =>
    (r <- try_ (download_body (pred (api_calls w)) url output_dir filename_prefix) ;;
     match r with
     | Ok image_path => ret image_path
     | Raise e =>
         let error_msg :=
           ("Error downloading image from " ++ url ++ ": " ++ str e)%string in
         log ERROR (Text error_msg) ;;
         raise (mk_exn Exception error_msg)
     end) w.

Definition history_append (h : history_entry) : M unit :=
  fun w => (Ok tt, mk_world (trace w) (api_calls w) (generation_history w ++ [h])).

(** The body of the [try] of one attempt, lines 70-105. *)
Definition attempt_body (prompt output_dir filename_prefix style : string)
           (max_retries attempt : Z) : M string :=
  log INFO (Text ("Generating image with DALL-E (attempt " ++ str_int (attempt + 1)
                    ++ "/" ++ str_int max_retries ++ ")")) ;;
  (* Generate image using DALL-E 3 *)
  response <- client_images_generate prompt ;;
  (* Get image URL and revised prompt *)
  let image_url := fst response in
  let revised := snd response in
  (* Download and save image *)
  image_path <- _download_image image_url output_dir filename_prefix ;;
  (* Store generation history *)
  history_append (mk_history prompt revised image_path style) ;;
  (* Save prompt for reference *)
  let prompt_path := path_join output_dir (filename_prefix ++ "_prompt.txt") in
  write_file prompt_path (PromptRecord prompt revised style) ;;
  log INFO (Text ("Successfully generated and saved image: " ++ image_path)) ;;
  ret image_path.

(** The [for attempt in range(max_retries)] loop, lines 68-120; [todo] is
    what is left of [range(max_retries)]. *)
Fixpoint attempts (prompt output_dir filename_prefix style : string)
         (max_retries : Z) (todo : list Z) : M string :=
  match todo with
  | [] => raise (mk_exn Exception "Failed to generate image after all retries")
  | attempt :: rest =>
      r <- try_ (attempt_body prompt output_dir filename_prefix style
                              max_retries attempt) ;;
      match r with
      | Ok image_path => ret image_path
      | Raise e =>
          log ERROR (Text ("Error generating image (attempt "
                             ++ str_int (attempt + 1) ++ "): " ++ str e)) ;;
          if contains "rate_limit" (lower (str e)) then
            (* Rate limit hit, wait before retry *)
            let wait_time := Z.min (30 * (attempt + 1)) 120 in  (* Progressive backoff *)
            log INFO (Text ("Rate limit hit, waiting " ++ str_int wait_time
                              ++ " seconds...")) ;;
            sleep Backoff wait_time ;;
            attempts prompt output_dir filename_prefix style max_retries rest
          else if attempt =? max_retries - 1 then
            raise e
          else
            sleep Backoff 5 ;;  (* Brief pause before retry *)
            attempts prompt output_dir filename_prefix style max_retries rest
      end
  end.

(** [OpenAIImageGenerator.generate_and_save_image(prompt, output_dir,
    filename_prefix, style, max_retries)] *)
Definition generate_and_save_image (prompt output_dir filename_prefix style : string)
           (max_retries : Z) : M string :=
  attempts prompt output_dir filename_prefix style max_retries (range max_retries).

(** The default [max_retries: int = 3]. *)
Definition default_max_retries : Z := 3.

(** [OpenAIImageGenerator.estimate_cost(num_images)] with the default
    quality: the field ['total_cost']. *)
Definition estimate_total_cost (num_images : Z) : Q :=
  (inject_Z num_images * (40 # 1000))%Q.

End WithEnv.
End OpenAIImageGenerator.
Import OpenAIImageGenerator.

(* ================================================================== *)
(** * MoviePy clips, as far as core/video_processor.py uses them *)
(* ================================================================== *)

(** The library is a collaborator, not code of the repository: the model
    follows MoviePy 1.0.3, the last release with [moviepy.editor], and
    keeps of a clip its duration, the picture it shows at each instant,
    its size and its audio. *)
Module MoviePy.

(** What is on screen at an instant. *)
Inductive frame : Type :=
| Blank                      (* background, or no frame defined *)
| Still (image : string).    (* the picture loaded from a file *)

Record AudioClip : Type := mk_audio {
  a_file : string;
  a_duration : Q
}.

Record VideoClip : Type := mk_clip {
  v_duration : option Q;       (* clip.duration, possibly None *)
  v_frame : Q -> frame;        (* clip.get_frame(t) *)
  v_size : Z * Z;              (* clip.size = (w, h) *)
  v_audio : option AudioClip   (* clip.audio *)
}.

(** [np.cumsum([acc] + ds)], in float arithmetic *)
Fixpoint cumsum_from (acc : Q) (ds : list Q) : list Q :=
  match ds with
  | [] => [acc]
  | d :: ds' => acc :: cumsum_from (fadd acc d) ds'
  end.

(** [[c.duration for c in clips]]; a [None] cannot be summed. *)
Fixpoint durations (clips : list VideoClip) : result (list Q) :=
  match clips with
  | [] => Ok []
  | c :: clips' =>
      match v_duration c, durations clips' with
      | Some d, Ok ds => Ok (d :: ds)
      | None, _ =>
          Raise (mk_exn TypeError "unsupported operand type(s) for +: 'int' and 'NoneType'")
      | _, Raise e => Raise e
      end
  end.

(** [max(values)] of a sequence of integers. *)
Definition max_of (values : list Z) : result Z :=
  match values with
  | [] => Raise (mk_exn ValueError "max() arg is an empty sequence")
  | v :: vs => Ok (fold_left Z.max vs v)
  end.

Inductive method : Type := Chain | Compose.

(** Frame of a composition at [t]: clips start at the cumulated times
    [tt]; a clip plays on [start <= t < end], its end being the float
    [start + duration]; a later clip is drawn over an earlier one. *)
Fixpoint compose_frame (clips : list VideoClip) (tt : list Q) (t : Q) (under : frame)
  : frame :=
  match clips, tt with
  | c :: clips', start :: tt' =>
      let playing :=
        match v_duration c with
        | Some d => Qle_bool start t && Qltb t (fadd start d)
        | None => Qle_bool start t
        end in
      compose_frame clips' tt' t
                    (if playing then v_frame c (fsub t start) else under)
  | _, _ => under
  end.

(** Frame of a chain at [t]: the clip of the largest index [i] with
    [tt[i] <= t], asked at [t - tt[i]]; [tt] has one more entry than
    [clips], and nothing is shown past the last one. *)
Fixpoint chain_frame (clips : list VideoClip) (tt : list Q) (t : Q) (found : frame)
  : frame :=
  match tt with
  | [] => found
  | start :: tt' =>
      let here :=
        if Qle_bool start t then
          match clips with
          | c :: _ => v_frame c (fsub t start)
          | [] => Blank
          end
        else found in
      chain_frame (tl clips) tt' t here
  end.

(** [concatenate_videoclips(clips, method=...)] *)
Definition concatenate_videoclips (clips : list VideoClip) (m : method)
  : result VideoClip :=
  match durations clips with
  | Raise e => Raise e
  | Ok ds =>
      let tt := cumsum_from 0 ds in
      match max_of (map (fun c => fst (v_size c)) clips),
            max_of (map (fun c => snd (v_size c)) clips) with
      | Ok w, Ok h =>
          Ok (mk_clip (Some (last tt 0%Q))
                      (fun t => match m with
                                | Compose => compose_frame clips tt t Blank
                                | Chain => chain_frame clips tt t Blank
                                end)
                      (w, h)
                      (match clips with
                       | c :: _ => v_audio c
                       | [] => None
                       end))
      | Raise e, _ => Raise e
      | _, Raise e => Raise e
      end
  end.

(** [clip.set_audio(audio)] *)
Definition set_audio (c : VideoClip) (a : AudioClip) : VideoClip :=
  mk_clip (v_duration c) (v_frame c) (v_size c) (Some a).

(** [clip.set_duration(d)] *)
Definition set_duration (c : VideoClip) (d : Q) : VideoClip :=
  mk_clip (Some d) (v_frame c) (v_size c) (v_audio c).

(** [clip.to_ImageClip(t)]: the frame at [t], for ever, no duration yet. *)
Definition to_ImageClip (c : VideoClip) (t : Q) : VideoClip :=
  let f := v_frame c t in
  mk_clip None (fun _ => f) (v_size c) None.

(** [clip.subclip(t_start, t_end)] with both bounds given. *)
Definition subclip (c : VideoClip) (t_start t_end : Q) : result VideoClip :=
  match v_duration c with
  | None =>
      if Qltb t_start 0 then
        Raise (mk_exn TypeError "unsupported operand type(s) for +: 'NoneType' and 'float'")
      else
        Ok (mk_clip (Some (fsub t_end t_start))
                    (fun t => v_frame c (fadd t t_start)) (v_size c) (v_audio c))
  | Some dur =>
      let t_start := if Qltb t_start 0 then fadd dur t_start else t_start in
      if Qltb dur t_start then
        Raise (mk_exn ValueError "t_start should be smaller than the clip's duration")
      else
        let t_end := if Qltb t_end 0 then fadd dur t_end else t_end in
        Ok (mk_clip (Some (fsub t_end t_start))
                    (fun t => v_frame c (fadd t t_start)) (v_size c) (v_audio c))
  end.

End MoviePy.
Import MoviePy.

(* ================================================================== *)
(** * core/video_processor.py *)
(* ================================================================== *)

Module VideoProcessor.
Section WithEnv.
Variable E : env.

(** A call into the encoder or another external tool: recorded, and then
    it succeeds or raises. *)
Definition external (e : event) : M unit :=
  emit e ;; lift (external_result E e).

(** [AudioFileClip(audio_path)] *)
Definition AudioFileClip (audio_path : string) : M AudioClip :=
  emit (EvAudioFileClip audio_path) ;;
  d <- lift (audio_clip_duration E audio_path) ;;
  ret (mk_audio audio_path d).

(** [ImageClip(image_path, duration=duration)] *)
Definition ImageClip (image_path : string) (d : Q) : M VideoClip :=
  emit (EvImageClip image_path d) ;;
  sz <- lift (image_size E image_path) ;;
  ret (mk_clip (Some d) (fun _ => Still image_path) sz None).

(** [VideoProcessor._export_for_youtube(video_clip, output_path)] *)
Definition _export_for_youtube (video_clip : VideoClip) (output_path : string)
  : M unit :=
  log INFO (Text "Exporting with YouTube-optimized settings...") ;;
  (* Calculate bitrate based on resolution *)
  let height := snd (v_size video_clip) in
  let bitrate :=
    if 1080 <=? height then "8000k"
    else if 720 <=? height then "5000k"
    else "2500k" in
  external (EvWriteVideofile output_path (v_duration video_clip) (Some bitrate)).



(** The loop of lines 180-195: one [ImageClip] per record, in order. *)
Fixpoint image_clips (image_data : list image_record) (clips : list VideoClip)
  : M (list VideoClip) :=
  match image_data with
  | [] => ret clips
  | data :: rest =>
      clip <- ImageClip (path data) (duration data) ;;
      image_clips rest (clips ++ [clip])
  end.

(** Lines 203-210: ensure the video matches the audio duration. *)
Definition match_audio_duration (final_video : VideoClip) (total_duration : Q)
  : result VideoClip :=
  match v_duration final_video with
  | None => Raise (mk_exn TypeError "'>' not supported between 'NoneType' and 'float'")
  | Some d =>
      if Qltb total_duration d then
        subclip final_video 0 total_duration
      else if Qltb d total_duration then
        (* Extend last frame *)
        let last_frame := to_ImageClip final_video (fsub d tenth) in
        let extension := set_duration last_frame (fsub total_duration d) in
        concatenate_videoclips [final_video; extension] Chain
      else Ok final_video
  end.

(** Lines 175-210 of [create_full_video]: the clip that is exported. *)
Definition synced_video (image_data : list image_record) (audio_path : string)
  : M (VideoClip * AudioClip) :=
  log INFO (Text "Creating full video with voiceover...") ;;
  (* Load audio *)
  audio <- AudioFileClip audio_path ;;
  let total_duration := a_duration audio in
  (* Create clips from images *)
  clips <- image_clips image_data [] ;;
  (* Concatenate all clips *)
  final_video <- lift (concatenate_videoclips clips Compose) ;;
  (* Set audio *)
  let final_video := set_audio final_video audio in
  (* Ensure video matches audio duration *)
  final_video <- lift (match_audio_duration final_video total_duration) ;;
  ret (final_video, audio).

(** [VideoProcessor.create_full_video(image_data, audio_path, output_path)] *)
Definition create_full_video (image_data : list image_record)
           (audio_path output_path : string) : M unit :=
  va <- synced_video image_data audio_path ;;
  (* Export with YouTube-optimized settings *)
  _export_for_youtube (fst va) (ensure_writable_path E output_path) ;;
  (* Cleanup *)
  emit (EvClose "final_video") ;;
  emit (EvClose "audio").

(** [VideoProcessor.concatenate_clips] and [add_audio_to_video], as calls
    into the encoder. *)
Definition concatenate_clips (video_paths : list string) (output_path : string)
           (target_duration : option Q) : M unit :=
  log INFO (Text ("Concatenating " ++ str_int (len video_paths) ++ " video clips...")) ;;
  external (EvConcatenateClips video_paths target_duration).

Definition add_audio_to_video (video_path audio_path output_path : string) : M unit :=
  log INFO (Text "Adding audio to video...") ;;
  external (EvAddAudioToVideo video_path audio_path output_path) ;;
  log INFO (Text ("Created video with audio: " ++ output_path)).

End WithEnv.
End VideoProcessor.
Import VideoProcessor.

(* ================================================================== *)
(** * ai_video_tool_openai.py: ProcessingThread *)
(* ================================================================== *)

Module ProcessingThread.

(** One iteration of the loop of [_split_script]: the segment of index
    [i]. *)
Definition segment_at (words : list string) (num_segments words_per_segment i : Z)
  : string :=
  let start_idx := i * words_per_segment in
  if i =? num_segments - 1 then
    (* Last segment gets remaining words *)
    join " " (slice_from words start_idx)
  else
    join " " (slice words start_idx (start_idx + words_per_segment)).

(** [ProcessingThread._split_script(script, num_segments)].
    [len(words) // num_segments] raises ZeroDivisionError for 0 and is a
    floor division otherwise; [range] of a negative number is empty. *)
Definition _split_script (script : string) (num_segments : Z)
  : result (list string) :=
  let words := split script in
  if num_segments =? 0 then
    Raise (mk_exn ZeroDivisionError "integer division or modulo by zero")
  else
    let words_per_segment := len words / num_segments in
    Ok (fold_left
          (fun segments i =>
             segments ++ [segment_at words num_segments words_per_segment i])
          (range num_segments) []).

(** [self.params] of an "ai_images" task. *)
Record ai_params : Type := mk_ai_params {
  p_script_path : string;
  p_voice_path : string;
  p_image_count : Z;
  p_style : string;
  p_character_desc : string;
  p_output_dir : string;
  p_export_clips : bool;        (* export_options.get('clips', False) *)
  p_export_full_video : bool    (* export_options.get('full_video', False) *)
}.

(** [self.params] of a "broll" task. *)
Record broll_params : Type := mk_broll_params {
  b_broll_paths : list string;
  b_intro_paths : list string;
  b_voiceover_path : option string;
  b_sync_duration : bool;
  b_overlay_audio : bool;
  b_output_dir : string
}.

(** [enumerate(l)] *)
Definition enumerate {A} (l : list A) : list (Z * A) :=
  combine (range (len l)) l.

(** [x[i], x[j] = x[j], x[i]] *)
Definition swap {A} (x : list A) (i j : nat) : list A :=
  match nth_error x i, nth_error x j with
  | Some xi, Some xj => setitem (setitem x i xj) j xi
  | _, _ => x
  end.

Section WithEnv.
Variable E : env.

(** [random.shuffle(x)]: for [i] from [len(x) - 1] down to 1, exchange
    [x[i]] with [x[j]], [j = randbelow(i + 1)]; [k] counts the draws, and
    a draw is reduced into [range(i + 1)]. *)
Fixpoint shuffle_loop {A} (x : list A) (todo : list nat) (k : nat) : list A :=
  match todo with
  | [] => x
  | i :: rest =>
      let j := Z.to_nat (randbelow E k (Z.of_nat (i + 1)) mod Z.of_nat (i + 1)) in
      shuffle_loop (swap x i j) rest (S k)
  end.

Definition shuffle {A} (x : list A) : list A :=
  shuffle_loop x (rev (seq 1 (List.length x - 1))) 0.

Section AiImages.
Variable params : ai_params.

Let image_count := p_image_count params.
Let style := p_style params.
Let character_desc := p_character_desc params.
Let output_dir := p_output_dir params.

(** The body of the [try] of lines 120-132 for loop index [i]. *)
Definition generate_one (timestamps : list Q) (duration : Q)
           (i : Z) (segment : string) (timestamp : Q) : M image_record :=
  (* Create prompt *)
  let prompt := create_scene_prompt segment character_desc style (i + 1) in
  (* Generate image *)
  image_path <- generate_and_save_image E prompt output_dir
                  ("scene_" ++ format_03d (i + 1)) style default_max_retries ;;
  d <- lift (if i <? len timestamps - 1 then
               match index timestamps (i + 1) with
               | Some next => Ok (next - timestamp)%Q
               | None => Raise (mk_exn Exception "list index out of range")
               end
             else Ok (duration - timestamp)%Q) ;;
  emit (EvImageGenerated image_path timestamp) ;;
  ret (mk_image image_path timestamp d).

(** The [for i, (segment, timestamp) in enumerate(zip(...))] loop,
    lines 104-139; [generated_images] is the list built so far. *)
Fixpoint generate_images (timestamps : list Q) (duration : Q)
         (items : list (Z * (string * Q)))
         (generated_images : list image_record) : M (list image_record) :=
  match items with
  | [] => ret generated_images
  | (i, (segment, timestamp)) :: rest =>
      if cancelled_at E i then
        status (Text "Generation cancelled by user") ;;
        ret generated_images
      else
        status (Text ("Generating image " ++ str_int (i + 1) ++ " of "
                        ++ str_int image_count ++ "...")) ;;
        r <- try_ (generate_one timestamps duration i segment timestamp) ;;
        match r with
        | Ok record =>
            let progress :=
              int_of_Q (inject_Z (i + 1) / inject_Z image_count * 100)%Q in
            emit (EvProgress progress) ;;
            generate_images timestamps duration rest (generated_images ++ [record])
        | Raise e =>
            status (Text ("Failed to generate image " ++ str_int (i + 1)
                            ++ ": " ++ str e)) ;;
            generate_images timestamps duration rest generated_images
        end
  end.

Definition metadata_path : string :=
  path_join output_dir "generation_metadata.json".

(** Lines 102-152: generate the images, then save the metadata. *)
Definition generate_all (script_segments : list string) (timestamps : list Q)
           (duration : Q) : M (list image_record) :=
  (* Generate images *)
  generated_images <- generate_images timestamps duration
                        (enumerate (combine script_segments timestamps)) [] ;;
  (* Save metadata *)
  write_file E metadata_path
    (Metadata (mk_metadata generated_images (p_script_path params)
                           (p_voice_path params) duration character_desc style
                           "OpenAI DALL-E 3")) ;;
  ret generated_images.


End AiImages.

(** The intro loop of lines 192-197. *)
Fixpoint intro_loop (n : Z) (items : list (Z * string)) (intro_clips : list string)
  : M (list string) :=
  match items with
  | [] => ret intro_clips
  | (i, p) :: rest =>
      emit (EvProgress (int_of_Q (inject_Z i / inject_Z n * 20)%Q)) ;;
      intro_loop n rest (intro_clips ++ [p])
  end.

(** Lines 171-217 of [process_broll]: the playlist handed to
    [concatenate_clips]. *)
Definition build_playlist (params : broll_params) : M (list string * option Q) :=
  let broll_paths := b_broll_paths params in
  let intro_paths := b_intro_paths params in
  let voiceover_path := b_voiceover_path params in
  (* Get target duration if syncing with voiceover *)
  target_duration <-
    (if b_sync_duration params && truthy voiceover_path then
       status (Text "Analyzing voiceover duration...") ;;
       d <- get_duration E (match voiceover_path with Some p => p | None => "" end) ;;
       ret (Some d)
     else ret None) ;;
  (* Process intro clips *)
  intro_clips <-
    (match intro_paths with
     | [] => ret []
     | _ :: _ =>
         status (Text "Processing intro clips...") ;;
         intro_loop (len intro_paths) (enumerate intro_paths) []
     end) ;;
  (* Shuffle remaining B-roll *)
  status (Text "Shuffling B-roll clips...") ;;
  let shuffled_broll := shuffle broll_paths in
  (* Combine clips *)
  let all_clips := intro_clips ++ shuffled_broll in
  ret (all_clips, target_duration).

(** [ProcessingThread.process_broll()] *)
Definition process_broll (params : broll_params) : M unit :=
  status (Text "Starting B-roll reorganization...") ;;
  pl <- build_playlist params ;;
  let all_clips := fst pl in
  let target_duration := snd pl in
  (* Create reorganized video *)
  status (Text "Creating reorganized video...") ;;
  let output_path := path_join (b_output_dir params) "broll_reorganized.mp4" in
  concatenate_clips E all_clips output_path target_duration ;;
  (* Overlay audio if requested *)
  (if b_overlay_audio params && truthy (b_voiceover_path params) then
     status (Text "Overlaying voiceover...") ;;
     let final_path := path_join (b_output_dir params) "broll_with_voiceover.mp4" in
     add_audio_to_video E output_path
       (match b_voiceover_path params with Some p => p | None => "" end) final_path ;;
     emit (EvProgress 100)
   else emit (EvProgress 100)) ;;
  status (Text "B-roll reorganization completed!").

End WithEnv.
End ProcessingThread.
Import ProcessingThread.

(* ================================================================== *)
(** * Concrete collaborators used in examples *)
(* ================================================================== *)

Module Examples.

(** A machine without FFmpeg whose files all exist; every file has
    [size] bytes, the image service answers [generate], every download
    (a PNG, at the time 1700000000) and every encoder call succeeds, and
    nobody cancels. *)
Definition stub_env (size : Z)
           (generate : nat -> string -> result (string * string)) : env :=
  mk_env (Some "sk-test")
         (fun _ => true)
         (fun _ => Ok size)
         (fun _ => Ok "one two three four five six seven eight nine ten")
         (fun _ => Ok tt)
         (fun p => p)
         false
         (fun _ => Raise (mk_exn OSError "not a RIFF file"))
         (fun _ => Raise (mk_exn OSError "ffmpeg not found"))
         (fun _ => Ok tt)
         generate
         (fun _ _ _ => Ok "image/png")
         (fun _ _ => Ok tt)
         (fun _ => 1700000000)
         (fun _ => Ok 10%Q)
         (fun _ => Ok (1024, 1024))
         (fun _ => false)
         (fun k _ => Z.of_nat k)
         (fun _ => Ok tt).

Definition always_ok : nat -> string -> result (string * string) :=
  fun _ _ => Ok ("https://img.example/1.png", "revised").

(** An empty audio file on a machine without FFmpeg. *)
Definition empty_file_env : env := stub_env 0 always_ok.

(** A 160000-byte audio file on a machine without FFmpeg. *)
Definition small_file_env : env := stub_env 160000 always_ok.

(** The image service fails twice with a rate-limit error, then answers. *)
Definition rate_limited_twice : nat -> string -> result (string * string) :=
  fun k _ =>
    if (k <? 2)%nat
    then Raise (mk_exn Exception "Error code: 429 - rate_limit_exceeded")
    else Ok ("https://img.example/1.png", "revised").

Definition rate_limited_twice_env : env := stub_env 160000 rate_limited_twice.

(** The image service always fails, with an error that is not a rate
    limit, or with one that is. *)
Definition always_failing_env : env :=
  stub_env 160000 (fun _ _ => Raise (mk_exn Exception "Connection error.")).

Definition always_rate_limited_env : env :=
  stub_env 160000
           (fun _ _ => Raise (mk_exn Exception "Error code: 429 - rate_limit_exceeded")).

(** The image service refuses the third scene, whenever it is asked. *)
Definition third_scene_fails_env : env :=
  stub_env 160000
           (fun _ prompt =>
              if contains "Scene 3 context" prompt
              then Raise (mk_exn Exception "Error code: 400 - content_policy_violation")
              else Ok ("https://img.example/1.png", "revised")).

(** The image service answers the third scene with a rate-limit error,
    whenever it is asked. *)
Definition third_scene_rate_limited_env : env :=
  stub_env 160000
           (fun _ prompt =>
              if contains "Scene 3 context" prompt
              then Raise (mk_exn Exception "Error code: 429 - rate_limit_exceeded")
              else Ok ("https://img.example/1.png", "revised")).

Definition five_segments : list string :=
  ["one two"; "three four"; "five six"; "seven eight"; "nine ten"].

Definition five_timestamps : list Q := [0; 2; 4; 6; 8]%Q.

Definition five_params : ProcessingThread.ai_params :=
  ProcessingThread.mk_ai_params "script.txt" "voice.mp3" 5 "Cinematic"
                                "a tall woman in a red coat" "out" false false.

(** A picture shown for 7.5 s, then one shown for 1/16 s. *)
Definition short_last_artifact : list image_record :=
  [mk_image "out/scene_001.png" 0 (15 # 2);
   mk_image "out/scene_002.png" (15 # 2) (1 # 16)].

(** One picture shown for 0.54 s, and a machine whose audio tracks last
    10.03 s. *)
Definition one_short_artifact : list image_record :=
  [mk_image "out/scene_001.png" 0 (round64 (54 # 100))].

Definition long_audio_env : env :=
  mk_env (Some "sk-test")
         (fun _ => true)
         (fun _ => Ok 160000)
         (fun _ => Ok "one two three four five six seven eight nine ten")
         (fun _ => Ok tt)
         (fun p => p)
         false
         (fun _ => Raise (mk_exn OSError "not a RIFF file"))
         (fun _ => Raise (mk_exn OSError "ffmpeg not found"))
         (fun _ => Ok tt)
         (fun _ _ => Ok ("https://img.example/1.png", "revised"))
         (fun _ _ _ => Ok "image/png")
         (fun _ _ => Ok tt)
         (fun _ => 1700000000)
         (fun _ => Ok (round64 (1003 # 100)))
         (fun _ => Ok (1024, 1024))
         (fun _ => false)
         (fun k _ => Z.of_nat k)
         (fun _ => Ok tt).

(** Two pictures of 6 s each, and two of 4 s each. *)
Definition twelve_seconds : list image_record :=
  [mk_image "out/scene_001.png" 0 6; mk_image "out/scene_002.png" 6 6].

Definition eight_seconds : list image_record :=
  [mk_image "out/scene_001.png" 0 4; mk_image "out/scene_002.png" 4 4].

End Examples.
Import Examples.

(* ================================================================== *)
(** * Vocabulary of the statements *)
(* ================================================================== *)

(** ** Words of a script *)

(** A word: not empty, and free of whitespace. *)
Fixpoint no_space (s : string) : bool :=
  match s with
  | EmptyString => true
  | String c s' => negb (isspace c) && no_space s'
  end.

Definition is_word (s : string) : bool :=
  match s with
  | EmptyString => false
  | _ => no_space s
  end.

(** The words of [segments] are the consecutive chunks of [words] that the
    splitting contract describes: [n] chunks, each but the last of
    [len words // n] words, the last one taking what is left. *)
Definition chunks_of (words : list string) (n : Z) (segments : list string) : Prop :=
  let q := len words / n in
  len segments = n
  /\ (forall i, 0 <= i < n - 1 ->
        exists seg, index segments i = Some seg
                    /\ split seg = slice words (i * q) (i * q + q)
                    /\ len (split seg) = q)
  /\ (exists seg, index segments (n - 1) = Some seg
                  /\ split seg = slice_from words ((n - 1) * q))
  /\ List.concat (map split segments) = words
  /\ list_sum (map (fun seg => List.length (split seg)) segments)
     = List.length words.

(** ** B-roll playlist *)

(** The playlists handed to [concatenate_clips], oldest first. *)
Fixpoint concatenations (tr : list event) : list (list string) :=
  match tr with
  | [] => []
  | EvConcatenateClips playlist _ :: tr' => playlist :: concatenations tr'
  | _ :: tr' => concatenations tr'
  end.

(** A computation that hands nothing to [concatenate_clips]. *)
Definition no_concatenation {A} (m : M A) : Prop :=
  forall w, concatenations (trace (snd (m w))) = concatenations (trace w).

(** ** Duration of an audio file *)

(** The WAV header gives no duration: not a [.wav] name, or reading the
    header raised. *)
Definition header_fails (E : env) (audio_path : string) : bool :=
  negb (endswith (lower audio_path) ".wav") || negb (is_ok (wav_duration E audio_path)).

(** The decoder gives no duration: FFmpeg is missing, or decoding raised. *)
Definition decoder_fails (E : env) (audio_path : string) : bool :=
  negb (ffmpeg_available E) || negb (is_ok (AudioSegment_from_file E audio_path)).

(** Bits per second assumed by the estimate. *)
Definition assumed_bitrate (audio_path : string) : Z :=
  if endswith (lower audio_path) ".m4a" then 256 * 1000 else 128 * 1000.

(** The warning that flags an estimate. *)
Definition approximate_flag (d : Q) : event :=
  EvLog WARNING (Seconds "Using estimated duration: " d " seconds (based on file size)").

(** ** The synchronised video *)

(** A number that a float holds exactly. *)
Definition is_float (x : Q) : Prop := (round64 x == x)%Q.

(** The clip [ImageClip] builds for a record whose picture loads. *)
Definition loaded_clip (E : env) (data : image_record) : VideoClip :=
  mk_clip (Some (duration data)) (fun _ => Still (path data))
          (match image_size E (path data) with
           | Ok sz => sz
           | Raise _ => (0, 0)
           end)
          None.

(** The pictures of the artifacts on the time line: the artifact of the
    record [data] starts at its entry [start] of [tt] and is on screen
    while [start <= t < start + duration]; a later artifact is drawn over
    an earlier one. *)
Fixpoint track_frame (image_data : list image_record) (tt : list Q) (t : Q)
         (under : frame) : frame :=
  match image_data, tt with
  | data :: rest, start :: tt' =>
      track_frame rest tt' t
        (if Qle_bool start t && Qltb t (fadd start (duration data))
         then Still (path data) else under)
  | _, _ => under
  end.

(** [final] is the video [create_full_video] hands to the encoder: the clip
    that [synced_video] builds, written once, with its duration, to the
    output path. *)
Definition exports (E : env) (image_data : list image_record)
           (audio_path output_path : string) (w : world) (final : VideoClip) : Prop :=
  exists audio w1 bitrate rest,
    synced_video E image_data audio_path w = (Ok (final, audio), w1)
    /\ trace (snd (create_full_video E image_data audio_path output_path w))
       = trace w1
         ++ EvLog INFO (Text "Exporting with YouTube-optimized settings...")
            :: EvWriteVideofile (ensure_writable_path E output_path) (v_duration final)
                                (Some bitrate)
            :: rest.

(** ** Retrying the generation call *)

(** The handler's classification of a failure. *)
Definition rate_limited (e : exn) : bool := contains "rate_limit" (lower (str e)).

(** What the HTTP loop of [_download_image] comes to for the picture of
    the call number [k]. *)
Fixpoint http_outcome (E : env) (k : nat) (url : string) (max_retries : Z)
         (todo : list Z) : result string :=
  match todo with
  | [] => Raise (mk_exn Exception "local variable 'response' referenced before assignment")
  | attempt :: rest =>
      match requests_get E k (Z.to_nat attempt) url with
      | Ok content_type => Ok content_type
      | Raise e =>
          if retriable e then
            if attempt =? max_retries - 1 then
              Raise (mk_exn Exception
                       ("Failed to download image after " ++ str_int max_retries
                          ++ " attempts: " ++ str e))
            else http_outcome E k url max_retries rest
          else Raise e
      end
  end.

(** What [_download_image] comes to for the picture of the call number
    [k]: the saved path, or the error wrapped by its handler. *)
Definition download_outcome (E : env) (k : nat)
           (url output_dir filename_prefix : string) : result string :=
  let body :=
    match http_outcome E k url 3 (range 3) with
    | Raise e => Raise e
    | Ok content_type =>
        let image_path :=
          image_file output_dir filename_prefix (time_time E k)
                     (extension_of content_type) in
        match makedirs E output_dir with
        | Raise e => Raise e
        | Ok _ =>
            match open_w E image_path with
            | Raise e => Raise e
            | Ok _ =>
                match iter_content E k url with
                | Raise e => Raise e
                | Ok _ => Ok image_path
                end
            end
        end
    end in
  match body with
  | Ok image_path => Ok image_path
  | Raise e =>
      Raise (mk_exn Exception ("Error downloading image from " ++ url ++ ": " ++ str e))
  end.

(** What the body of the [try] comes to when it makes the call number
    [k]: the service answers, the download is saved, the prompt record is
    written. *)
Definition attempt_outcome (E : env) (prompt output_dir filename_prefix : string)
           (k : nat) : result string :=
  match images_generate E k prompt with
  | Raise e => Raise e
  | Ok (url, revised) =>
      match download_outcome E k url output_dir filename_prefix with
      | Raise e => Raise e
      | Ok image_path =>
          match open_w E (path_join output_dir (filename_prefix ++ "_prompt.txt")) with
          | Raise e => Raise e
          | Ok _ => Ok image_path
          end
      end
  end.

(** The history entry the call number [k] leaves: one when the picture was
    downloaded, none otherwise. *)
Definition history_of (E : env) (prompt output_dir filename_prefix style : string)
           (k : nat) : list history_entry :=
  match images_generate E k prompt with
  | Ok (url, revised) =>
      match download_outcome E k url output_dir filename_prefix with
      | Ok image_path => [mk_history prompt revised image_path style]
      | Raise _ => []
      end
  | Raise _ => []
  end.

(** What one observes of the retry loop, computed from the outcomes of the
    calls alone: the result, the delays slept, the number of calls made.
    [k] is the number of the next call. *)
Fixpoint retry_summary (max_retries : Z) (todo : list Z)
         (outcome : nat -> result string) (k : nat)
  : result string * list Z * nat :=
  match todo with
  | [] => (Raise (mk_exn Exception "Failed to generate image after all retries"), [], O)
  | attempt :: rest =>
      match outcome k with
      | Ok image_path => (Ok image_path, [], 1%nat)
      | Raise e =>
          if rate_limited e then
            let '(r, delays, n) := retry_summary max_retries rest outcome (S k) in
            (r, Z.min (30 * (attempt + 1)) 120 :: delays, S n)
          else if attempt =? max_retries - 1 then (Raise e, [], 1%nat)
          else
            let '(r, delays, n) := retry_summary max_retries rest outcome (S k) in
            (r, 5 :: delays, S n)
      end
  end.

(** A world with more events. *)
Definition add_events (w : world) (evs : list event) : world :=
  mk_world (trace w ++ evs) (api_calls w) (generation_history w).

(** The retry policy of one generation call with the default budget of
    three attempts, read off the outcomes [outcome 0], [outcome 1],
    [outcome 2] of the calls it may make: [r] is what the call returns or
    raises, [delays] the seconds slept in order, [n] the number of calls
    made. *)
Definition retry_policy (outcome : nat -> result string)
           (r : result string) (delays : list Z) (n : nat) : Prop :=
  (* at most three attempts, one more than the failures before a success *)
  (n <= 3)%nat
  /\ (forall k image_path,
        (k < 3)%nat -> (forall j, (j < k)%nat -> is_ok (outcome j) = false) ->
        outcome k = Ok image_path ->
        r = Ok image_path /\ n = S k /\ List.length delays = k)
  (* the delay after the failure of attempt k + 1 *)
  /\ (forall k e,
        (k < 3)%nat -> (forall j, (j < k)%nat -> is_ok (outcome j) = false) ->
        outcome k = Raise e ->
        (rate_limited e = true ->
         nth_error delays k = Some (Z.min (30 * (Z.of_nat k + 1)) 120))
        /\ (rate_limited e = false -> (k < 2)%nat -> nth_error delays k = Some 5)
        /\ (rate_limited e = false -> k = 2%nat ->
            nth_error delays k = None /\ r = Raise e))
  (* two rate-limit failures in a row: the second delay is not shorter *)
  /\ (forall k e e',
        (S k < 3)%nat -> (forall j, (j < k)%nat -> is_ok (outcome j) = false) ->
        outcome k = Raise e -> rate_limited e = true ->
        outcome (S k) = Raise e' -> rate_limited e' = true ->
        exists d d', nth_error delays k = Some d
                     /\ nth_error delays (S k) = Some d' /\ d <= d')
  (* the budget exhausted: an error reaches the caller *)
  /\ ((forall k, (k < 3)%nat -> is_ok (outcome k) = false) ->
      n = 3%nat
      /\ exists e, r = Raise e
         /\ forall e3, outcome 2%nat = Raise e3 ->
              (rate_limited e3 = false -> e = e3)
              /\ (rate_limited e3 = true ->
                  e = mk_exn Exception "Failed to generate image after all retries"
                  /\ nth_error delays 2 = Some 90)).

(** ** Generating every segment *)

(** The request of loop index [i]. *)
Definition scene_prompt (params : ai_params) (i : Z) (segment : string) : string :=
  create_scene_prompt segment (p_character_desc params) (p_style params) (i + 1).

Definition scene_prefix (i : Z) : string := "scene_" ++ format_03d (i + 1).

(** The record appended for loop index [i] when its picture is saved at
    [image_path]. *)
Definition artifact (timestamps : list Q) (duration : Q) (i : Z) (ts : Q)
           (image_path : string) : image_record :=
  mk_image image_path ts
           (if i <? len timestamps - 1
            then nth (Z.to_nat (i + 1)) timestamps 0 - ts
            else duration - ts)%Q.

(** The session summary written at the end of a run. *)
Definition session_metadata (params : ai_params) (duration : Q)
           (generated : list image_record) : event :=
  EvWrite (metadata_path params)
          (Metadata (mk_metadata generated (p_script_path params) (p_voice_path params)
                                 duration (p_character_desc params) (p_style params)
                                 "OpenAI DALL-E 3")).

(** The generation call of one segment, told from what its attempts come
    to: [outcome k] is the outcome of the service call number [k], and [c]
    calls were made before this one. The call returns the picture of the
    first of its three attempts that succeeds, after that many calls; it
    raises when all three fail, after three calls. *)
Definition first_success (outcome : nat -> result string) (c : nat)
  : option string * nat :=
  match outcome c with
  | Ok image_path => (Some image_path, 1%nat)
  | Raise _ =>
      match outcome (S c) with
      | Ok image_path => (Some image_path, 2%nat)
      | Raise _ =>
          match outcome (S (S c)) with
          | Ok image_path => (Some image_path, 3%nat)
          | Raise _ => (None, 3%nat)
          end
      end
  end.

(** The artifacts a run produces, told from the outcomes of the service
    calls alone, [c] calls having been made before the first segment: a
    segment whose three attempts all fail leaves no artifact and the next
    segment is taken up; any other segment leaves its artifact; a
    cancellation ends the run. *)
Fixpoint kept_artifacts (E : env) (params : ai_params) (timestamps : list Q)
         (duration : Q) (items : list (Z * (string * Q))) (c : nat)
  : list image_record :=
  match items with
  | [] => []
  | (i, (segment, ts)) :: rest =>
      if cancelled_at E i then []
      else
        let outcome := attempt_outcome E (scene_prompt params i segment)
                                       (p_output_dir params) (scene_prefix i) in
        match first_success outcome c with
        | (Some image_path, n) =>
            artifact timestamps duration i ts image_path
            :: kept_artifacts E params timestamps duration rest (c + n)
        | (None, n) => kept_artifacts E params timestamps duration rest (c + n)
        end
  end.

(* ================================================================== *)
(** * More built-ins *)
(* ================================================================== *)

Module PyLib.

(** [d.get(key)] and [d.get(key, default)] on a dictionary with string
    keys, in insertion order. *)
Fixpoint lookup {V : Type} (d : list (string * V)) (key : string) : option V :=
  match d with
  | [] => None
  | (k, v) :: d' => if String.eqb k key then Some v else lookup d' key
  end.

Definition get_default {V : Type} (d : list (string * V)) (key : string) (default : V) : V :=
  match lookup d key with
  | Some v => v
  | None => default
  end.

(** [len(s)] of a string. *)
Definition str_len (s : string) : Z := Z.of_nat (String.length s).

(** [s[start:stop]], [s[start:]] and [s[:stop]]: bounds are normalised as
    for a list slice. *)
Definition str_slice (s : string) (start stop : Z) : string :=
  let a := clip_index (str_len s) start in
  let b := clip_index (str_len s) stop in
  String.substring (Z.to_nat a) (Z.to_nat (b - a)) s.

Definition str_from (s : string) (start : Z) : string :=
  let a := clip_index (str_len s) start in
  String.substring (Z.to_nat a) (String.length s - Z.to_nat a) s.

Definition str_to (s : string) (stop : Z) : string := str_slice s 0 stop.

(** [s.rfind(c)] for a one-character [c]: the last index of [c], or -1;
    [i] is the index of the head of [s], [found] the last index seen. *)
Fixpoint rfind_from (c : ascii) (s : string) (i found : Z) : Z :=
  match s with
  | EmptyString => found
  | String a s' => rfind_from c s' (i + 1) (if Ascii.eqb a c then i else found)
  end.

Definition rfind (c : ascii) (s : string) : Z := rfind_from c s 0 (-1).

Fixpoint all_dots (s : string) : bool :=
  match s with
  | EmptyString => true
  | String c s' => Ascii.eqb c "." && all_dots s'
  end.

(** [os.path.splitext(p)] on a POSIX path: the extension starts at the
    last dot of the last component, leading dots of that component apart. *)
Definition splitext (p : string) : string * string :=
  let sepIndex := rfind "/" p in
  let dotIndex := rfind "." p in
  if (sepIndex <? dotIndex) && negb (all_dots (str_slice p (sepIndex + 1) dotIndex))
  then (str_to p dotIndex, str_from p dotIndex)
  else (p, EmptyString).

(** [a * b] on floats. *)
Definition fmul (a b : Q) : Q := round64 (a * b).

(** [isinstance(e, OSError)]: [FileNotFoundError] and [ConnectionError]
    are subclasses of [OSError], and so is [requests.RequestException]. *)
Definition is_OSError (e : exn) : bool :=
  match exn_cls e with
  | OSError | FileNotFoundError | ConnectionError | RequestException => true
  | _ => false
  end.

End PyLib.
Import PyLib.

(* ================================================================== *)
(** * core/audio_processor.py: the duration without FFmpeg *)
(* ================================================================== *)

Module DurationFallback.
Section WithEnv.
Variable E : env.

(** Lines 127-136 of [get_duration_fallback]: the estimate from the file
    size, at 128 kbps whatever the extension. *)
Definition size_estimate (audio_path : string) : M Q :=
  match getsize E audio_path with
  | Ok file_size =>
      (* Rough estimation: assume 128kbps bitrate *)
      let estimated_duration := (inject_Z (file_size * 8) / inject_Z (128 * 1000))%Q in
      log WARNING (Seconds "Using estimated duration: " estimated_duration
                           " seconds (based on file size)") ;;
      ret estimated_duration
  | Raise e =>
      log ERROR (Text ("All duration methods failed: " ++ str e)) ;;
      raise (mk_exn RuntimeError
        "Cannot determine audio duration - FFmpeg is required for accurate audio processing")
  end.

(** [AudioProcessor.get_duration_fallback(audio_path)] *)
Definition get_duration_fallback (audio_path : string) : M Q :=
  log INFO (Text ("Getting duration using fallback method for " ++ audio_path)) ;;
  (* Try using wave module for WAV files *)
  if endswith (lower audio_path) ".wav" then
    match wav_duration E audio_path with
    | Ok duration =>
        log INFO (Seconds "WAV duration: " duration " seconds") ;;
        ret duration
    | Raise e =>
        log WARNING (Text ("WAV fallback failed: " ++ str e)) ;;
        size_estimate audio_path
    end
  else size_estimate audio_path.

End WithEnv.
End DurationFallback.
Import DurationFallback.

(* ================================================================== *)
(** * core/openai_generator.py: cost estimate and character reference *)
(* ================================================================== *)

Module Pricing.

(** The dictionary [pricing] of [estimate_cost]. *)
Definition pricing : list (string * list (string * Q)) :=
  [ ("standard", [ ("1024x1024", 40 # 1000);
                   ("1024x1792", 80 # 1000);
                   ("1792x1024", 80 # 1000) ]);
    ("hd", [ ("1024x1024", 80 # 1000);
             ("1024x1792", 120 # 1000);
             ("1792x1024", 120 # 1000) ]) ].

(** The dictionary [estimate_cost] returns. *)
Record cost_estimate : Type := mk_cost_estimate {
  cost_per_image : Q;
  total_cost : Q;
  num_images : Z;
  quality : string
}.

(** [OpenAIImageGenerator.estimate_cost(num_images, quality)] *)
Definition estimate_cost (num_images : Z) (quality : string) : cost_estimate :=
  let cost_per_image :=
    get_default (get_default pricing quality []) "1024x1024" (40 # 1000) in
  let total_cost := (inject_Z num_images * cost_per_image)%Q in
  mk_cost_estimate cost_per_image total_cost num_images quality.

(** [AIVideoTool._update_cost_estimate] and [AIVideoTool.generate_images]:
    [count * 0.04]. *)
Definition window_cost (count : Z) : Q := (inject_Z count * (4 # 100))%Q.

End Pricing.
Import Pricing.

Module CharacterReference.

(** The prompt of [generate_character_reference]. *)
Definition reference_prompt (character_desc style : string) : string :=
  ("Create a character reference sheet in " ++ lower style ++ " style." ++ nl
   ++ "        " ++ nl
   ++ "Character: " ++ character_desc ++ nl
   ++ nl
   ++ "Show the character in a neutral pose, full body visible, facing forward." ++ nl
   ++ "Clear details of face, clothing, and distinguishing features." ++ nl
   ++ "White or simple background." ++ nl
   ++ "Reference sheet style suitable for maintaining consistency.")%string.

(** [OpenAIImageGenerator.generate_character_reference(character_desc,
    style, output_dir)] *)
Definition generate_character_reference (E : env)
           (character_desc style output_dir : string) : M string :=
  let prompt := reference_prompt character_desc style in
  generate_and_save_image E prompt output_dir "character_reference" style
                          default_max_retries.

End CharacterReference.
Import CharacterReference.

(* ================================================================== *)
(** * ai_video_tool_openai.py: the main window's tables *)
(* ================================================================== *)

Module MainWindow.

(** The items of the [image_style] combo box, lines 355-364. *)
Definition image_styles : list string :=
  [ "Photorealistic"; "Cinematic"; "Anime/Manga"; "3D Render";
    "Oil Painting"; "Watercolor"; "Comic Book"; "Digital Art" ].

End MainWindow.
Import MainWindow.

(* ================================================================== *)
(** * Vocabulary of the further statements *)
(* ================================================================== *)

(** The calls into the image service, the network and the encoder, in
    order. *)
Definition externals (tr : list event) : list event := filter is_external tr.

(** A computation that makes no such call: it only adds events, none of
    them external, and leaves the generator's state alone. *)
Definition quiet {A} (m : M A) : Prop :=
  forall w, exists evs, snd (m w) = add_events w evs /\ externals evs = [].

(** The URLs of the GET requests, and the seconds slept between them. *)
Fixpoint get_requests (tr : list event) : list string :=
  match tr with
  | [] => []
  | EvRequestsGet url :: tr' => url :: get_requests tr'
  | _ :: tr' => get_requests tr'
  end.

Fixpoint download_delays (tr : list event) : list Z :=
  match tr with
  | [] => []
  | EvSleep DownloadRetry s :: tr' => s :: download_delays tr'
  | _ :: tr' => download_delays tr'
  end.

(** The video files handed to the encoder, with their durations. *)
Fixpoint videofiles (tr : list event) : list (string * option Q) :=
  match tr with
  | [] => []
  | EvWriteVideofile file d _ :: tr' => (file, d) :: videofiles tr'
  | _ :: tr' => videofiles tr'
  end.


(** More collaborators for the examples: a machine on which no file
    exists. *)
Definition missing_file_env : env :=
  mk_env (Some "sk-test")
         (fun _ => false)
         (fun p => Raise (mk_exn FileNotFoundError ("No such file or directory: " ++ p)))
         (fun p => Raise (mk_exn FileNotFoundError ("No such file or directory: " ++ p)))
         (fun _ => Ok tt)
         (fun p => p)
         false
         (fun _ => Raise (mk_exn FileNotFoundError "No such file or directory"))
         (fun _ => Raise (mk_exn OSError "ffmpeg not found"))
         (fun _ => Ok tt)
         always_ok
         (fun _ _ _ => Ok "image/png")
         (fun _ _ => Ok tt)
         (fun _ => 1700000000)
         (fun _ => Raise (mk_exn OSError "file not found"))
         (fun _ => Ok (1024, 1024))
         (fun _ => false)
         (fun k _ => Z.of_nat k)
         (fun _ => Ok tt).




(* ================================================================== *)
(** * Processes and audio editing, as calls *)
(* ================================================================== *)

(** The editing methods of [AudioProcessor] start processes and edit audio
    with pydub. What they do is the list of the calls they make, oldest
    first. *)
Module Machine.

(** A pydub [AudioSegment], as the expression that built it. *)
Inductive segment : Type :=
| Loaded (file : string)                       (* AudioSegment.from_file(file) *)
| Slice (s : segment) (start_ms end_ms : Z)    (* s[start_ms:end_ms] *)
| ApplyGain (s : segment) (dB : Q)             (* s.apply_gain(dB) *)
| FadeIn (s : segment) (ms : Z)                (* s.fade_in(ms) *)
| FadeOut (s : segment) (ms : Z)               (* s.fade_out(ms) *)
| Silence                                      (* AudioSegment.empty() *)
| Plus (a b : segment).                        (* a + b *)

(** The parts of a formatted line: text, or a float. *)
Inductive piece : Type :=
| Lit (s : string)
| Num (x : Q).

(** How a process started by [subprocess.run] ends. *)
Inductive process_outcome : Type :=
| Completed (returncode : Z) (stdout stderr : string)
| Failed (e : exn).

Inductive call : Type :=
| Logged (l : level) (m : list piece)                 (* logger.info / warning / error *)
| Run (cmd : list string)                             (* subprocess.run(cmd, ...) *)
| FromFile (file : string)                            (* AudioSegment.from_file(file) *)
| Export (s : segment) (out format bitrate : string). (* s.export(out, format=, bitrate=) *)

Definition machine : Type := list call.

Definition fresh_machine : machine := [].

(** State-and-exception monad over the calls made. *)
Definition Act (A : Type) : Type := machine -> result A * machine.

Definition done {A} (a : A) : Act A := fun m => (Ok a, m).

Definition andthen {A B} (c : Act A) (k : A -> Act B) : Act B :=
  fun m =>
    match c m with
    | (Ok a, m') => k a m'
    | (Raise e, m') => (Raise e, m')
    end.

Definition throw {A} (e : exn) : Act A := fun m => (Raise e, m).

Definition answer {A} (r : result A) : Act A := fun m => (r, m).

(** More calls. *)
Definition add_calls (m : machine) (cs : list call) : machine := m ++ cs.

Definition record (c : call) : Act unit := fun m => (Ok tt, add_calls m [c]).

Definition logged (l : level) (m : list piece) : Act unit := record (Logged l m).

(** The collaborators of these methods. *)
Record tools : Type := mk_tools {
  (* subprocess.run with a timeout; None is TimeoutExpired *)
  subprocess_run_timeout : list string -> option process_outcome;
  (* pydub *)
  audio_dBFS : string -> Q;                        (* audio.dBFS of a loaded file *)
  export_result : string -> result unit            (* segment.export(out, ...) *)
}.

End Machine.
Import Machine.

Declare Scope act_scope.
Delimit Scope act_scope with act.
Notation "x <- c1 ;; c2" := (andthen c1 (fun x => c2))
  (at level 61, c1 at next level, right associativity) : act_scope.
Notation "c1 ;; c2" := (andthen c1 (fun _ => c2))
  (at level 61, right associativity) : act_scope.


(* ================================================================== *)
(** * core/audio_processor.py: FFmpeg probe and audio editing *)
(* ================================================================== *)

Module AudioEditing.
Local Open Scope act_scope.

(** The list [possible_paths] of [_check_ffmpeg_availability]. *)
Definition possible_paths : list string :=
  [ "ffmpeg";
    "ffmpeg.exe";
    "C:\ffmpeg\bin\ffmpeg.exe";
    "C:\Program Files\ffmpeg\bin\ffmpeg.exe";
    "C:\Program Files (x86)\ffmpeg\bin\ffmpeg.exe" ].

(** The message of every guard on [ffmpeg_available]. *)
Definition not_available : exn :=
  mk_exn RuntimeError "Audio processing not available - FFmpeg may not be installed".

Section WithEnv.
Variable E : env.
Variable T : tools.

(** The loop of [_check_ffmpeg_availability]: a probe that times out or
    raises an [OSError] is passed over, one that returns a non-zero code
    too. *)
Fixpoint probe (paths : list string) : Act bool :=
  match paths with
  | [] =>
      logged WARNING [Lit "FFmpeg not found in system PATH"] ;;
      done false
  | path :: rest =>
      record (Run [path; "-version"]) ;;
      match subprocess_run_timeout T [path; "-version"] with
      | Some (Completed returncode _ _) =>
          if returncode =? 0 then
            logged INFO [Lit ("Found FFmpeg at: " ++ path)] ;;
            done true
          else probe rest
      | None => probe rest                                   (* TimeoutExpired *)
      | Some (Failed e) => if is_OSError e then probe rest else throw e
      end
  end.

(** [AudioProcessor._check_ffmpeg_availability()] *)
Definition _check_ffmpeg_availability : Act bool := probe possible_paths.

(** [self.AudioSegment.from_file(audio_path)]: the audio, and its length
    in milliseconds. *)
Definition from_file (audio_path : string) : Act (segment * Z) :=
  record (FromFile audio_path) ;;
  length_ms <- answer (AudioSegment_from_file E audio_path) ;;
  done (Loaded audio_path, length_ms).

(** [s.export(out, format=..., bitrate="192k")] *)
Definition export (s : segment) (out format : string) : Act unit :=
  record (Export s out format "192k") ;;
  answer (export_result T out).

(** [timestamps[i]] *)
Definition getitem (timestamps : list Q) (i : Z) : Act Q :=
  match index timestamps i with
  | Some t => done t
  | None => throw (mk_exn Exception "list index out of range")
  end.

(** The loop of [split_audio], lines 167-183; [todo] is what is left of
    [range(len(timestamps))]. *)
Fixpoint split_loop (audio : segment) (audio_len : Z) (timestamps : list Q)
         (output_dir : string) (todo : list Z) (output_paths : list string)
  : Act (list string) :=
  match todo with
  | [] => done output_paths
  | i :: rest =>
      t <- getitem timestamps i ;;
      let start_time := int_of_Q (fmul t 1000) in  (* Convert to milliseconds *)
      end_time <- (if i <? len timestamps - 1 then
                     t' <- getitem timestamps (i + 1) ;;
                     done (int_of_Q (fmul t' 1000))
                   else done audio_len) ;;
      (* Extract segment *)
      let segment := Slice audio start_time end_time in
      (* Save segment *)
      let output_path :=
        path_join output_dir ("segment_" ++ format_03d (i + 1) ++ ".mp3") in
      export segment output_path "mp3" ;;
      logged INFO [Lit ("Created segment " ++ str_int (i + 1) ++ ": ");
                   Num (inject_Z start_time / 1000); Lit "s - ";
                   Num (inject_Z end_time / 1000); Lit "s"] ;;
      split_loop audio audio_len timestamps output_dir rest (output_paths ++ [output_path])
  end.

(** [AudioProcessor.split_audio(audio_path, timestamps, output_dir)] *)
Definition split_audio (audio_path : string) (timestamps : list Q) (output_dir : string)
  : Act (list string) :=
  if negb (ffmpeg_available E) then
    logged ERROR [Lit "FFmpeg not available - cannot split audio"] ;;
    throw not_available
  else
    logged INFO [Lit ("Splitting audio into " ++ str_int (len timestamps) ++ " segments")] ;;
    audio <- from_file audio_path ;;
    split_loop (fst audio) (snd audio) timestamps output_dir (range (len timestamps)) [].

(** [AudioProcessor.normalize_audio(audio_path, target_dBFS)] *)
Definition normalize_audio (audio_path : string) (target_dBFS : Q) : Act string :=
  if negb (ffmpeg_available E) then
    logged ERROR [Lit "FFmpeg not available - cannot normalize audio"] ;;
    throw not_available
  else
    logged INFO [Lit "Normalizing audio to "; Num target_dBFS; Lit " dBFS"] ;;
    audio <- from_file audio_path ;;
    (* Calculate normalization needed *)
    let change_in_dBFS := fsub target_dBFS (audio_dBFS T audio_path) in
    (* Apply normalization *)
    let normalized := ApplyGain (fst audio) change_in_dBFS in
    (* Save normalized audio *)
    let (base, ext) := splitext audio_path in
    let output_path := (base ++ "_normalized" ++ ext)%string in
    export normalized output_path (str_from ext 1) ;;
    logged INFO [Lit ("Normalized audio saved to: " ++ output_path)] ;;
    done output_path.

(** The loop of [combine_audio_files]. *)
Fixpoint combine_loop (audio_paths : list string) (combined : segment) : Act segment :=
  match audio_paths with
  | [] => done combined
  | path :: rest =>
      audio <- from_file path ;;
      combine_loop rest (Plus combined (fst audio))
  end.

(** [AudioProcessor.combine_audio_files(audio_paths, output_path)] *)
Definition combine_audio_files (audio_paths : list string) (output_path : string)
  : Act unit :=
  if negb (ffmpeg_available E) then
    logged ERROR [Lit "FFmpeg not available - cannot combine audio files"] ;;
    throw not_available
  else
    logged INFO [Lit ("Combining " ++ str_int (len audio_paths) ++ " audio files")] ;;
    combined <- combine_loop audio_paths Silence ;;
    (* Export combined audio *)
    export combined output_path "mp3" ;;
    logged INFO [Lit ("Combined audio saved to: " ++ output_path)].

(** [AudioProcessor.add_fade_effects(audio_path, fade_in_ms, fade_out_ms)] *)
Definition add_fade_effects (audio_path : string) (fade_in_ms fade_out_ms : Z)
  : Act string :=
  if negb (ffmpeg_available E) then
    logged ERROR [Lit "FFmpeg not available - cannot add fade effects"] ;;
    throw not_available
  else
    logged INFO [Lit ("Adding fade effects: in=" ++ str_int fade_in_ms ++ "ms, out="
                        ++ str_int fade_out_ms ++ "ms")] ;;
    audio <- from_file audio_path ;;
    (* Apply fades *)
    let audio := FadeOut (FadeIn (fst audio) fade_in_ms) fade_out_ms in
    (* Save *)
    let (base, ext) := splitext audio_path in
    let output_path := (base ++ "_faded" ++ ext)%string in
    export audio output_path (str_from ext 1) ;;
    logged INFO [Lit ("Audio with fades saved to: " ++ output_path)] ;;
    done output_path.

End WithEnv.

(** The audio files a trace has opened, and the exports it has asked
    for. *)
Fixpoint opened (cs : list call) : list string :=
  match cs with
  | [] => []
  | FromFile file :: cs' => file :: opened cs'
  | _ :: cs' => opened cs'
  end.

Fixpoint exported (cs : list call) : list (segment * string * string) :=
  match cs with
  | [] => []
  | Export s out format _ :: cs' => (s, out, format) :: exported cs'
  | _ :: cs' => exported cs'
  end.

(** The commands a trace has run. *)
Fixpoint commands (cs : list call) : list (list string) :=
  match cs with
  | [] => []
  | Run cmd :: cs' => cmd :: commands cs'
  | _ :: cs' => commands cs'
  end.

End AudioEditing.


(* ================================================================== *)
(** * Vocabulary of the statements about the machine *)
(* ================================================================== *)

Import AudioEditing.

(** A list up to and including its first element that satisfies [f]. *)
Fixpoint through {A} (f : A -> bool) (l : list A) : list A :=
  match l with
  | [] => []
  | x :: l' => x :: (if f x then [] else through f l')
  end.

(** A candidate path that runs and exits with code 0; one whose probe
    raises an exception the loop does not catch. *)
Definition works (T : tools) (path : string) : bool :=
  match subprocess_run_timeout T [path; "-version"] with
  | Some (Completed returncode _ _) => returncode =? 0
  | _ => false
  end.

Definition escapes (T : tools) (path : string) : bool :=
  match subprocess_run_timeout T [path; "-version"] with
  | Some (Failed e) => negb (is_OSError e)
  | _ => false
  end.

(** The file of the segment of index [i]. *)
Definition segment_file (output_dir : string) (i : Z) : string :=
  path_join output_dir ("segment_" ++ format_03d (i + 1) ++ ".mp3").

(** Milliseconds of a timestamp. *)
Definition milliseconds (t : Q) : Z := int_of_Q (fmul t 1000).

(** A machine on which only [ffmpeg.exe] answers: [ffmpeg] is not found
    and the other candidates time out. Exports succeed. *)
Definition windows_tools : tools :=
  mk_tools (fun cmd =>
              match cmd with
              | ["ffmpeg"; _] => Some (Failed (mk_exn FileNotFoundError "ffmpeg"))
              | ["ffmpeg.exe"; _] => Some (Completed 0 "ffmpeg version 6.0" "")
              | _ => None
              end)
           (fun _ => (-23)%Q)
           (fun _ => Ok tt).

(** A machine with FFmpeg on which every audio file lasts 10 s, except
    [missing.mp3], which does not exist. *)
Definition ffmpeg_env : env :=
  mk_env (Some "sk-test")
         (fun _ => true)
         (fun _ => Ok 160000)
         (fun _ => Ok "one two three four five six seven eight nine ten")
         (fun _ => Ok tt)
         (fun p => p)
         true
         (fun _ => Raise (mk_exn OSError "not a RIFF file"))
         (fun p => if String.eqb p "missing.mp3"
                   then Raise (mk_exn FileNotFoundError "missing.mp3")
                   else Ok 10000)
         (fun _ => Ok tt)
         always_ok
         (fun _ _ _ => Ok "image/png")
         (fun _ _ => Ok tt)
         (fun _ => 1700000000)
         (fun _ => Ok 10%Q)
         (fun _ => Ok (1024, 1024))
         (fun _ => false)
         (fun k _ => Z.of_nat k)
         (fun _ => Ok tt).

(** The files of [paths] before position [k] can all be read. *)
Definition readable_before (E : env) (paths : list string) (k : nat) : Prop :=
  forall j q, (j < k)%nat -> nth_error paths j = Some q ->
              is_ok (AudioSegment_from_file E q) = true.

(* ================================================================== *)
(** * Running computations *)
(* ================================================================== *)

Section MonadFacts.

Lemma bind_ok {A B} (m : M A) (k : A -> M B) (w w1 : world) (a : A) :
  m w = (Ok a, w1) -> bind m k w = k a w1.
Proof. intros H. unfold bind. now rewrite H. Qed.

Lemma bind_raise {A B} (m : M A) (k : A -> M B) (w w1 : world) (e : exn) :
  m w = (Raise e, w1) -> bind m k w = (Raise e, w1).
Proof. intros H. unfold bind. now rewrite H. Qed.

Lemma bind_fst_ok {A B} (m : M A) (k : A -> M B) (w : world) (a : A) :
  fst (m w) = Ok a -> bind m k w = k a (snd (m w)).
Proof. intros H. unfold bind. destruct (m w) as [r w1]. simpl in H. now subst r. Qed.

Lemma bind_fst_raise {A B} (m : M A) (k : A -> M B) (w : world) (e : exn) :
  fst (m w) = Raise e -> bind m k w = (Raise e, snd (m w)).
Proof. intros H. unfold bind. destruct (m w) as [r w1]. simpl in H. now subst r. Qed.

Lemma bind_ret {A B} (a : A) (k : A -> M B) (w : world) :
  bind (ret a) k w = k a w.
Proof. reflexivity. Qed.

Lemma bind_assoc {A B C} (m : M A) (k : A -> M B) (h : B -> M C) (w : world) :
  bind (bind m k) h w = bind m (fun a => bind (k a) h) w.
Proof. unfold bind. destruct (m w) as [[a|e] w1]; reflexivity. Qed.

Lemma bind_emit {B} (e : event) (k : unit -> M B) (w : world) :
  bind (emit e) k w
  = k tt (mk_world (trace w ++ [e]) (api_calls w) (generation_history w)).
Proof. reflexivity. Qed.

Lemma bind_status {B} (t : text) (k : unit -> M B) (w : world) :
  bind (status t) k w
  = k tt (mk_world (trace w ++ [EvStatus t]) (api_calls w) (generation_history w)).
Proof. reflexivity. Qed.

Lemma bind_log {B} (l : level) (t : text) (k : unit -> M B) (w : world) :
  bind (log l t) k w
  = k tt (mk_world (trace w ++ [EvLog l t]) (api_calls w) (generation_history w)).
Proof. reflexivity. Qed.

Lemma bind_sleep {B} (site : sleep_site) (s : Z) (k : unit -> M B) (w : world) :
  bind (sleep site s) k w
  = k tt (mk_world (trace w ++ [EvSleep site s]) (api_calls w)
                   (generation_history w)).
Proof. reflexivity. Qed.

Lemma bind_lift_ok {A B} (a : A) (k : A -> M B) (w : world) :
  bind (lift (Ok a)) k w = k a w.
Proof. reflexivity. Qed.

Lemma bind_lift_raise {A B} (e : exn) (k : A -> M B) (w : world) :
  bind (lift (Raise e)) k w = (Raise e, w).
Proof. reflexivity. Qed.

End MonadFacts.

(* ================================================================== *)
(** * Facts about the Python built-ins *)
(* ================================================================== *)

Section PyFacts.

Lemma fold_left_snoc {A B} (f : A -> B) (l : list A) (init : list B) :
  fold_left (fun acc i => acc ++ [f i]) l init = init ++ map f l.
Proof.
  revert init; induction l as [|x l IH]; intros init; simpl.
  - now rewrite app_nil_r.
  - rewrite IH, <- app_assoc. reflexivity.
Qed.

Lemma len_nonneg {A} (l : list A) : 0 <= len l.
Proof. unfold len; lia. Qed.

Lemma range_length (n : Z) : List.length (range n) = Z.to_nat n.
Proof. unfold range. now rewrite length_map, length_seq. Qed.

Lemma range_nth_error (n : Z) (i : nat) :
  (i < Z.to_nat n)%nat -> nth_error (range n) i = Some (Z.of_nat i).
Proof.
  intros Hi. unfold range.
  rewrite nth_error_map, nth_error_seq.
  destruct (Nat.ltb_spec i (Z.to_nat n)); [reflexivity | lia].
Qed.

Lemma clip_index_id (n i : Z) : 0 <= i <= n -> clip_index n i = i.
Proof.
  intros H. unfold clip_index.
  destruct (Z.ltb_spec i 0); lia.
Qed.

Lemma slice_firstn_skipn {A} (l : list A) (a b : Z) :
  0 <= a <= b -> b <= len l ->
  slice l a b = firstn (Z.to_nat (b - a)) (skipn (Z.to_nat a) l).
Proof.
  intros Hab Hb. unfold slice.
  rewrite !clip_index_id by lia. reflexivity.
Qed.

Lemma slice_from_skipn {A} (l : list A) (a : Z) :
  0 <= a <= len l -> slice_from l a = skipn (Z.to_nat a) l.
Proof.
  intros Ha. unfold slice_from. now rewrite clip_index_id.
Qed.

Lemma append_nil_r (s : string) : (s ++ "")%string = s.
Proof. induction s; simpl; congruence. Qed.

Lemma append_assoc (a b c : string) : ((a ++ b) ++ c)%string = (a ++ (b ++ c))%string.
Proof. induction a; simpl; congruence. Qed.

Lemma no_space_app (a b : string) :
  no_space (a ++ b) = no_space a && no_space b.
Proof.
  induction a as [|c a IH]; simpl; [reflexivity|].
  now rewrite IH, andb_assoc.
Qed.

Lemma split_aux_words (s cur : string) :
  no_space cur = true -> Forall (fun w => is_word w = true) (split_aux cur s).
Proof.
  revert cur; induction s as [|c s IH]; intros cur Hcur; simpl.
  - destruct cur; [constructor|]. constructor; [exact Hcur | constructor].
  - destruct (isspace c) eqn:Hc.
    + destruct cur; [now apply IH|].
      constructor; [exact Hcur | now apply IH].
    + apply IH. rewrite no_space_app, Hcur. simpl. now rewrite Hc.
Qed.

Lemma split_words (s : string) : Forall (fun w => is_word w = true) (split s).
Proof. now apply split_aux_words. Qed.

Lemma split_aux_run (w s cur : string) :
  no_space w = true -> split_aux cur (w ++ s) = split_aux (cur ++ w) s.
Proof.
  revert cur; induction w as [|c w IH]; intros cur Hw; simpl.
  - now rewrite append_nil_r.
  - simpl in Hw. apply andb_prop in Hw as [Hc Hw].
    apply negb_true_iff in Hc. rewrite Hc, IH by assumption.
    now rewrite append_assoc.
Qed.

Lemma split_join (ws : list string) :
  Forall (fun w => is_word w = true) ws -> split (join " " ws) = ws.
Proof.
  unfold split. induction ws as [|w ws IH]; intros Hws; [reflexivity|].
  inversion Hws as [|? ? Hw Hws']; subst.
  assert (Hns : no_space w = true) by (destruct w; [discriminate | exact Hw]).
  destruct ws as [|w2 ws].
  - simpl. rewrite <- (append_nil_r w) at 1.
    rewrite split_aux_run by assumption. simpl.
    destruct w; [discriminate | reflexivity].
  - change (join " " (w :: w2 :: ws)) with (w ++ " " ++ join " " (w2 :: ws))%string.
    rewrite split_aux_run by assumption. simpl.
    destruct w; [discriminate|]. simpl. f_equal. now apply IH.
Qed.

Lemma Forall_firstn {A} (P : A -> Prop) (l : list A) (n : nat) :
  Forall P l -> Forall P (firstn n l).
Proof.
  intros H; revert n; induction H; intros [|n]; simpl; constructor; auto.
Qed.

Lemma Forall_skipn {A} (P : A -> Prop) (l : list A) (n : nat) :
  Forall P l -> Forall P (skipn n l).
Proof.
  intros H; revert n; induction H; intros [|n]; simpl; auto.
Qed.

(** Splitting the joined text of a run of words gives the run back. *)
Lemma split_join_chunk (words : list string) (a b : nat) :
  Forall (fun w => is_word w = true) words ->
  split (join " " (firstn b (skipn a words))) = firstn b (skipn a words).
Proof.
  intros H. apply split_join, Forall_firstn, Forall_skipn, H.
Qed.

Lemma split_join_tail (words : list string) (a : nat) :
  Forall (fun w => is_word w = true) words ->
  split (join " " (skipn a words)) = skipn a words.
Proof.
  intros H. apply split_join, Forall_skipn, H.
Qed.

(** Consecutive chunks of [q] elements rebuild a prefix. *)
Lemma concat_chunks {A} (l : list A) (q m : nat) :
  List.concat (map (fun i => firstn q (skipn (i * q) l)) (seq 0 m)) = firstn (m * q) l.
Proof.
  induction m as [|m IH]; [reflexivity|].
  rewrite seq_S, map_app, concat_app, IH. simpl.
  rewrite app_nil_r.
  rewrite <- (firstn_skipn (m * q) (firstn (q + m * q) l)).
  rewrite firstn_firstn, Nat.min_l by lia.
  f_equal. rewrite skipn_firstn_comm. f_equal. lia.
Qed.

End PyFacts.

(* ================================================================== *)
(** * Script splitting *)
(* ================================================================== *)

Section SplitScript.

Variable script : string.
Let words := split script.

Lemma split_script_eq (n : Z) :
  n <> 0 ->
  _split_script script n = Ok (map (segment_at words n (len words / n)) (range n)).
Proof.
  intros Hn. unfold _split_script.
  destruct (Z.eqb_spec n 0) as [|_]; [contradiction|].
  now rewrite fold_left_snoc.
Qed.

Lemma chunk_bounds (n i : Z) :
  1 <= n -> 0 <= i < n ->
  0 <= i * (len words / n) /\ i * (len words / n) + len words / n <= len words.
Proof.
  intros Hn Hi.
  pose proof (len_nonneg words) as HL.
  pose proof (Z.div_pos (len words) n HL ltac:(lia)) as Hq.
  pose proof (Z.mul_div_le (len words) n ltac:(lia)) as Hnq.
  split; [apply Z.mul_nonneg_nonneg; lia|]. nia.
Qed.

(** The words of a segment before the last one. *)
Lemma split_inner_segment (n i : Z) :
  1 <= n -> 0 <= i < n - 1 ->
  split (segment_at words n (len words / n) i)
  = firstn (Z.to_nat (len words / n))
           (skipn (Z.to_nat i * Z.to_nat (len words / n)) words).
Proof.
  intros Hn Hi. unfold segment_at.
  destruct (Z.eqb_spec i (n - 1)) as [|_]; [lia|].
  destruct (chunk_bounds n i) as [H0 H1]; [lia | lia |].
  pose proof (len_nonneg words) as HL.
  pose proof (Z.div_pos (len words) n HL ltac:(lia)) as Hq.
  rewrite slice_firstn_skipn by lia.
  replace (i * (len words / n) + len words / n - i * (len words / n))
    with (len words / n) by lia.
  rewrite Z2Nat.inj_mul by lia.
  apply split_join_chunk, split_words.
Qed.

(** The words of the last segment. *)
Lemma split_last_segment (n : Z) :
  1 <= n ->
  split (segment_at words n (len words / n) (n - 1))
  = skipn (Z.to_nat (n - 1) * Z.to_nat (len words / n)) words.
Proof.
  intros Hn. unfold segment_at. rewrite Z.eqb_refl.
  destruct (chunk_bounds n (n - 1)) as [H0 H1]; [lia | lia |].
  pose proof (len_nonneg words) as HL.
  pose proof (Z.div_pos (len words) n HL ltac:(lia)) as Hq.
  rewrite slice_from_skipn by lia.
  rewrite Z2Nat.inj_mul by lia.
  apply split_join_tail, split_words.
Qed.

(** The segments, read back as words, are the consecutive chunks. *)
Lemma split_segments (n : Z) :
  1 <= n ->
  map split (map (segment_at words n (len words / n)) (range n))
  = map (fun i => firstn (Z.to_nat (len words / n))
                         (skipn (i * Z.to_nat (len words / n)) words))
        (seq 0 (Z.to_nat (n - 1)))
    ++ [skipn (Z.to_nat (n - 1) * Z.to_nat (len words / n)) words].
Proof.
  intros Hn. unfold range.
  replace (Z.to_nat n) with (S (Z.to_nat (n - 1))) by lia.
  rewrite seq_S, !map_app, !map_map. simpl. f_equal.
  - apply map_ext_in. intros i Hi. apply in_seq in Hi.
    rewrite split_inner_segment by lia. now rewrite Nat2Z.id.
  - rewrite Z2Nat.id by lia. now rewrite split_last_segment.
Qed.

Lemma segments_words (n : Z) :
  1 <= n ->
  List.concat (map split (map (segment_at words n (len words / n)) (range n)))
  = words.
Proof.
  intros Hn. rewrite split_segments by assumption.
  rewrite concat_app, concat_chunks. simpl. rewrite app_nil_r.
  apply firstn_skipn.
Qed.

Lemma index_segment {A} (n i : Z) (f : Z -> A) :
  0 <= i < n -> index (map f (range n)) i = Some (f i).
Proof.
  intros Hi. unfold index. cbv zeta.
  destruct (Z.ltb_spec i 0); [lia|].
  destruct (Z.ltb_spec i 0); [lia|].
  rewrite nth_error_map, range_nth_error by lia.
  simpl. now rewrite Z2Nat.id by lia.
Qed.

Lemma segments_len {A} (n : Z) (f : Z -> A) :
  0 <= n -> len (map f (range n)) = n.
Proof.
  intros Hn. unfold len. rewrite length_map, range_length. lia.
Qed.

Lemma word_count_sum (segments : list string) :
  list_sum (map (fun seg => List.length (split seg)) segments)
  = List.length (List.concat (map split segments)).
Proof.
  rewrite length_concat, map_map. reflexivity.
Qed.

End SplitScript.

(** C4. For every text and every segment count [n] with
    [1 <= n <= number of words], [_split_script] returns exactly [n]
    contiguous chunks of the word sequence; every chunk but the last has
    exactly [floor(wordCount / n)] words, the last one takes all remaining
    words, and the word counts of the chunks add up to the word count of
    the text. *)
Theorem split_script_chunks (text : string) (n : Z) :
  1 <= n <= len (split text) ->
  exists segments,
    _split_script text n = Ok segments /\ chunks_of (split text) n segments.
Proof.
  intros [Hn HL].
  exists (map (segment_at (split text) n (len (split text) / n)) (range n)).
  split; [apply split_script_eq; lia|].
  pose proof (Z.div_pos (len (split text)) n ltac:(lia) ltac:(lia)) as Hq.
  unfold chunks_of; cbv zeta. repeat split.
  - apply segments_len; lia.
  - intros i Hi. eexists. split; [apply index_segment; lia|].
    destruct (chunk_bounds text n i) as [H0 H1]; [lia | lia |].
    rewrite split_inner_segment by lia.
    rewrite slice_firstn_skipn by lia.
    rewrite Z2Nat.inj_mul by lia.
    replace (i * (len (split text) / n) + len (split text) / n
             - i * (len (split text) / n)) with (len (split text) / n) by lia.
    split; [reflexivity|].
    unfold len at 1. rewrite length_firstn, length_skipn.
    rewrite <- Z2Nat.inj_mul by lia. unfold len in *. lia.
  - eexists. split; [apply index_segment; lia|].
    destruct (chunk_bounds text n (n - 1)) as [H0 H1]; [lia | lia |].
    rewrite split_last_segment by lia.
    rewrite slice_from_skipn by lia.
    now rewrite Z2Nat.inj_mul by lia.
  - apply segments_words; lia.
  - rewrite word_count_sum, segments_words by lia. reflexivity.
Qed.

Lemma split_script_chunks_witness :
  1 <= 2 <= len (split "the quick  brown fox jumps")
  /\ exists segments,
       _split_script "the quick  brown fox jumps" 2 = Ok segments
       /\ chunks_of (split "the quick  brown fox jumps") 2 segments.
Proof.
  assert (H : 1 <= 2 <= len (split "the quick  brown fox jumps"))
    by (vm_compute; split; discriminate).
  split; [exact H | exact (split_script_chunks "the quick  brown fox jumps" 2 H)].
Defined.

(** C10. For every [num_segments >= 1] strictly greater than the number of
    words, [_split_script] raises no error and returns exactly
    [num_segments] segments: [words_per_segment] is zero, every segment
    before the last one is the empty string, the last one is the whole word
    sequence; the total word count is preserved, and some returned segment
    is empty. *)
Theorem split_script_more_segments_than_words (text : string) (n : Z) :
  1 <= n -> len (split text) < n ->
  exists segments,
    _split_script text n = Ok segments
    /\ len segments = n
    /\ len (split text) / n = 0
    /\ (forall i, 0 <= i < n - 1 -> index segments i = Some "")
    /\ index segments (n - 1) = Some (join " " (split text))
    /\ split (join " " (split text)) = split text
    /\ list_sum (map (fun seg => List.length (split seg)) segments)
       = List.length (split text)
    /\ In "" segments.
Proof.
  intros Hn HL.
  pose proof (len_nonneg (split text)) as H0.
  assert (Hq : len (split text) / n = 0) by (apply Z.div_small; lia).
  exists (map (segment_at (split text) n (len (split text) / n)) (range n)).
  assert (Hinner : forall i, 0 <= i < n - 1 ->
            segment_at (split text) n (len (split text) / n) i = "").
  { intros i Hi. unfold segment_at. rewrite Hq.
    destruct (Z.eqb_spec i (n - 1)); [lia|].
    rewrite slice_firstn_skipn by lia.
    replace (i * 0 + 0 - i * 0) with 0 by lia. reflexivity. }
  assert (Hlast : segment_at (split text) n (len (split text) / n) (n - 1)
                  = join " " (split text)).
  { unfold segment_at. rewrite Hq, Z.eqb_refl.
    rewrite slice_from_skipn by lia.
    replace ((n - 1) * 0) with 0 by lia. reflexivity. }
  split; [apply split_script_eq; lia|].
  split; [apply segments_len; lia|].
  split; [exact Hq|].
  split; [intros i Hi; rewrite index_segment by lia; now rewrite Hinner|].
  split; [rewrite index_segment by lia; now rewrite Hlast|].
  split; [apply split_join, split_words|].
  split; [rewrite word_count_sum, segments_words by lia; reflexivity|].
  destruct (Z.eq_dec n 1) as [-> | Hn1].
  - apply in_map_iff. exists 0. split; [|now left].
    change (1 - 1) with 0 in Hlast. rewrite Hlast.
    destruct (split text); [reflexivity | unfold len in HL; simpl in HL; lia].
  - apply in_map_iff. exists 0. split; [apply Hinner; lia|].
    unfold range. replace (Z.to_nat n) with (S (Z.to_nat (n - 1))) by lia.
    now left.
Qed.

Lemma split_script_more_segments_than_words_witness :
  1 <= 3 /\ len (split "hello world") < 3
  /\ exists segments,
       _split_script "hello world" 3 = Ok segments
       /\ len segments = 3
       /\ len (split "hello world") / 3 = 0
       /\ (forall i, 0 <= i < 3 - 1 -> index segments i = Some "")
       /\ index segments (3 - 1) = Some (join " " (split "hello world"))
       /\ split (join " " (split "hello world")) = split "hello world"
       /\ list_sum (map (fun seg => List.length (split seg)) segments)
          = List.length (split "hello world")
       /\ In "" segments.
Proof.
  assert (H1 : 1 <= 3) by lia.
  assert (H2 : len (split "hello world") < 3) by (vm_compute; reflexivity).
  split; [exact H1|]. split; [exact H2|].
  exact (split_script_more_segments_than_words "hello world" 3 H1 H2).
Defined.

(** C7, as the code has it. [_split_script] has no empty-script check: on
    a text without words it raises nothing for a non-zero segment count and
    returns one empty segment per requested segment (none for a negative
    count); a count of zero raises ZeroDivisionError. *)
Theorem split_script_empty_text (text : string) (n : Z) :
  split text = [] ->
  _split_script text n
  = if n =? 0
    then Raise (mk_exn ZeroDivisionError "integer division or modulo by zero")
    else Ok (repeat "" (Z.to_nat n)).
Proof.
  intros Hw. unfold _split_script. rewrite Hw.
  destruct (Z.eqb_spec n 0) as [|Hn]; [reflexivity|].
  rewrite fold_left_snoc. simpl. f_equal.
  unfold range. rewrite map_map.
  generalize 0%nat.
  induction (Z.to_nat n) as [|k IH]; intros i; simpl; [reflexivity|].
  f_equal; [|apply IH].
  unfold segment_at, slice, slice_from.
  rewrite skipn_nil, firstn_nil.
  now destruct (Z.of_nat i =? n - 1).
Qed.

Lemma split_script_empty_text_witness :
  split " " = []
  /\ _split_script " " 3
     = if 3 =? 0
       then Raise (mk_exn ZeroDivisionError "integer division or modulo by zero")
       else Ok (repeat "" (Z.to_nat 3)).
Proof.
  assert (H : split " " = []) by reflexivity.
  split; [exact H | exact (split_script_empty_text " " 3 H)].
Defined.

(** C7 fails on the code: a text made of one space has no word, and
    splitting it into three segments returns three empty segments instead
    of failing. *)
Lemma split_script_empty_counterexample :
  split " " = [] /\ _split_script " " 3 = Ok [""; ""; ""].
Proof. split; reflexivity. Qed.

(* ================================================================== *)
(** * Timestamps *)
(* ================================================================== *)

Section Timestamps.

Lemma Qdiv_pos (a : Q) (n : Z) : (0 < a)%Q -> 0 < n -> (0 < a / inject_Z n)%Q.
Proof.
  intros Ha Hn. apply Qlt_shift_div_l.
  - change 0%Q with (inject_Z 0). now rewrite <- Zlt_Qlt.
  - now rewrite Qmult_0_l.
Qed.

Lemma generate_timestamps_eq (total_duration : Q) (n : Z) (w : world) :
  0 < n ->
  generate_timestamps total_duration n w
  = (Ok (map (fun i => (inject_Z i * (total_duration / inject_Z n))%Q) (range n)),
     mk_world
       (trace w ++ [EvLog INFO (Seconds ("Generated " ++ str_int n ++ " timestamps for ")
                                        total_duration "s audio")])
       (api_calls w) (generation_history w)).
Proof.
  intros Hn. unfold generate_timestamps.
  destruct (Z.leb_spec n 0); [lia|].
  rewrite fold_left_snoc. reflexivity.
Qed.

End Timestamps.

(** C3. For a positive total duration and a positive segment count,
    [generate_timestamps] returns exactly [segmentCount] timestamps, with
    [timestamps[i] = i * (totalDuration / segmentCount)] at every index,
    the first one equal to 0, non-decreasing, consecutive ones
    [totalDuration / segmentCount] apart; for a segment count of zero or
    less it raises the ValueError that rejects the count. *)
Theorem generate_timestamps_plan (total_duration : Q) (n : Z) (w : world) :
  (n <= 0 ->
   generate_timestamps total_duration n w
   = (Raise (mk_exn ValueError "Number of segments must be positive"), w))
  /\ ((0 < total_duration)%Q -> 0 < n ->
      exists timestamps w',
        generate_timestamps total_duration n w = (Ok timestamps, w')
        /\ len timestamps = n
        /\ (forall i, 0 <= i < n ->
              index timestamps i
              = Some (inject_Z i * (total_duration / inject_Z n))%Q)
        /\ (exists t0, index timestamps 0 = Some t0 /\ (t0 == 0)%Q)
        /\ (forall i t t',
              0 <= i ->
              index timestamps i = Some t -> index timestamps (i + 1) = Some t' ->
              (t <= t')%Q /\ (t' - t == total_duration / inject_Z n)%Q)).
Proof.
  split.
  - intros Hn. unfold generate_timestamps.
    destruct (Z.leb_spec n 0); [reflexivity | lia].
  - intros Ht Hn.
    pose proof (Qdiv_pos total_duration n Ht Hn) as Hd.
    set (d := (total_duration / inject_Z n)%Q) in *.
    eexists. eexists. split; [apply generate_timestamps_eq; exact Hn|].
    fold d.
    split; [apply segments_len; lia|].
    split; [intros i Hi;
            now apply (index_segment n i (fun i => (inject_Z i * d)%Q))|].
    split.
    + eexists.
      split; [apply (index_segment n 0 (fun i => (inject_Z i * d)%Q)); lia|].
      apply Qmult_0_l.
    + intros i t t' Hi0 Hi Hi'.
      assert (Hrange : i + 1 < n).
      { unfold index in Hi'. cbv zeta in Hi'.
        destruct (Z.ltb_spec (i + 1) 0); [lia|].
        destruct (Z.ltb_spec (i + 1) 0); [lia|].
        assert (Hsome : nth_error (map (fun i => (inject_Z i * d)%Q) (range n))
                                  (Z.to_nat (i + 1)) <> None) by congruence.
        apply nth_error_Some in Hsome.
        rewrite length_map, range_length in Hsome. lia. }
      rewrite (index_segment n i (fun i => (inject_Z i * d)%Q)) in Hi by lia.
      rewrite (index_segment n (i + 1) (fun i => (inject_Z i * d)%Q)) in Hi' by lia.
      injection Hi as <-. injection Hi' as <-.
      rewrite inject_Z_plus.
      change (inject_Z 1) with 1%Q.
      split.
      * setoid_replace ((inject_Z i + 1) * d)%Q with (inject_Z i * d + d)%Q by ring.
        lra.
      * ring.
Qed.

Lemma generate_timestamps_plan_witness :
  (0 <= 0
   /\ generate_timestamps 10 0 initial_world
      = (Raise (mk_exn ValueError "Number of segments must be positive"),
         initial_world))
  /\ (0 < 10)%Q /\ 0 < 4
  /\ exists timestamps w',
       generate_timestamps 10 4 initial_world = (Ok timestamps, w')
       /\ len timestamps = 4
       /\ (forall i, 0 <= i < 4 ->
             index timestamps i = Some (inject_Z i * (10 / inject_Z 4))%Q)
       /\ (exists t0, index timestamps 0 = Some t0 /\ (t0 == 0)%Q)
       /\ (forall i t t',
             0 <= i ->
             index timestamps i = Some t -> index timestamps (i + 1) = Some t' ->
             (t <= t')%Q /\ (t' - t == 10 / inject_Z 4)%Q).
Proof.
  assert (H0 : 0 <= 0) by lia.
  assert (H1 : (0 < 10)%Q) by reflexivity.
  assert (H2 : 0 < 4) by lia.
  split; [split; [exact H0
                 | exact (proj1 (generate_timestamps_plan 10 0 initial_world) H0)]|].
  split; [exact H1|]. split; [exact H2|].
  exact (proj2 (generate_timestamps_plan 10 4 initial_world) H1 H2).
Defined.

(* ================================================================== *)
(** * B-roll playlist *)
(* ================================================================== *)

Section Shuffle.

Context {A : Type}.

(** Overwriting position [i] trades the old element for the new one. *)
Lemma setitem_perm (l : list A) (i : nat) (old v : A) :
  nth_error l i = Some old ->
  Permutation (v :: l) (old :: setitem l i v).
Proof.
  revert i; induction l as [|x l IH]; intros [|i] H; simpl in *; try discriminate.
  - injection H as ->. apply perm_swap.
  - apply IH in H.
    transitivity (x :: v :: l); [apply perm_swap|].
    transitivity (x :: old :: setitem l i v); [now apply perm_skip|].
    apply perm_swap.
Qed.

Lemma nth_error_setitem (l : list A) (i j : nat) (v : A) :
  (i < List.length l)%nat ->
  nth_error (setitem l i v) j = if Nat.eqb i j then Some v else nth_error l j.
Proof.
  revert i j; induction l as [|x l IH]; intros [|i] [|j] H; simpl in *;
    try lia; try reflexivity.
  apply IH. lia.
Qed.

Lemma swap_perm (l : list A) (i j : nat) : Permutation l (swap l i j).
Proof.
  unfold swap.
  destruct (nth_error l i) as [xi|] eqn:Hi; [|reflexivity].
  destruct (nth_error l j) as [xj|] eqn:Hj; [|reflexivity].
  assert (Hlen : (i < List.length l)%nat)
    by (apply nth_error_Some; congruence).
  pose proof (setitem_perm l i xi xj Hi) as H1.
  assert (Hj' : nth_error (setitem l i xj) j = Some xj).
  { rewrite nth_error_setitem by exact Hlen.
    destruct (Nat.eqb_spec i j); [reflexivity | exact Hj]. }
  pose proof (setitem_perm (setitem l i xj) j xj xi Hj') as H2.
  apply (Permutation_cons_inv (a := xj)).
  transitivity (xi :: setitem l i xj); [exact H1 | exact H2].
Qed.

Variable E : env.

Lemma shuffle_loop_perm (todo : list nat) (x : list A) (k : nat) :
  Permutation x (shuffle_loop E x todo k).
Proof.
  revert x k; induction todo as [|i todo IH]; intros x k; simpl; [reflexivity|].
  etransitivity; [apply swap_perm | apply IH].
Qed.

Lemma shuffle_perm (x : list A) : Permutation x (shuffle E x).
Proof. apply shuffle_loop_perm. Qed.

End Shuffle.

Section Playlist.

Variable E : env.

Lemma enumerate_snd {A} (l : list A) : map snd (enumerate l) = l.
Proof.
  unfold enumerate, range, len. rewrite Nat2Z.id.
  generalize 0%nat. induction l as [|x l IH]; intros s; simpl; [reflexivity|].
  now rewrite IH.
Qed.

Lemma intro_loop_result (n : Z) (items : list (Z * string)) (acc : list string)
      (w : world) :
  exists w', intro_loop n items acc w = (Ok (acc ++ map snd items), w').
Proof.
  revert acc w; induction items as [|[i p] items IH]; intros acc w; simpl.
  - eexists. now rewrite app_nil_r.
  - unfold bind at 1. simpl.
    destruct (IH (acc ++ [p]) (mk_world (trace w ++ [EvProgress
                (int_of_Q (inject_Z i / inject_Z n * 20))])
                (api_calls w) (generation_history w))) as [w' Hw'].
    exists w'. rewrite Hw'. now rewrite <- app_assoc.
Qed.

(** The intro clips gathered by lines 192-197 are the intro paths. *)
Lemma intro_clips_result (intro_paths : list string) (w : world) :
  exists w',
    (match intro_paths with
     | [] => ret []
     | _ :: _ =>
         status (Text "Processing intro clips...") ;;
         intro_loop (len intro_paths) (enumerate intro_paths) []
     end) w = (Ok intro_paths, w').
Proof.
  destruct intro_paths as [|p ps]; [eexists; reflexivity|].
  unfold bind, status, emit.
  match goal with |- context [intro_loop ?n ?items ?acc ?w0] =>
    destruct (intro_loop_result n items acc w0) as [w' Hw'] end.
  exists w'. rewrite Hw'. simpl app. now rewrite enumerate_snd.
Qed.

Lemma concatenations_app (a b : list event) :
  concatenations (a ++ b) = concatenations a ++ concatenations b.
Proof.
  induction a as [|e a IH]; simpl; [reflexivity|].
  destruct e; simpl; now rewrite ?IH.
Qed.

Lemma no_concatenation_bind {A B} (m : M A) (k : A -> M B) :
  no_concatenation m -> (forall a, no_concatenation (k a)) ->
  no_concatenation (bind m k).
Proof.
  intros Hm Hk w. unfold bind. specialize (Hm w).
  destruct (m w) as [[a|e] w1]; simpl in *; [|exact Hm].
  now rewrite Hk.
Qed.

Lemma no_concatenation_ret {A} (a : A) : no_concatenation (ret a).
Proof. intros w; reflexivity. Qed.

Lemma no_concatenation_raise {A} (e : exn) : no_concatenation (@raise A e).
Proof. intros w; reflexivity. Qed.

Lemma no_concatenation_log (l : level) (t : text) : no_concatenation (log l t).
Proof. intros w. simpl. rewrite concatenations_app. simpl. apply app_nil_r. Qed.

Lemma no_concatenation_status (t : text) : no_concatenation (status t).
Proof. intros w. simpl. rewrite concatenations_app. simpl. apply app_nil_r. Qed.

Lemma no_concatenation_progress (z : Z) : no_concatenation (emit (EvProgress z)).
Proof. intros w. simpl. rewrite concatenations_app. simpl. apply app_nil_r. Qed.

Lemma no_concatenation_get_duration (audio_path : string) :
  no_concatenation (get_duration E audio_path).
Proof.
  assert (Hfb : no_concatenation (fallback_estimate E audio_path)).
  { unfold fallback_estimate. destruct (getsize E audio_path).
    - apply no_concatenation_bind; [apply no_concatenation_log|].
      intros _; apply no_concatenation_ret.
    - apply no_concatenation_bind; [apply no_concatenation_log|].
      intros _; apply no_concatenation_raise. }
  assert (Hpy : no_concatenation (pydub_or_fallback E audio_path)).
  { unfold pydub_or_fallback. destruct (ffmpeg_available E); [|exact Hfb].
    destruct (AudioSegment_from_file E audio_path).
    - apply no_concatenation_bind; [apply no_concatenation_log|].
      intros _; apply no_concatenation_ret.
    - apply no_concatenation_bind; [apply no_concatenation_log|].
      intros _; exact Hfb. }
  unfold get_duration.
  apply no_concatenation_bind; [apply no_concatenation_log|]. intros _.
  destruct (negb (path_exists E audio_path)); [apply no_concatenation_raise|].
  destruct (endswith (lower audio_path) ".wav"); [|exact Hpy].
  destruct (wav_duration E audio_path).
  - apply no_concatenation_bind; [apply no_concatenation_log|].
    intros _; apply no_concatenation_ret.
  - apply no_concatenation_bind; [apply no_concatenation_log|].
    intros _; exact Hpy.
Qed.

Lemma no_concatenation_intro_loop (n : Z) (items : list (Z * string))
      (acc : list string) :
  no_concatenation (intro_loop n items acc).
Proof.
  revert acc; induction items as [|[i p] items IH]; intros acc; simpl.
  - apply no_concatenation_ret.
  - apply no_concatenation_bind; [apply no_concatenation_progress|].
    intros _; apply IH.
Qed.

Lemma no_concatenation_intro_clips (intro_paths : list string) :
  no_concatenation
    (match intro_paths with
     | [] => ret []
     | _ :: _ =>
         status (Text "Processing intro clips...") ;;
         intro_loop (len intro_paths) (enumerate intro_paths) []
     end).
Proof.
  destruct intro_paths; [apply no_concatenation_ret|].
  apply no_concatenation_bind; [apply no_concatenation_status|].
  intros _; apply no_concatenation_intro_loop.
Qed.

(** Building the playlist fails only if the duration probe fails; it
    hands nothing to the encoder, and the playlist is the intro paths
    followed by the shuffled B-roll paths. *)
Lemma build_playlist_result (params : broll_params) (w : world) :
  concatenations (trace (snd (build_playlist E params w)))
  = concatenations (trace w)
  /\ ((exists target,
         fst (build_playlist E params w)
         = Ok (b_intro_paths params ++ shuffle E (b_broll_paths params), target))
      \/ (exists e w0,
            b_sync_duration params && truthy (b_voiceover_path params) = true
            /\ fst (build_playlist E params w) = Raise e
            /\ fst (get_duration E
                      (match b_voiceover_path params with
                       | Some p => p
                       | None => ""
                       end) w0) = Raise e)).
Proof.
  unfold build_playlist.
  destruct (b_sync_duration params && truthy (b_voiceover_path params)) eqn:Hsync.
  - (* the duration is probed first *)
    rewrite bind_assoc, (bind_status _ _ w).
    set (w0 := mk_world _ _ _).
    assert (Hw0 : concatenations (trace w0) = concatenations (trace w)).
    { subst w0. simpl. rewrite concatenations_app. simpl. apply app_nil_r. }
    rewrite bind_assoc.
    pose proof (no_concatenation_get_duration
                  (match b_voiceover_path params with Some p => p | None => "" end)
                  w0) as Hd.
    destruct (get_duration E _ w0) as [[d|e] w1] eqn:Hrun; cbn [snd] in Hd.
    + rewrite (bind_ok _ _ _ _ _ Hrun), bind_ret.
      destruct (intro_clips_result (b_intro_paths params) w1) as [w2 Hw2].
      pose proof (no_concatenation_intro_clips (b_intro_paths params) w1) as Hi.
      rewrite Hw2 in Hi. simpl in Hi.
      rewrite (bind_ok _ _ _ _ _ Hw2), bind_status. simpl. split.
      * rewrite concatenations_app, Hi, Hd, Hw0. simpl. apply app_nil_r.
      * left. eexists. reflexivity.
    + rewrite (bind_raise _ _ _ _ _ Hrun). simpl. split; [congruence|].
      right. exists e, w0. rewrite Hrun. auto.
  - rewrite bind_ret.
    destruct (intro_clips_result (b_intro_paths params) w) as [w2 Hw2].
    pose proof (no_concatenation_intro_clips (b_intro_paths params) w) as Hi.
    rewrite Hw2 in Hi. simpl in Hi.
    rewrite (bind_ok _ _ _ _ _ Hw2), bind_status. simpl. split.
    + rewrite concatenations_app, Hi. simpl. apply app_nil_r.
    + left. eexists. reflexivity.
Qed.

End Playlist.

(** C9. The playlist that [process_broll] hands to [concatenate_clips] is
    the intro paths in their input order followed by a permutation of the
    B-roll paths, whatever the random draws are. [process_broll] hands over
    exactly one playlist, unless probing the voice-over duration raised
    before the playlist was built. *)
Theorem broll_playlist_order (E : env) (params : broll_params) (w : world) :
  let intro := b_intro_paths params in
  let broll := b_broll_paths params in
  let run := process_broll E params w in
  (exists shuffled,
      concatenations (trace (snd run))
      = concatenations (trace w) ++ [intro ++ shuffled]
      /\ firstn (List.length intro) (intro ++ shuffled) = intro
      /\ skipn (List.length intro) (intro ++ shuffled) = shuffled
      /\ Permutation broll shuffled)
  \/ (exists e w0,
        concatenations (trace (snd run)) = concatenations (trace w)
        /\ fst run = Raise e
        /\ b_sync_duration params && truthy (b_voiceover_path params) = true
        /\ fst (get_duration E
                  (match b_voiceover_path params with
                   | Some p => p
                   | None => ""
                   end) w0) = Raise e).
Proof.
  cbv zeta. unfold process_broll.
  rewrite bind_status. set (w0 := mk_world _ _ _).
  assert (Hw0 : concatenations (trace w0) = concatenations (trace w)).
  { subst w0. simpl. rewrite concatenations_app. simpl. apply app_nil_r. }
  destruct (build_playlist_result E params w0) as [Htr Hcases].
  destruct (build_playlist E params w0) as [[[playlist target]|e] wb] eqn:Hb;
    cbn [fst snd] in Htr, Hcases.
  - destruct Hcases as [[t Hok] | (e & w1 & _ & Hr & _)]; [|discriminate].
    injection Hok as -> ->.
    left. exists (shuffle E (b_broll_paths params)).
    split; [|split; [|split]].
    + rewrite (bind_ok _ _ _ _ _ Hb). cbn [fst snd].
      rewrite bind_status. unfold concatenate_clips, external.
      rewrite !bind_assoc, bind_log, bind_assoc, bind_emit.
      match goal with |- context [external_result E ?ev] =>
        destruct (external_result E ev) end.
      * rewrite bind_lift_ok.
        destruct (b_overlay_audio params && truthy (b_voiceover_path params)).
        -- unfold add_audio_to_video, external.
           rewrite !bind_assoc, bind_status, !bind_assoc, bind_log,
             !bind_assoc, bind_emit.
           match goal with |- context [external_result E ?ev] =>
             destruct (external_result E ev) end.
           ++ rewrite bind_lift_ok, bind_log, bind_emit. simpl.
              rewrite <- !app_assoc, !concatenations_app, Htr, Hw0. simpl.
              reflexivity.
           ++ rewrite bind_lift_raise. simpl.
              rewrite <- !app_assoc, !concatenations_app, Htr, Hw0. simpl.
              reflexivity.
        -- rewrite bind_emit. simpl.
           rewrite <- !app_assoc, !concatenations_app, Htr, Hw0. simpl.
           reflexivity.
      * rewrite bind_lift_raise. simpl.
        rewrite <- !app_assoc, !concatenations_app, Htr, Hw0. simpl.
        reflexivity.
    + rewrite firstn_app, Nat.sub_diag, firstn_all. simpl. apply app_nil_r.
    + rewrite skipn_app, Nat.sub_diag, skipn_all. reflexivity.
    + apply shuffle_perm.
  - destruct Hcases as [[t Hok] | (e' & w1 & Hsync & Hr & Hd)]; [discriminate|].
    injection Hr as <-.
    right. exists e, w1.
    rewrite (bind_raise _ _ _ _ _ Hb). cbn [fst snd].
    rewrite Htr, Hw0. auto.
Qed.

(* ================================================================== *)
(** * Duration of an audio file *)
(* ================================================================== *)

Section Duration.

Variable E : env.

Lemma endswith_exclusive (s : string) :
  endswith s ".mp3" = true -> endswith s ".m4a" = false.
Proof.
  unfold endswith.
  change (String.length ".mp3") with 4%nat.
  change (String.length ".m4a") with 4%nat.
  intros H. apply andb_prop in H as [Hlen H]. rewrite Hlen.
  apply String.eqb_eq in H. rewrite H. reflexivity.
Qed.

Lemma estimate_from_size_eq (audio_path : string) (size : Z) :
  estimate_from_size audio_path size
  = (inject_Z (size * 8) / inject_Z (assumed_bitrate audio_path))%Q.
Proof.
  unfold estimate_from_size, assumed_bitrate.
  destruct (endswith (lower audio_path) ".mp3") eqn:Hmp3.
  - now rewrite endswith_exclusive.
  - now destruct (endswith (lower audio_path) ".m4a").
Qed.

Lemma assumed_bitrate_pos (audio_path : string) : 0 < assumed_bitrate audio_path.
Proof. unfold assumed_bitrate. destruct (endswith _ _); lia. Qed.

Lemma estimate_nonneg (audio_path : string) (size : Z) :
  0 <= size -> (0 <= estimate_from_size audio_path size)%Q.
Proof.
  intros Hs. rewrite estimate_from_size_eq.
  pose proof (assumed_bitrate_pos audio_path) as Hb.
  apply Qle_shift_div_l.
  - change 0%Q with (inject_Z 0). now rewrite <- Zlt_Qlt.
  - rewrite Qmult_0_l. change 0%Q with (inject_Z 0). rewrite <- Zle_Qle. lia.
Qed.

Lemma estimate_pos (audio_path : string) (size : Z) :
  0 < size -> (0 < estimate_from_size audio_path size)%Q.
Proof.
  intros Hs. rewrite estimate_from_size_eq.
  apply Qdiv_pos; [|apply assumed_bitrate_pos].
  change 0%Q with (inject_Z 0). rewrite <- Zlt_Qlt. lia.
Qed.

(** The size-based branch, run on its own. *)
Lemma fallback_estimate_run (audio_path : string) (w : world) :
  match getsize E audio_path with
  | Ok size =>
      fallback_estimate E audio_path w
      = (Ok (estimate_from_size audio_path size),
         mk_world (trace w ++ [approximate_flag (estimate_from_size audio_path size)])
                  (api_calls w) (generation_history w))
  | Raise e =>
      fst (fallback_estimate E audio_path w)
      = Raise (mk_exn RuntimeError
          "Cannot determine audio duration - FFmpeg is required for accurate audio processing")
  end.
Proof.
  unfold fallback_estimate. destruct (getsize E audio_path); reflexivity.
Qed.

(** When header and decoder give nothing, [get_duration] is its size-based
    branch, run after the warnings of the earlier methods. *)
Lemma get_duration_falls_back (audio_path : string) (w : world) :
  path_exists E audio_path = true ->
  header_fails E audio_path = true ->
  decoder_fails E audio_path = true ->
  exists w1, get_duration E audio_path w = fallback_estimate E audio_path w1.
Proof.
  unfold header_fails, decoder_fails, get_duration, pydub_or_fallback.
  intros Hex Hh Hd. rewrite bind_log, Hex. cbn [negb].
  destruct (ffmpeg_available E);
    [destruct (AudioSegment_from_file E audio_path); [discriminate|] |];
    (destruct (endswith (lower audio_path) ".wav");
     [destruct (wav_duration E audio_path); [discriminate|] |]);
    rewrite ?bind_log; eexists; reflexivity.
Qed.

(** Which errors [get_duration] can raise, and when. *)
Lemma get_duration_errors (audio_path : string) (w : world) (e : exn) :
  fst (get_duration E audio_path w) = Raise e ->
  (path_exists E audio_path = false
   /\ e = mk_exn FileNotFoundError ("Audio file not found: " ++ audio_path))
  \/ (path_exists E audio_path = true
      /\ header_fails E audio_path = true
      /\ decoder_fails E audio_path = true
      /\ is_ok (getsize E audio_path) = false
      /\ exn_cls e = RuntimeError).
Proof.
  unfold header_fails, decoder_fails, get_duration, pydub_or_fallback,
    fallback_estimate.
  rewrite bind_log.
  destruct (path_exists E audio_path); cbn [negb].
  - intros H. right.
    destruct (endswith (lower audio_path) ".wav");
      [destruct (wav_duration E audio_path); [discriminate H|] |];
      rewrite ?bind_log in H;
      (destruct (ffmpeg_available E);
       [destruct (AudioSegment_from_file E audio_path); [discriminate H|] |]);
      rewrite ?bind_log in H;
      (destruct (getsize E audio_path); [discriminate H|]);
      rewrite ?bind_log in H; cbn in H; injection H as <-; auto.
  - intros H. left. cbn in H. injection H as <-. auto.
Qed.

End Duration.

(** C6, as the code has it. [get_duration] raises FileNotFoundError exactly
    when the path does not exist, before any method is tried. When the
    header and the decoder give nothing, it returns
    [size * 8 / assumed_bitrate], with 256 kbps for [.m4a] and 128 kbps
    otherwise, and flags it by a warning instead of raising; the estimate is
    never negative, and positive when the file is not empty. It raises
    RuntimeError only in that branch, when the size cannot be read. *)
Theorem get_duration_contract (E : env) (audio_path : string) (w : world) :
  let run := get_duration E audio_path w in
  ((exists msg, fst run = Raise (mk_exn FileNotFoundError msg))
   <-> path_exists E audio_path = false)
  /\ (path_exists E audio_path = false ->
      trace (snd run)
      = trace w ++ [EvLog INFO (Text ("Getting duration of " ++ audio_path))])
  /\ (path_exists E audio_path = true ->
      header_fails E audio_path = true ->
      decoder_fails E audio_path = true ->
      forall size, getsize E audio_path = Ok size ->
        exists d,
          fst run = Ok d
          /\ d = (inject_Z (size * 8) / inject_Z (assumed_bitrate audio_path))%Q
          /\ last (trace (snd run)) (approximate_flag 0) = approximate_flag d
          /\ (0 <= size -> (0 <= d)%Q)
          /\ (0 < size -> (0 < d)%Q))
  /\ ((exists msg, fst run = Raise (mk_exn RuntimeError msg))
      <-> path_exists E audio_path = true
          /\ header_fails E audio_path = true
          /\ decoder_fails E audio_path = true
          /\ is_ok (getsize E audio_path) = false).
Proof.
  cbv zeta. split; [|split; [|split]].
  - split.
    + intros [msg H]. apply get_duration_errors in H as [[H _] | (_ & _ & _ & _ & H)];
        [exact H | discriminate H].
    + intros H. eexists. unfold get_duration. rewrite bind_log, H. reflexivity.
  - intros H. unfold get_duration. rewrite bind_log, H. reflexivity.
  - intros Hex Hh Hd size Hsize.
    destruct (get_duration_falls_back E audio_path w Hex Hh Hd) as [w1 ->].
    pose proof (fallback_estimate_run E audio_path w1) as Hrun.
    rewrite Hsize in Hrun. rewrite Hrun. cbn [fst snd trace].
    exists (estimate_from_size audio_path size).
    split; [reflexivity|].
    split; [apply estimate_from_size_eq|].
    split; [apply last_last|].
    split; [apply estimate_nonneg | apply estimate_pos].
  - split.
    + intros [msg H]. apply get_duration_errors in H as [[_ H] | (H1 & H2 & H3 & H4 & _)];
        [discriminate H | auto].
    + intros (Hex & Hh & Hd & Hsize).
      destruct (get_duration_falls_back E audio_path w Hex Hh Hd) as [w1 ->].
      pose proof (fallback_estimate_run E audio_path w1) as Hrun.
      destruct (getsize E audio_path); [discriminate Hsize|].
      eexists. exact Hrun.
Qed.

Lemma get_duration_contract_witness :
  path_exists small_file_env "voice.m4a" = true
  /\ header_fails small_file_env "voice.m4a" = true
  /\ decoder_fails small_file_env "voice.m4a" = true
  /\ getsize small_file_env "voice.m4a" = Ok 160000
  /\ exists d,
       fst (get_duration small_file_env "voice.m4a" initial_world) = Ok d
       /\ d = (inject_Z (160000 * 8) / inject_Z (assumed_bitrate "voice.m4a"))%Q
       /\ last (trace (snd (get_duration small_file_env "voice.m4a" initial_world)))
               (approximate_flag 0) = approximate_flag d
       /\ (0 <= 160000 -> (0 <= d)%Q)
       /\ (0 < 160000 -> (0 < d)%Q).
Proof.
  assert (H1 : path_exists small_file_env "voice.m4a" = true) by reflexivity.
  assert (H2 : header_fails small_file_env "voice.m4a" = true) by reflexivity.
  assert (H3 : decoder_fails small_file_env "voice.m4a" = true) by reflexivity.
  assert (H4 : getsize small_file_env "voice.m4a" = Ok 160000) by reflexivity.
  repeat (split; [assumption|]).
  exact (proj1 (proj2 (proj2 (get_duration_contract small_file_env "voice.m4a"
                                                    initial_world)))
               H1 H2 H3 160000 H4).
Defined.

(** C6 fails on the code: an existing, readable, empty file on a machine
    without FFmpeg gets the estimate 0, which is not positive. *)
Lemma get_duration_empty_file_counterexample :
  path_exists empty_file_env "voice.mp3" = true
  /\ getsize empty_file_env "voice.mp3" = Ok 0
  /\ header_fails empty_file_env "voice.mp3" = true
  /\ decoder_fails empty_file_env "voice.mp3" = true
  /\ exists d, fst (get_duration empty_file_env "voice.mp3" initial_world) = Ok d
               /\ ~ (0 < d)%Q.
Proof.
  repeat (split; [reflexivity|]).
  eexists. split; [reflexivity|]. intros H. discriminate H.
Qed.

(* ================================================================== *)
(** * The synchronised video *)
(* ================================================================== *)

Section SyncedVideo.

Variable E : env.

Lemma Qltb_lt (a b : Q) : Qltb a b = true <-> (a < b)%Q.
Proof.
  unfold Qltb. rewrite negb_true_iff.
  destruct (Qle_bool b a) eqn:H.
  - apply Qle_bool_iff in H. split; [discriminate|].
    intros Hlt. exfalso. apply (Qlt_not_le _ _ Hlt H).
  - split; [|reflexivity]. intros _.
    apply Qnot_le_lt. intros Hle. apply Qle_bool_iff in Hle. congruence.
Qed.

Lemma Qltb_ge (a b : Q) : Qltb a b = false <-> (b <= a)%Q.
Proof.
  unfold Qltb. rewrite negb_false_iff. apply Qle_bool_iff.
Qed.

Lemma Qle_bool_lt (a b : Q) : Qle_bool a b = false <-> (b < a)%Q.
Proof.
  rewrite <- Qltb_lt. unfold Qltb. now rewrite negb_true_iff.
Qed.

(** Rounding sees the number, not the fraction that writes it. *)
Lemma round64_proper (x y : Q) : (x == y)%Q -> round64 x = round64 y.
Proof.
  intros H. unfold round64. now rewrite (Qred_complete x y H).
Qed.

(** Subtracting zero from a float changes nothing. *)
Lemma fsub_zero (t : Q) : is_float t -> (fsub t 0 == t)%Q.
Proof.
  intros Ht. unfold fsub.
  rewrite (round64_proper (t - 0) t) by ring. exact Ht.
Qed.

(** The frames of the composition are those of the time line. *)
Lemma compose_frame_loaded (image_data : list image_record) (tt : list Q) (t : Q)
      (under : frame) :
  compose_frame (map (loaded_clip E) image_data) tt t under
  = track_frame image_data tt t under.
Proof.
  revert tt under; induction image_data as [|data rest IH];
    intros tt under; simpl; [reflexivity|].
  destruct tt as [|start tt']; [reflexivity|]. now rewrite IH.
Qed.

Lemma durations_loaded (image_data : list image_record) :
  durations (map (loaded_clip E) image_data) = Ok (map duration image_data).
Proof.
  induction image_data as [|data rest IH]; simpl; [reflexivity|].
  now rewrite IH.
Qed.

(** Loading the clips, when every picture loads. *)
Lemma image_clips_run (image_data : list image_record) (clips : list VideoClip)
      (w : world) :
  Forall (fun data => is_ok (image_size E (path data)) = true) image_data ->
  image_clips E image_data clips w
  = (Ok (clips ++ map (loaded_clip E) image_data),
     mk_world (trace w ++ map (fun data => EvImageClip (path data) (duration data))
                              image_data)
              (api_calls w) (generation_history w)).
Proof.
  intros H; revert clips w; induction H as [|data rest Hd _ IH]; intros clips w; simpl.
  - rewrite !app_nil_r. now destruct w.
  - unfold ImageClip, loaded_clip in *.
    rewrite !bind_assoc, bind_emit.
    destruct (image_size E (path data)) as [sz|] eqn:Hsz; [|discriminate].
    rewrite bind_assoc, bind_lift_ok, bind_ret, IH. simpl.
    rewrite <- !app_assoc. reflexivity.
Qed.

(** Concatenating the loaded clips. *)
Lemma concatenate_loaded (image_data : list image_record) :
  image_data <> [] ->
  exists sz,
    concatenate_videoclips (map (loaded_clip E) image_data) Compose
    = Ok (mk_clip (Some (last (cumsum_from 0 (map duration image_data)) 0%Q))
                  (fun t => compose_frame (map (loaded_clip E) image_data)
                                          (cumsum_from 0 (map duration image_data))
                                          t Blank)
                  sz None).
Proof.
  intros Hne. unfold concatenate_videoclips. rewrite durations_loaded.
  destruct image_data as [|data rest]; [contradiction|].
  eexists. reflexivity.
Qed.

(** [synced_video] when the audio and every picture load: the composition
    of the pictures, with the audio, goes through the adjustment of lines
    203-210. *)
Lemma synced_video_run (image_data : list image_record) (audio_path : string)
      (total : Q) (w : world) :
  image_data <> [] ->
  audio_clip_duration E audio_path = Ok total ->
  Forall (fun data => is_ok (image_size E (path data)) = true) image_data ->
  exists sz,
    synced_video E image_data audio_path w
    = (match match_audio_duration
               (mk_clip (Some (last (cumsum_from 0 (map duration image_data)) 0%Q))
                        (fun t => compose_frame (map (loaded_clip E) image_data)
                                    (cumsum_from 0 (map duration image_data)) t Blank)
                        sz (Some (mk_audio audio_path total)))
               total with
       | Ok final => Ok (final, mk_audio audio_path total)
       | Raise e => Raise e
       end,
       mk_world (trace w
                 ++ [EvLog INFO (Text "Creating full video with voiceover...");
                     EvAudioFileClip audio_path]
                 ++ map (fun data => EvImageClip (path data) (duration data))
                        image_data)
                (api_calls w) (generation_history w)).
Proof.
  intros Hne Haudio Himgs.
  unfold synced_video, AudioFileClip.
  rewrite bind_log, !bind_assoc, bind_emit, Haudio, bind_assoc, bind_lift_ok, bind_ret.
  rewrite (bind_ok _ _ _ _ _ (image_clips_run image_data [] _ Himgs)).
  cbn [app a_duration].
  destruct (concatenate_loaded image_data Hne) as [sz Hcat].
  rewrite Hcat, bind_lift_ok. exists sz.
  unfold set_audio. cbn [v_duration v_frame v_size].
  match goal with |- context [match_audio_duration ?v total] =>
    destruct (match_audio_duration v total) as [final|e] end.
  - rewrite bind_lift_ok. unfold ret. cbn [trace api_calls generation_history].
    rewrite <- !app_assoc. reflexivity.
  - rewrite bind_lift_raise. cbn [trace api_calls generation_history].
    rewrite <- !app_assoc. reflexivity.
Qed.

(** The export of the clip that [synced_video] built. *)
Lemma create_full_video_exports (image_data : list image_record)
      (audio_path output_path : string) (w w1 : world) (final : VideoClip)
      (audio : AudioClip) :
  synced_video E image_data audio_path w = (Ok (final, audio), w1) ->
  exports E image_data audio_path output_path w final.
Proof.
  intros Hrun. exists audio, w1. 
  unfold create_full_video.
  rewrite (bind_ok _ _ _ _ _ Hrun). cbn [fst].
  unfold _export_for_youtube, external.
  rewrite !bind_assoc, bind_log, !bind_assoc, bind_emit.
  match goal with |- context [external_result E ?ev] =>
    destruct (external_result E ev) end.
  - rewrite bind_lift_ok, bind_emit. cbn [snd emit trace].
    eexists _, _. split; [exact Hrun|]. rewrite <- !app_assoc. reflexivity.
  - rewrite bind_lift_raise. cbn [snd trace].
    eexists _, _. split; [exact Hrun|]. rewrite <- !app_assoc. reflexivity.
Qed.

End SyncedVideo.

(** C5 on the code. A picture shown for 7.5 s, then one shown for 1/16 s,
    against 10 s of audio: the exported video lasts 10 s, but what is held
    from the end of the pictures to the end of the audio is not the last
    frame. The frame is sampled 0.1 s before the end of the visual track,
    which is before the last picture comes on, so the extension shows the
    first picture again. *)
Theorem create_full_video_short_last_artifact (E : env)
        (audio_path output_path : string) (w : world) :
  audio_clip_duration E audio_path = Ok 10%Q ->
  Forall (fun data => is_ok (image_size E (path data)) = true) short_last_artifact ->
  exists final,
    exports E short_last_artifact audio_path output_path w final
    /\ v_duration final = Some 10%Q
    /\ forall t, is_float t ->
         ((0 <= t)%Q -> (t < 15 # 2)%Q ->
          v_frame final t = Still "out/scene_001.png")
         /\ ((15 # 2 <= t)%Q -> (t < 121 # 16)%Q ->
             v_frame final t = Still "out/scene_002.png")
         /\ ((121 # 16 <= t)%Q -> (t < 10)%Q ->
             v_frame final t = Still "out/scene_001.png").
Proof.
  intros Haudio Himgs.
  destruct (synced_video_run E short_last_artifact audio_path 10 w
              ltac:(discriminate) Haudio Himgs) as [sz Hrun].
  assert (Htt : cumsum_from 0 (map duration short_last_artifact)
                = [0; 15 # 2; 121 # 16]%Q) by (vm_compute; reflexivity).
  rewrite Htt in Hrun.
  unfold match_audio_duration in Hrun.
  cbn [v_duration last] in Hrun.
  change (Qltb 10 (121 # 16)) with false in Hrun.
  change (Qltb (121 # 16) 10) with true in Hrun.
  cbv iota in Hrun.
  unfold concatenate_videoclips, to_ImageClip, set_duration in Hrun.
  cbn [durations v_duration map max_of v_size fst snd fold_left] in Hrun.
  assert (Htt2 : cumsum_from 0 [121 # 16; fsub 10 (121 # 16)]%Q
                 = [0; 121 # 16; 10]%Q) by (vm_compute; reflexivity).
  rewrite Htt2 in Hrun. cbn [last] in Hrun.
  eexists. split; [exact (create_full_video_exports E _ _ output_path _ _ _ _ Hrun)|].
  split; [reflexivity|].
  intros t Ht. cbn [v_frame chain_frame tl].
  rewrite !compose_frame_loaded.
  assert (Hheld : track_frame short_last_artifact [0; 15 # 2; 121 # 16]%Q
                              (fsub (121 # 16) tenth) Blank
                  = Still "out/scene_001.png") by (vm_compute; reflexivity).
  rewrite Hheld. clear Hheld.
  pose proof (fsub_zero t Ht) as Ht'.
  unfold short_last_artifact. cbn [track_frame duration path].
  change (fadd 0 (15 # 2)) with (15 # 2)%Q.
  change (fadd (15 # 2) (1 # 16)) with (121 # 16)%Q.
  generalize dependent (fsub t 0). intros t' Ht'.
  repeat split; intros Hlo Hhi.
  - rewrite (proj2 (Qle_bool_lt 10 t)) by lra.
    rewrite (proj2 (Qle_bool_lt (121 # 16) t)) by lra.
    rewrite (proj2 (Qle_bool_iff 0 t)) by lra.
    rewrite (proj2 (Qle_bool_iff 0 t')) by lra.
    rewrite (proj2 (Qltb_lt t' (15 # 2))) by lra.
    rewrite (proj2 (Qle_bool_lt (15 # 2) t')) by lra.
    reflexivity.
  - rewrite (proj2 (Qle_bool_lt 10 t)) by lra.
    rewrite (proj2 (Qle_bool_lt (121 # 16) t)) by lra.
    rewrite (proj2 (Qle_bool_iff 0 t)) by lra.
    rewrite (proj2 (Qle_bool_iff (15 # 2) t')) by lra.
    rewrite (proj2 (Qltb_lt t' (121 # 16))) by lra.
    reflexivity.
  - rewrite (proj2 (Qle_bool_lt 10 t)) by lra.
    rewrite (proj2 (Qle_bool_iff (121 # 16) t)) by lra.
    reflexivity.
Qed.

(** The same run on a machine whose audio tracks last 10 s. *)
Lemma create_full_video_short_last_artifact_witness :
  audio_clip_duration small_file_env "voice.mp3" = Ok 10%Q
  /\ Forall (fun data => is_ok (image_size small_file_env (path data)) = true)
            short_last_artifact
  /\ exists final,
       exports small_file_env short_last_artifact "voice.mp3" "out/final_video.mp4"
               initial_world final
       /\ v_duration final = Some 10%Q
       /\ forall t, is_float t ->
            ((0 <= t)%Q -> (t < 15 # 2)%Q ->
             v_frame final t = Still "out/scene_001.png")
            /\ ((15 # 2 <= t)%Q -> (t < 121 # 16)%Q ->
                v_frame final t = Still "out/scene_002.png")
            /\ ((121 # 16 <= t)%Q -> (t < 10)%Q ->
                v_frame final t = Still "out/scene_001.png").
Proof.
  split; [reflexivity|]. split; [repeat constructor|].
  exact (create_full_video_short_last_artifact small_file_env "voice.mp3"
           "out/final_video.mp4" initial_world eq_refl
           ltac:(repeat constructor)).
Defined.

(** The two runs of the contract, 12 s and 8 s of pictures against 10 s of
    audio: both videos are written with a duration of 10 s; the first one
    is cut, the second one holds its last picture. *)
Example twelve_and_eight_against_ten :
  match fst (synced_video small_file_env twelve_seconds "voice.mp3" initial_world),
        fst (synced_video small_file_env eight_seconds "voice.mp3" initial_world) with
  | Ok (cut, _), Ok (extended, _) =>
      v_duration cut = Some 10%Q
      /\ v_frame cut 5 = Still "out/scene_001.png"
      /\ v_frame cut 9 = Still "out/scene_002.png"
      /\ v_duration extended = Some 10%Q
      /\ v_frame extended 3 = Still "out/scene_001.png"
      /\ v_frame extended 7 = Still "out/scene_002.png"
      /\ v_frame extended 9 = Still "out/scene_002.png"
  | _, _ => False
  end.
Proof. vm_compute. repeat split; reflexivity. Qed.

(** One picture of 0.54 s against 10.03 s of audio. The extension lasts
    the float [10.03 - 0.54], and the float sum of 0.54 and of this
    number is 10.029999999999998: the video is written with a duration
    that is not the audio's. *)
Example extension_rounds :
  let run := create_full_video long_audio_env one_short_artifact "voice.mp3"
                               "out/final_video.mp4" initial_world in
  audio_clip_duration long_audio_env "voice.mp3"
  = Ok (5646388032815759 # 562949953421312)
  /\ In (EvWriteVideofile "out/final_video.mp4"
                          (Some (2823194016407879 # 281474976710656))
                          (Some "5000k"))
        (trace (snd run))
  /\ (2823194016407879 # 281474976710656 < 5646388032815759 # 562949953421312)%Q.
Proof.
  cbv zeta. split; [vm_compute; reflexivity|].
  split; [vm_compute; tauto | reflexivity].
Qed.

(** C8 on the code. With no artifact at all, [create_full_video] checks
    nothing first: it opens the audio track, which starts the external
    decoder, and only then does the run stop, on the error MoviePy raises
    for an empty clip list (or on the decoder's own error); the audio clip
    is never closed. *)
Theorem create_full_video_without_artifacts (E : env)
        (audio_path output_path : string) (w : world) :
  let run := create_full_video E [] audio_path output_path w in
  trace (snd run)
  = trace w ++ [EvLog INFO (Text "Creating full video with voiceover...");
                EvAudioFileClip audio_path]
  /\ is_external (EvAudioFileClip audio_path) = true
  /\ fst run
     = match audio_clip_duration E audio_path with
       | Ok _ => Raise (mk_exn ValueError "max() arg is an empty sequence")
       | Raise e => Raise e
       end.
Proof.
  cbv zeta. unfold create_full_video, synced_video, AudioFileClip.
  rewrite !bind_assoc, bind_log, !bind_assoc, bind_emit.
  destruct (audio_clip_duration E audio_path) as [total|e].
  - rewrite !bind_assoc, bind_lift_ok, bind_ret. cbn.
    rewrite <- app_assoc. auto.
  - rewrite !bind_assoc, bind_lift_raise. cbn.
    rewrite <- app_assoc. auto.
Qed.

(* ================================================================== *)
(** * Retrying the generation call *)
(* ================================================================== *)

Section Retry.

Variable E : env.
Variables prompt output_dir filename_prefix style : string.

Lemma backoff_delays_app (a b : list event) :
  backoff_delays (a ++ b) = backoff_delays a ++ backoff_delays b.
Proof.
  induction a as [|e a IH]; simpl; [reflexivity|].
  destruct e as [| [|] | | | | | | | | | | | | | | ]; simpl; now rewrite ?IH.
Qed.

Lemma generate_calls_app (a b : list event) :
  generate_calls (a ++ b) = generate_calls a ++ generate_calls b.
Proof.
  induction a as [|e a IH]; simpl; [reflexivity|].
  destruct e; simpl; now rewrite ?IH.
Qed.

Lemma add_events_app (w : world) (a b : list event) :
  add_events (add_events w a) b = add_events w (a ++ b).
Proof. unfold add_events. simpl. now rewrite app_assoc. Qed.

(** The HTTP loop: its outcome, and the events it adds. *)
Lemma download_attempts_run (k : nat) (url : string) (max_retries : Z)
      (todo : list Z) (w : world) :
  exists evs,
    download_attempts E k url max_retries todo w
    = (http_outcome E k url max_retries todo, add_events w evs)
    /\ backoff_delays evs = []
    /\ generate_calls evs = [].
Proof.
  revert w; induction todo as [|attempt rest IH]; intros w; cbn [download_attempts http_outcome].
  - exists []. unfold raise, add_events. rewrite app_nil_r. destruct w. auto.
  - rewrite bind_emit. fold (add_events w [EvRequestsGet url]).
    destruct (requests_get E k (Z.to_nat attempt) url) as [content_type|e].
    + exists [EvRequestsGet url]. auto.
    + destruct (retriable e); [|exists [EvRequestsGet url]; auto].
      destruct (attempt =? max_retries - 1); [exists [EvRequestsGet url]; auto|].
      rewrite bind_sleep.
      fold (add_events (add_events w [EvRequestsGet url]) [EvSleep DownloadRetry 1]).
      rewrite add_events_app.
      destruct (IH (add_events w ([EvRequestsGet url] ++ [EvSleep DownloadRetry 1])))
        as (evs & -> & Hb & Hg).
      rewrite add_events_app.
      eexists. split; [reflexivity|].
      rewrite backoff_delays_app, generate_calls_app, Hb, Hg. auto.
Qed.

(** [_download_image]: its outcome, and the events it adds. *)
Lemma download_image_run (url : string) (w : world) :
  exists evs,
    _download_image E url output_dir filename_prefix w
    = (download_outcome E (pred (api_calls w)) url output_dir filename_prefix,
       add_events w evs)
    /\ backoff_delays evs = []
    /\ generate_calls evs = [].
Proof.
  unfold _download_image, download_outcome, download_body, try_.
  unfold bind at 1. unfold bind at 1.
  destruct (download_attempts_run (pred (api_calls w)) url 3 (range 3) w)
    as (evs & -> & Hb & Hg).
  destruct (http_outcome E (pred (api_calls w)) url 3 (range 3)) as [content_type|e].
  - rewrite bind_emit. fold (add_events (add_events w evs) [EvMakedirs output_dir]).
    rewrite add_events_app.
    destruct (makedirs E output_dir) as [[]|e].
    + rewrite bind_lift_ok.
      destruct (open_w E _) as [[]|e].
      * rewrite bind_lift_ok.
        destruct (iter_content E (pred (api_calls w)) url) as [[]|e].
        -- rewrite bind_lift_ok, bind_emit.
           match goal with |- context [EvWrite ?f ?c] =>
             fold (add_events (add_events w (evs ++ [EvMakedirs output_dir]))
                              [EvWrite f c]) end.
           rewrite add_events_app. unfold ret.
           eexists. split; [reflexivity|].
           rewrite !backoff_delays_app, !generate_calls_app, Hb, Hg. auto.
        -- rewrite bind_lift_raise, bind_log.
           match goal with |- context [EvLog ?l ?t] =>
             fold (add_events (add_events w (evs ++ [EvMakedirs output_dir]))
                              [EvLog l t]) end.
           rewrite add_events_app. unfold raise.
           eexists. split; [reflexivity|].
           rewrite !backoff_delays_app, !generate_calls_app, Hb, Hg. auto.
      * rewrite bind_lift_raise, bind_log.
        match goal with |- context [EvLog ?l ?t] =>
          fold (add_events (add_events w (evs ++ [EvMakedirs output_dir]))
                           [EvLog l t]) end.
        rewrite add_events_app. unfold raise.
        eexists. split; [reflexivity|].
        rewrite !backoff_delays_app, !generate_calls_app, Hb, Hg. auto.
    + rewrite bind_lift_raise, bind_log.
      match goal with |- context [EvLog ?l ?t] =>
        fold (add_events (add_events w (evs ++ [EvMakedirs output_dir]))
                         [EvLog l t]) end.
      rewrite add_events_app. unfold raise.
      eexists. split; [reflexivity|].
      rewrite !backoff_delays_app, !generate_calls_app, Hb, Hg. auto.
  - rewrite bind_log.
    match goal with |- context [EvLog ?l ?t] =>
      fold (add_events (add_events w evs) [EvLog l t]) end.
    rewrite add_events_app. unfold raise.
    eexists. split; [reflexivity|].
    rewrite !backoff_delays_app, !generate_calls_app, Hb, Hg. auto.
Qed.

(** One run of the [try] body: its outcome, and what it leaves behind. *)
Lemma attempt_body_run (max_retries attempt : Z) (w : world) :
  exists w1,
    attempt_body E prompt output_dir filename_prefix style max_retries attempt w
    = (attempt_outcome E prompt output_dir filename_prefix (api_calls w), w1)
    /\ api_calls w1 = S (api_calls w)
    /\ backoff_delays (trace w1) = backoff_delays (trace w)
    /\ generate_calls (trace w1) = generate_calls (trace w) ++ [prompt]
    /\ generation_history w1
       = generation_history w
         ++ history_of E prompt output_dir filename_prefix style (api_calls w).
Proof.
  unfold history_of, attempt_body, attempt_outcome, client_images_generate,
    history_append, write_file.
  rewrite bind_log. unfold bind at 1. cbn [trace api_calls generation_history].
  destruct (images_generate E (api_calls w) prompt) as [[url revised]|e].
  - cbn [fst snd]. unfold bind at 1.
    match goal with |- context [_download_image E url output_dir filename_prefix ?w0] =>
      destruct (download_image_run url w0) as (evs & -> & Hb & Hg) end.
    cbn [api_calls pred].
    destruct (download_outcome E (api_calls w) url output_dir filename_prefix)
      as [image_path|e].
    + unfold bind at 1. cbn [add_events trace api_calls generation_history].
      rewrite bind_assoc.
      destruct (open_w E (path_join output_dir (filename_prefix ++ "_prompt.txt")))
        as [[]|e].
      * rewrite bind_lift_ok, bind_emit, bind_log. unfold ret.
        eexists. split; [reflexivity|]. cbn [trace api_calls generation_history].
        rewrite !backoff_delays_app, !generate_calls_app, Hb, Hg. simpl.
        rewrite !app_nil_r. auto.
      * rewrite bind_lift_raise.
        eexists. split; [reflexivity|]. cbn [trace api_calls generation_history].
        rewrite !backoff_delays_app, !generate_calls_app, Hb, Hg. simpl.
        rewrite !app_nil_r. auto.
    + eexists. split; [reflexivity|].
      cbn [add_events trace api_calls generation_history].
      rewrite !backoff_delays_app, !generate_calls_app, Hb, Hg. simpl.
      rewrite !app_nil_r. auto.
  - eexists. split; [reflexivity|]. cbn [trace api_calls generation_history].
    rewrite !backoff_delays_app, !generate_calls_app. simpl.
    rewrite !app_nil_r. auto.
Qed.

(** One turn of the retry loop. *)
Lemma attempts_cons (max_retries attempt : Z) (rest : list Z) (w : world) :
  exists w1,
    api_calls w1 = S (api_calls w)
    /\ backoff_delays (trace w1) = backoff_delays (trace w)
    /\ generate_calls (trace w1) = generate_calls (trace w) ++ [prompt]
    /\ generation_history w1
       = generation_history w
         ++ history_of E prompt output_dir filename_prefix style (api_calls w)
    /\ attempts E prompt output_dir filename_prefix style max_retries
                (attempt :: rest) w
       = match attempt_outcome E prompt output_dir filename_prefix (api_calls w) with
         | Ok image_path => (Ok image_path, w1)
         | Raise e =>
             let failed :=
               EvLog ERROR (Text ("Error generating image (attempt "
                                    ++ str_int (attempt + 1) ++ "): " ++ str e)) in
             if rate_limited e then
               let wait_time := Z.min (30 * (attempt + 1)) 120 in
               attempts E prompt output_dir filename_prefix style max_retries rest
                 (add_events w1
                    [failed;
                     EvLog INFO (Text ("Rate limit hit, waiting " ++ str_int wait_time
                                         ++ " seconds..."));
                     EvSleep Backoff wait_time])
             else if attempt =? max_retries - 1 then
               (Raise e, add_events w1 [failed])
             else
               attempts E prompt output_dir filename_prefix style max_retries rest
                 (add_events w1 [failed; EvSleep Backoff 5])
         end.
Proof.
  destruct (attempt_body_run max_retries attempt w) as (w1 & Hrun & Hc & Hs & Hg & Hh).
  exists w1. repeat (split; [assumption|]).
  cbn [attempts]. unfold try_. unfold bind at 1. rewrite Hrun.
  destruct (attempt_outcome E prompt output_dir filename_prefix (api_calls w)) as [p|e].
  - reflexivity.
  - cbv zeta. rewrite bind_log. fold (rate_limited e).
    destruct (rate_limited e).
    + rewrite bind_log, bind_sleep. unfold add_events.
      cbn [trace api_calls generation_history]. rewrite <- !app_assoc. reflexivity.
    + destruct (attempt =? max_retries - 1).
      * reflexivity.
      * rewrite bind_sleep. unfold add_events.
        cbn [trace api_calls generation_history]. rewrite <- !app_assoc. reflexivity.
Qed.

(** The loop shows what [retry_summary] computes. *)
Lemma attempts_summary (max_retries : Z) (todo : list Z) (w : world) :
  let run := attempts E prompt output_dir filename_prefix style max_retries todo w in
  let summary :=
    retry_summary max_retries todo
                  (attempt_outcome E prompt output_dir filename_prefix)
                  (api_calls w) in
  fst run = fst (fst summary)
  /\ backoff_delays (trace (snd run)) = backoff_delays (trace w) ++ snd (fst summary)
  /\ api_calls (snd run) = (api_calls w + snd summary)%nat
  /\ generate_calls (trace (snd run))
     = generate_calls (trace w) ++ repeat prompt (snd summary)
  /\ generation_history (snd run)
     = generation_history w
       ++ List.concat (map (history_of E prompt output_dir filename_prefix style)
                           (seq (api_calls w) (snd summary))).
Proof.
  cbv zeta. revert w; induction todo as [|attempt rest IH]; intros w.
  - simpl. rewrite !app_nil_r, Nat.add_0_r. auto.
  - destruct (attempts_cons max_retries attempt rest w)
      as (w1 & Hc & Hs & Hg & Hh & ->).
    cbn [retry_summary].
    destruct (attempt_outcome E prompt output_dir filename_prefix (api_calls w))
      as [image_path|e].
    + cbn [fst snd seq map List.concat repeat]. rewrite !app_nil_r.
      repeat split; try assumption. lia.
    + cbv zeta. destruct (rate_limited e).
      * match goal with |- context [add_events w1 ?evs] =>
          specialize (IH (add_events w1 evs)) end.
        cbn [add_events api_calls trace generation_history] in IH.
        rewrite Hc in IH.
        destruct (retry_summary max_retries rest _ (S (api_calls w)))
          as [[r delays] n].
        cbn [fst snd] in *.
        destruct IH as (-> & -> & -> & -> & ->).
        rewrite !backoff_delays_app, !generate_calls_app, Hs, Hg, Hh.
        cbn [backoff_delays generate_calls seq map List.concat repeat].
        rewrite <- !app_assoc. cbn [app].
        repeat split; try reflexivity. lia.
      * destruct (attempt =? max_retries - 1).
        -- cbn [fst snd add_events api_calls trace generation_history
                seq map List.concat repeat].
           rewrite backoff_delays_app, generate_calls_app, Hs, Hg, Hh, Hc.
           cbn [backoff_delays generate_calls]. rewrite !app_nil_r.
           repeat split; try reflexivity. lia.
        -- match goal with |- context [add_events w1 ?evs] =>
             specialize (IH (add_events w1 evs)) end.
           cbn [add_events api_calls trace generation_history] in IH.
           rewrite Hc in IH.
           destruct (retry_summary max_retries rest _ (S (api_calls w)))
             as [[r delays] n].
           cbn [fst snd] in *.
           destruct IH as (-> & -> & -> & -> & ->).
           rewrite !backoff_delays_app, !generate_calls_app, Hs, Hg, Hh.
           cbn [backoff_delays generate_calls seq map List.concat repeat].
           rewrite <- !app_assoc. cbn [app].
           repeat split; try reflexivity. lia.
Qed.

(** For any attempt budget, at most that many calls are made. *)
Lemma retry_summary_calls (max_retries : Z) (todo : list Z)
      (outcome : nat -> result string) (k : nat) :
  (snd (retry_summary max_retries todo outcome k) <= List.length todo)%nat.
Proof.
  revert k; induction todo as [|attempt rest IH]; intros k; simpl; [lia|].
  destruct (outcome k) as [|e]; simpl; [lia|].
  specialize (IH (S k)).
  destruct (rate_limited e).
  - destruct (retry_summary max_retries rest outcome (S k)) as [[r d] n].
    simpl in *. lia.
  - destruct (attempt =? max_retries - 1); simpl; [lia|].
    destruct (retry_summary max_retries rest outcome (S k)) as [[r d] n].
    simpl in *. lia.
Qed.

(** Whatever the budget, [generate_and_save_image] calls the service at
    most [max_retries] times. *)
Lemma generate_and_save_image_budget (max_retries : Z) (w : world) :
  (api_calls (snd (generate_and_save_image E prompt output_dir filename_prefix style
                                           max_retries w))
   <= api_calls w + Z.to_nat max_retries)%nat.
Proof.
  unfold generate_and_save_image.
  destruct (attempts_summary max_retries (range max_retries) w)
    as (_ & _ & -> & _).
  pose proof (retry_summary_calls max_retries (range max_retries)
                (attempt_outcome E prompt output_dir filename_prefix) (api_calls w)) as H.
  rewrite range_length in H. lia.
Qed.

End Retry.

Section RetryPolicy.

Ltac use_earlier :=
  repeat match goal with
         | H : forall j, (j < ?k)%nat -> is_ok (_ j) = false |- _ =>
             first [ pose proof (H 0%nat ltac:(lia)) | idtac ];
             first [ pose proof (H 1%nat ltac:(lia)) | idtac ];
             first [ pose proof (H 2%nat ltac:(lia)) | idtac ];
             clear H
         end.

Ltac solve_policy :=
  cbn [fst snd is_ok List.length nth_error] in *;
  repeat (first
            [ progress subst
            | match goal with
              | H : Ok _ = Ok _ |- _ => injection H as H
              | H : Raise _ = Raise _ |- _ => injection H as H
              | H : Ok _ = Raise _ |- _ => discriminate H
              | H : Raise _ = Ok _ |- _ => discriminate H
              | H : true = false |- _ => discriminate H
              | H : false = true |- _ => discriminate H
              | H : ?a = true, H' : ?a = false |- _ => rewrite H in H'; discriminate H'
              | |- _ /\ _ => split
              | |- exists _, _ => eexists
              | |- forall _, _ => intro
              end ]);
  try reflexivity; try lia; try congruence.

(** Three attempts, by cases on the three outcomes. *)
Lemma retry_summary_policy (outcome : nat -> result string) :
  let summary := retry_summary 3 [0; 1; 2] outcome 0 in
  retry_policy outcome (fst (fst summary)) (snd (fst summary)) (snd summary).
Proof.
  cbv zeta. unfold retry_policy. cbn [retry_summary].
  change (0 =? 3 - 1) with false. change (1 =? 3 - 1) with false.
  change (2 =? 3 - 1) with true.
  destruct (outcome 0%nat) as [p0|e0] eqn:O0;
    [|destruct (rate_limited e0) eqn:R0;
      (destruct (outcome 1%nat) as [p1|e1] eqn:O1;
       [|destruct (rate_limited e1) eqn:R1;
         (destruct (outcome 2%nat) as [p2|e2] eqn:O2;
          [|destruct (rate_limited e2) eqn:R2])])];
    cbn [fst snd];
    (split; [lia|]);
    (split; [intros k image_path Hk Hprev Hout;
             destruct k as [|[|[|k]]]; [| | |lia]; use_earlier;
             rewrite ?O0, ?O1, ?O2 in *; solve_policy|]);
    (split; [intros k e Hk Hprev Hout;
             destruct k as [|[|[|k]]]; [| | |lia]; use_earlier;
             rewrite ?O0, ?O1, ?O2 in *; solve_policy|]);
    (split; [intros k e e' Hk Hprev Hout Hrl Hout' Hrl';
             destruct k as [|[|k]]; [| |lia]; use_earlier;
             rewrite ?O0, ?O1, ?O2 in *; solve_policy|]);
    (intros Hall;
     pose proof (Hall 0%nat ltac:(lia));
     pose proof (Hall 1%nat ltac:(lia));
     pose proof (Hall 2%nat ltac:(lia));
     clear Hall;
     rewrite ?O0, ?O1, ?O2 in *; solve_policy).
Qed.

Lemma retry_summary_shift (max_retries : Z) (todo : list Z)
      (outcome : nat -> result string) (c k : nat) :
  retry_summary max_retries todo outcome (c + k)
  = retry_summary max_retries todo (fun j => outcome (c + j)%nat) k.
Proof.
  revert k; induction todo as [|attempt rest IH]; intros k; simpl; [reflexivity|].
  destruct (outcome (c + k)%nat) as [|e]; [reflexivity|].
  rewrite <- IH, Nat.add_succ_r. reflexivity.
Qed.

End RetryPolicy.

(** The retry policy of the code. One call of [generate_and_save_image]
    with the default budget makes at most three attempts. A failure
    classified as rate limiting is followed by a delay of
    [min(30 * attemptNumber, 120)] seconds; any other failure is followed by
    a delay of 5 seconds before the retry, and on the last attempt, where no
    retry follows, it is raised again at once: the call's error reaches the
    caller. When the service fails twice with a rate-limit error and then
    answers, the call returns the one saved picture after exactly three
    calls and the delays 30 and 60. *)
Lemma generate_and_save_image_retry_policy
        (E : env) (prompt output_dir filename_prefix style : string) (w : world) :
  let c := api_calls w in
  let run := generate_and_save_image E prompt output_dir filename_prefix style
                                     default_max_retries w in
  let n := (api_calls (snd run) - c)%nat in
  exists delays,
    backoff_delays (trace (snd run)) = backoff_delays (trace w) ++ delays
    /\ generate_calls (trace (snd run)) = generate_calls (trace w) ++ repeat prompt n
    /\ generation_history (snd run)
       = generation_history w
         ++ List.concat (map (history_of E prompt output_dir filename_prefix style)
                             (seq c n))
    /\ retry_policy (fun k => attempt_outcome E prompt output_dir filename_prefix
                                              (c + k)%nat)
                    (fst run) delays n
    /\ (forall e1 e2 url revised image_path,
          images_generate E c prompt = Raise e1 -> rate_limited e1 = true ->
          images_generate E (c + 1)%nat prompt = Raise e2 -> rate_limited e2 = true ->
          images_generate E (c + 2)%nat prompt = Ok (url, revised) ->
          download_outcome E (c + 2)%nat url output_dir filename_prefix = Ok image_path ->
          open_w E (path_join output_dir (filename_prefix ++ "_prompt.txt")) = Ok tt ->
          fst run = Ok image_path
          /\ n = 3%nat
          /\ delays = [30; 60]
          /\ generation_history (snd run)
             = generation_history w ++ [mk_history prompt revised image_path style]).
Proof.
  cbv zeta. unfold generate_and_save_image, default_max_retries.
  change (range 3) with [0; 1; 2].
  pose proof (attempts_summary E prompt output_dir filename_prefix style 3 [0; 1; 2] w)
    as H. cbv zeta in H.
  destruct H as (Hr & Hs & Hc & Hg & Hh).
  pose proof (retry_summary_shift 3 [0; 1; 2]
                (attempt_outcome E prompt output_dir filename_prefix)
                (api_calls w) 0) as Hshift.
  rewrite Nat.add_0_r in Hshift.
  rewrite Hshift in Hr, Hs, Hc, Hg, Hh. clear Hshift.
  pose proof (retry_summary_policy
                (fun k => attempt_outcome E prompt output_dir filename_prefix
                                          (api_calls w + k)%nat)) as Hp.
  cbv zeta in Hp.
  set (summary := retry_summary 3 [0; 1; 2] _ 0) in *.
  assert (Hn : Nat.sub (api_calls (snd (attempts E prompt output_dir filename_prefix
                                                  style 3 [0; 1; 2] w)))
                        (api_calls w)
               = snd summary) by (rewrite Hc; lia).
  rewrite Hn, Hr.
  exists (snd (fst summary)).
  split; [exact Hs|]. split; [exact Hg|]. split; [exact Hh|]. split; [exact Hp|].
  intros e1 e2 url revised image_path G1 R1 G2 R2 G3 D3 W3.
  rewrite Hh.
  assert (O1 : attempt_outcome E prompt output_dir filename_prefix (api_calls w + 0)
               = Raise e1)
    by (unfold attempt_outcome; rewrite Nat.add_0_r, G1; reflexivity).
  assert (O2 : attempt_outcome E prompt output_dir filename_prefix (api_calls w + 1)
               = Raise e2)
    by (unfold attempt_outcome; rewrite G2; reflexivity).
  assert (O3 : attempt_outcome E prompt output_dir filename_prefix (api_calls w + 2)
               = Ok image_path)
    by (unfold attempt_outcome; rewrite G3, D3, W3; reflexivity).
  subst summary. cbn [retry_summary].
  rewrite O1, R1, O2, R2, O3. cbn [fst snd seq map List.concat].
  unfold history_of.
  replace (S (api_calls w)) with (api_calls w + 1)%nat by lia.
  replace (S (api_calls w + 1)) with (api_calls w + 2)%nat by lia.
  rewrite G1, G2, G3, D3. cbn [app]. auto.
Qed.

(** The stub that fails twice with a rate-limit error and then answers. *)
Lemma generate_and_save_image_retry_policy_witness :
  fst (generate_and_save_image rate_limited_twice_env "a prompt" "out" "scene_001"
                               "Cinematic" default_max_retries initial_world)
  = Ok "out/scene_001_1700000000.png"
  /\ api_calls (snd (generate_and_save_image rate_limited_twice_env "a prompt" "out"
                       "scene_001" "Cinematic" default_max_retries initial_world))
     = 3%nat
  /\ backoff_delays (trace (snd (generate_and_save_image rate_limited_twice_env "a prompt" "out"
                           "scene_001" "Cinematic" default_max_retries initial_world)))
     = [30; 60]
  /\ generation_history
       (snd (generate_and_save_image rate_limited_twice_env "a prompt" "out"
               "scene_001" "Cinematic" default_max_retries initial_world))
     = [mk_history "a prompt" "revised" "out/scene_001_1700000000.png" "Cinematic"].
Proof.
  destruct (generate_and_save_image_retry_policy rate_limited_twice_env "a prompt"
              "out" "scene_001" "Cinematic" initial_world)
    as (delays & Hs & _ & _ & _ & Hscenario).
  destruct (Hscenario (mk_exn Exception "Error code: 429 - rate_limit_exceeded")
                      (mk_exn Exception "Error code: 429 - rate_limit_exceeded")
                      "https://img.example/1.png" "revised"
                      "out/scene_001_1700000000.png"
                      eq_refl eq_refl eq_refl eq_refl eq_refl eq_refl eq_refl)
    as (Hr & Hn & Hd & Hh).
  split; [exact Hr|].
  split; [exact (eq_trans (eq_sym (Nat.sub_0_r _)) Hn)|].
  split; [exact (eq_trans Hs (f_equal (app []) Hd))|].
  exact Hh.
Defined.

(** Three failures that are not rate limits: a delay of 5 seconds precedes
    each retry, and the guard of the last attempt raises the third failure
    again at once, so that the call's own error reaches the caller. *)
Example three_other_failures :
  rate_limited (mk_exn Exception "Connection error.") = false
  /\ generate_and_save_image always_failing_env "a prompt" "out" "scene_001"
                             "Cinematic" default_max_retries initial_world
     = (Raise (mk_exn Exception "Connection error."),
        mk_world
          [EvLog INFO (Text "Generating image with DALL-E (attempt 1/3)");
           EvImagesGenerate "a prompt";
           EvLog ERROR (Text "Error generating image (attempt 1): Connection error.");
           EvSleep Backoff 5;
           EvLog INFO (Text "Generating image with DALL-E (attempt 2/3)");
           EvImagesGenerate "a prompt";
           EvLog ERROR (Text "Error generating image (attempt 2): Connection error.");
           EvSleep Backoff 5;
           EvLog INFO (Text "Generating image with DALL-E (attempt 3/3)");
           EvImagesGenerate "a prompt";
           EvLog ERROR (Text "Error generating image (attempt 3): Connection error.")]
          3 [])
  /\ backoff_delays (trace (snd (generate_and_save_image always_failing_env "a prompt" "out"
                           "scene_001" "Cinematic" default_max_retries initial_world)))
     = [5; 5]
  /\ nth_error
       (backoff_delays (trace (snd (generate_and_save_image always_failing_env "a prompt" "out"
                              "scene_001" "Cinematic" default_max_retries
                              initial_world)))) 2
     = None.
Proof. repeat split; vm_compute; reflexivity. Qed.

(** The same stub under the loop of [process_ai_images], for one segment:
    exactly one artifact, after exactly three calls of the service. *)
Example rate_limited_twice_one_artifact :
  fst (generate_all rate_limited_twice_env five_params ["one two"] [0%Q] 10
                    initial_world)
  = Ok [mk_image "out/scene_001_1700000000.png" 0 (10 - 0)]
  /\ api_calls (snd (generate_all rate_limited_twice_env five_params ["one two"] [0%Q]
                                  10 initial_world))
     = 3%nat
  /\ backoff_delays (trace (snd (generate_all rate_limited_twice_env five_params
                                              ["one two"] [0%Q] 10 initial_world)))
     = [30; 60].
Proof. repeat split; vm_compute; reflexivity. Qed.

(** C1 on the code. When each of the three attempts fails with an error
    classified as rate limiting, the call sleeps 30 and 60 seconds before
    the retries and then, after the third and last failure, 90 seconds more
    although no attempt follows: the sleep is the last thing it does. What
    it raises then is not the call's error but a new
    [Exception("Failed to generate image after all retries")]. *)
Theorem generate_and_save_image_rate_limited_budget
        (E : env) (prompt output_dir filename_prefix style : string) (w : world)
        (e1 e2 e3 : exn) :
  let c := api_calls w in
  let run := generate_and_save_image E prompt output_dir filename_prefix style
                                     default_max_retries w in
  attempt_outcome E prompt output_dir filename_prefix c = Raise e1 ->
  rate_limited e1 = true ->
  attempt_outcome E prompt output_dir filename_prefix (S c) = Raise e2 ->
  rate_limited e2 = true ->
  attempt_outcome E prompt output_dir filename_prefix (S (S c)) = Raise e3 ->
  rate_limited e3 = true ->
  fst run = Raise (mk_exn Exception "Failed to generate image after all retries")
  /\ fst run <> Raise e3
  /\ api_calls (snd run) = (c + 3)%nat
  /\ generate_calls (trace (snd run))
     = generate_calls (trace w) ++ [prompt; prompt; prompt]
  /\ backoff_delays (trace (snd run)) = backoff_delays (trace w) ++ [30; 60; 90]
  /\ exists earlier,
       trace (snd run)
       = earlier
         ++ [EvLog ERROR (Text ("Error generating image (attempt 3): " ++ str e3));
             EvLog INFO (Text "Rate limit hit, waiting 90 seconds...");
             EvSleep Backoff 90].
Proof.
  cbv zeta. intros O1 R1 O2 R2 O3 R3.
  unfold generate_and_save_image, default_max_retries. change (range 3) with [0; 1; 2].
  destruct (attempts_cons E prompt output_dir filename_prefix style 3 0 [1; 2] w)
    as (w1 & Hc1 & Hs1 & Hg1 & _ & ->).
  rewrite O1. cbv zeta. rewrite R1.
  match goal with |- context [attempts _ _ _ _ _ _ _ ?w0] =>
    destruct (attempts_cons E prompt output_dir filename_prefix style 3 1 [2] w0)
      as (w2 & Hc2 & Hs2 & Hg2 & _ & ->) end.
  cbn [add_events api_calls trace] in Hc2, Hs2, Hg2 |- *.
  rewrite Hc1, O2. cbv zeta. rewrite R2.
  match goal with |- context [attempts _ _ _ _ _ _ _ ?w0] =>
    destruct (attempts_cons E prompt output_dir filename_prefix style 3 2 [] w0)
      as (w3 & Hc3 & Hs3 & Hg3 & _ & ->) end.
  cbn [add_events api_calls trace] in Hc3, Hs3, Hg3 |- *.
  rewrite Hc2, Hc1, O3. cbv zeta. rewrite R3.
  cbn [attempts raise fst snd add_events api_calls trace].
  split; [reflexivity|].
  split.
  { intros Heq. injection Heq as <-. discriminate R3. }
  split; [rewrite Hc3, Hc2, Hc1; lia|].
  rewrite generate_calls_app, backoff_delays_app, Hg3, Hs3.
  rewrite generate_calls_app, backoff_delays_app, Hg2, Hs2.
  rewrite generate_calls_app, backoff_delays_app, Hg1, Hs1.
  cbn [generate_calls backoff_delays]. rewrite !app_nil_r, <- !app_assoc.
  split; [reflexivity|]. split; [reflexivity|].
  exists (trace w3). reflexivity.
Qed.

(** The image service answers every call with a rate-limit error. *)
Lemma generate_and_save_image_rate_limited_budget_witness :
  let e := mk_exn Exception "Error code: 429 - rate_limit_exceeded" in
  let run := generate_and_save_image always_rate_limited_env "a prompt" "out"
                                     "scene_001" "Cinematic" default_max_retries
                                     initial_world in
  (forall k, attempt_outcome always_rate_limited_env "a prompt" "out" "scene_001" k
             = Raise e)
  /\ rate_limited e = true
  /\ fst run = Raise (mk_exn Exception "Failed to generate image after all retries")
  /\ fst run <> Raise e
  /\ api_calls (snd run) = 3%nat
  /\ generate_calls (trace (snd run)) = ["a prompt"; "a prompt"; "a prompt"]
  /\ backoff_delays (trace (snd run)) = [30; 60; 90]
  /\ exists earlier,
       trace (snd run)
       = earlier
         ++ [EvLog ERROR (Text ("Error generating image (attempt 3): " ++ str e));
             EvLog INFO (Text "Rate limit hit, waiting 90 seconds...");
             EvSleep Backoff 90].
Proof.
  cbv zeta. split; [intros k; reflexivity|]. split; [reflexivity|].
  exact (generate_and_save_image_rate_limited_budget always_rate_limited_env "a prompt"
           "out" "scene_001" "Cinematic" initial_world
           (mk_exn Exception "Error code: 429 - rate_limit_exceeded")
           (mk_exn Exception "Error code: 429 - rate_limit_exceeded")
           (mk_exn Exception "Error code: 429 - rate_limit_exceeded")
           eq_refl eq_refl eq_refl eq_refl eq_refl eq_refl).
Defined.

(* ================================================================== *)
(** * Generating every segment *)
(* ================================================================== *)

Section GenerateAll.

Variable E : env.
Variable params : ai_params.

(** Three attempts come to the first success among them. *)
Lemma retry_summary_first_success (outcome : nat -> result string) (c : nat) :
  let summary := retry_summary 3 [0; 1; 2] outcome c in
  snd summary = snd (first_success outcome c)
  /\ match fst (first_success outcome c) with
     | Some image_path => fst (fst summary) = Ok image_path
     | None => exists e, fst (fst summary) = Raise e
     end.
Proof.
  cbv zeta. unfold first_success. cbn [retry_summary].
  change (0 =? 3 - 1) with false. change (1 =? 3 - 1) with false.
  change (2 =? 3 - 1) with true.
  destruct (outcome c) as [p0|e0]; [cbn; auto|].
  destruct (outcome (S c)) as [p1|e1]; [destruct (rate_limited e0); cbn; auto|].
  destruct (outcome (S (S c))) as [p2|e2];
    destruct (rate_limited e0), (rate_limited e1); try destruct (rate_limited e2);
    cbn; eauto.
Qed.

(** One generation call under the default budget. *)
Lemma generate_and_save_image_first_success
      (prompt output_dir filename_prefix style : string) (w : world) :
  let run := generate_and_save_image E prompt output_dir filename_prefix style
                                     default_max_retries w in
  let call := first_success (attempt_outcome E prompt output_dir filename_prefix)
                            (api_calls w) in
  api_calls (snd run) = (api_calls w + snd call)%nat
  /\ match fst call with
     | Some image_path => fst run = Ok image_path
     | None => exists e, fst run = Raise e
     end.
Proof.
  cbv zeta. unfold generate_and_save_image, default_max_retries.
  change (range 3) with [0; 1; 2].
  destruct (attempts_summary E prompt output_dir filename_prefix style 3 [0; 1; 2] w)
    as (-> & _ & -> & _).
  destruct (retry_summary_first_success
              (attempt_outcome E prompt output_dir filename_prefix) (api_calls w))
    as [-> H].
  split; [reflexivity | exact H].
Qed.

Lemma index_nth {A} (l : list A) (i : Z) (d : A) :
  0 <= i < len l -> index l i = Some (nth (Z.to_nat i) l d).
Proof.
  intros Hi. unfold index. cbv zeta.
  destruct (Z.ltb_spec i 0); [lia|].
  destruct (Z.ltb_spec i 0); [lia|].
  apply nth_error_nth'. unfold len in Hi. lia.
Qed.

(** The body of the [try] for one segment: a record when the call
    returns, the call's error otherwise. *)
Lemma generate_one_run (timestamps : list Q) (duration : Q) (i : Z)
      (segment : string) (ts : Q) (w : world) :
  0 <= i ->
  let call := first_success (attempt_outcome E (scene_prompt params i segment)
                                             (p_output_dir params) (scene_prefix i))
                            (api_calls w) in
  exists r w',
    generate_one E params timestamps duration i segment ts w = (r, w')
    /\ api_calls w' = (api_calls w + snd call)%nat
    /\ match fst call with
       | Some image_path => r = Ok (artifact timestamps duration i ts image_path)
       | None => exists e, r = Raise e
       end.
Proof.
  intros Hi. cbv zeta.
  pose proof (generate_and_save_image_first_success
                (scene_prompt params i segment) (p_output_dir params)
                (scene_prefix i) (p_style params) w) as H.
  cbv zeta in H. unfold scene_prompt, scene_prefix in *. unfold generate_one.
  destruct (generate_and_save_image E _ _ _ _ _ w) as [[image_path|e] w0] eqn:Hrun;
    cbn [fst snd] in H; destruct H as [Hcalls Hres].
  - rewrite (bind_ok _ _ _ _ _ Hrun).
    destruct (fst (first_success _ _)) as [p|];
      [injection Hres as -> | destruct Hres as [e He]; discriminate He].
    unfold artifact.
    destruct (Z.ltb_spec i (len timestamps - 1)).
    + rewrite (index_nth timestamps (i + 1) 0%Q) by lia.
      rewrite bind_lift_ok, bind_emit. eexists _, _. split; [reflexivity|].
      split; [exact Hcalls | reflexivity].
    + rewrite bind_lift_ok, bind_emit. eexists _, _. split; [reflexivity|].
      split; [exact Hcalls | reflexivity].
  - rewrite (bind_raise _ _ _ _ _ Hrun).
    destruct (fst (first_success _ _)) as [p|]; [discriminate Hres|].
    eexists _, _. split; [reflexivity|]. split; [exact Hcalls | eauto].
Qed.

(** The loop produces the artifacts of the segments whose call returns, in
    segment order, and never raises. *)
Lemma generate_images_run (timestamps : list Q) (duration : Q)
      (items : list (Z * (string * Q))) (generated : list image_record) (w : world) :
  (forall item, In item items -> 0 <= fst item) ->
  exists w',
    generate_images E params timestamps duration items generated w
    = (Ok (generated
             ++ kept_artifacts E params timestamps duration items (api_calls w)), w').
Proof.
  revert generated w; induction items as [|[i [segment ts]] rest IH];
    intros generated w Hpos; cbn [generate_images kept_artifacts].
  - exists w. now rewrite app_nil_r.
  - assert (Hpos' : forall item, In item rest -> 0 <= fst item)
      by (intros item Hin; exact (Hpos item (or_intror Hin))).
    destruct (cancelled_at E i).
    + rewrite bind_status. eexists. now rewrite app_nil_r.
    + rewrite bind_status. unfold try_. unfold bind at 1.
      match goal with |- context [generate_one E params timestamps duration i segment ts ?w0] =>
        destruct (generate_one_run timestamps duration i segment ts w0
                    (Hpos (i, (segment, ts)) (or_introl eq_refl)))
          as (r & w1 & -> & Hcalls & Hres) end.
      cbn [api_calls] in Hcalls, Hres.
      destruct (first_success _ (api_calls w)) as [[image_path|] n]; cbn [fst snd] in *.
      * subst r. rewrite bind_emit.
        match goal with |- context [generate_images E params timestamps duration rest ?g ?w0] =>
          destruct (IH g w0 Hpos') as [w' ->] end.
        cbn [api_calls]. rewrite Hcalls, <- app_assoc. exists w'. reflexivity.
      * destruct Hres as [e ->]. rewrite bind_status.
        match goal with |- context [generate_images E params timestamps duration rest ?g ?w0] =>
          destruct (IH g w0 Hpos') as [w' ->] end.
        cbn [api_calls]. rewrite Hcalls. exists w'. reflexivity.
Qed.

Lemma enumerate_nonneg {A} (l : list A) (item : Z * A) :
  In item (enumerate l) -> 0 <= fst item.
Proof.
  destruct item as [i x]. unfold enumerate, range. intros Hin.
  apply in_combine_l in Hin. apply in_map_iff in Hin as (j & <- & _).
  simpl. lia.
Qed.

End GenerateAll.

(** C2. In the per-segment loop of [process_ai_images], whatever the image
    service, the downloads and the file system do, a segment whose
    generation call fails on all three attempts is skipped and the run goes
    on with the next segment: the loop never raises, and it returns exactly
    the artifacts of the segments whose call returned, in segment order.
    The session metadata file is written last and lists exactly these
    artifacts, however many there are. *)
Theorem generate_all_skips_failed_segments
        (E : env) (params : ai_params) (segments : list string)
        (timestamps : list Q) (duration : Q) (w : world) :
  open_w E (metadata_path params) = Ok tt ->
  let generated :=
    kept_artifacts E params timestamps duration
                   (enumerate (combine segments timestamps)) (api_calls w) in
  exists w' earlier,
    generate_all E params segments timestamps duration w = (Ok generated, w')
    /\ trace w' = earlier ++ [session_metadata params duration generated].
Proof.
  intros Hopen. cbv zeta.
  destruct (generate_images_run E params timestamps duration
              (enumerate (combine segments timestamps)) [] w
              (enumerate_nonneg (combine segments timestamps)))
    as (w1 & Hrun).
  unfold generate_all. rewrite (bind_ok _ _ _ _ _ Hrun).
  unfold write_file. rewrite bind_assoc, Hopen, bind_lift_ok, bind_emit.
  eexists _, _. split; reflexivity.
Qed.

(** Five segments, the third failing on each of its three attempts, once
    refused by the service and once rate limited: four artifacts, for the
    segments 1, 2, 4 and 5 in this order, and the metadata lists them. *)
Lemma generate_all_skips_failed_segments_witness :
  (open_w third_scene_fails_env (metadata_path five_params) = Ok tt
   /\ map path (kept_artifacts third_scene_fails_env five_params five_timestamps 10
                               (enumerate (combine five_segments five_timestamps)) 0)
      = ["out/scene_001_1700000000.png"; "out/scene_002_1700000000.png";
         "out/scene_004_1700000000.png"; "out/scene_005_1700000000.png"]
   /\ exists w' earlier,
        generate_all third_scene_fails_env five_params five_segments five_timestamps
                     10 initial_world
        = (Ok (kept_artifacts third_scene_fails_env five_params five_timestamps 10
                              (enumerate (combine five_segments five_timestamps)) 0),
           w')
        /\ trace w'
           = earlier
             ++ [session_metadata five_params 10
                   (kept_artifacts third_scene_fails_env five_params five_timestamps 10
                                   (enumerate (combine five_segments five_timestamps))
                                   0)])
  /\ (open_w third_scene_rate_limited_env (metadata_path five_params) = Ok tt
      /\ map path (kept_artifacts third_scene_rate_limited_env five_params
                                  five_timestamps 10
                                  (enumerate (combine five_segments five_timestamps)) 0)
         = ["out/scene_001_1700000000.png"; "out/scene_002_1700000000.png";
            "out/scene_004_1700000000.png"; "out/scene_005_1700000000.png"]
      /\ exists w' earlier,
           generate_all third_scene_rate_limited_env five_params five_segments
                        five_timestamps 10 initial_world
           = (Ok (kept_artifacts third_scene_rate_limited_env five_params
                                 five_timestamps 10
                                 (enumerate (combine five_segments five_timestamps)) 0),
              w')
           /\ trace w'
              = earlier
                ++ [session_metadata five_params 10
                      (kept_artifacts third_scene_rate_limited_env five_params
                                      five_timestamps 10
                                      (enumerate (combine five_segments five_timestamps))
                                      0)]).
Proof.
  split.
  - split; [reflexivity|]. split; [reflexivity|].
    exact (generate_all_skips_failed_segments third_scene_fails_env five_params
             five_segments five_timestamps 10 initial_world eq_refl).
  - split; [reflexivity|]. split; [reflexivity|].
    exact (generate_all_skips_failed_segments third_scene_rate_limited_env five_params
             five_segments five_timestamps 10 initial_world eq_refl).
Defined.

(** The two runs in full. Refused: the service is called once for each of
    the segments 1, 2, 4, 5 and three times for the third, which costs two
    delays of 5 seconds. Rate limited: the same calls, and the third
    segment costs the delays 30, 60 and 90. *)
Example five_segments_third_failing :
  api_calls (snd (generate_all third_scene_fails_env five_params five_segments
                               five_timestamps 10 initial_world))
  = 7%nat
  /\ backoff_delays (trace (snd (generate_all third_scene_fails_env five_params
                                              five_segments five_timestamps 10
                                              initial_world)))
     = [5; 5]
  /\ api_calls (snd (generate_all third_scene_rate_limited_env five_params five_segments
                                  five_timestamps 10 initial_world))
     = 7%nat
  /\ backoff_delays (trace (snd (generate_all third_scene_rate_limited_env five_params
                                              five_segments five_timestamps 10
                                              initial_world)))
     = [30; 60; 90].
Proof. repeat split; vm_compute; reflexivity. Qed.

(* ================================================================== *)
(** * The duration without FFmpeg *)
(* ================================================================== *)

Section FallbackDuration.

Variable E : env.

Lemma size_estimate_run (audio_path : string) (w : world) :
  size_estimate E audio_path w
  = match getsize E audio_path with
    | Ok size =>
        let d := (inject_Z (size * 8) / inject_Z (128 * 1000))%Q in
        (Ok d, add_events w [approximate_flag d])
    | Raise e =>
        (Raise (mk_exn RuntimeError
           "Cannot determine audio duration - FFmpeg is required for accurate audio processing"),
         add_events w [EvLog ERROR (Text ("All duration methods failed: " ++ str e))])
    end.
Proof.
  unfold size_estimate. destruct (getsize E audio_path) as [size|e].
  - cbv zeta. rewrite bind_log. reflexivity.
  - rewrite bind_log. reflexivity.
Qed.

(** With no WAV header to read, the method is its size estimate. *)
Lemma get_duration_fallback_estimates (audio_path : string) (w : world) :
  header_fails E audio_path = true ->
  exists w1, get_duration_fallback E audio_path w = size_estimate E audio_path w1.
Proof.
  unfold header_fails, get_duration_fallback. intros Hh. rewrite bind_log.
  destruct (endswith (lower audio_path) ".wav"); [|eexists; reflexivity].
  destruct (wav_duration E audio_path); [discriminate|].
  rewrite bind_log. eexists. reflexivity.
Qed.

End FallbackDuration.

(** X1. [get_duration_fallback] never looks whether the file exists: it
    returns the WAV header's duration when there is one, otherwise the
    estimate [size * 8 / 128000] for every extension, flagged by a warning;
    it raises only when the size cannot be read, and then a RuntimeError,
    never the FileNotFoundError of [get_duration]. *)
Theorem get_duration_fallback_contract (E : env) (audio_path : string) (w : world) :
  let run := get_duration_fallback E audio_path w in
  (header_fails E audio_path = false ->
   exists d, wav_duration E audio_path = Ok d /\ fst run = Ok d)
  /\ (header_fails E audio_path = true ->
      forall size, getsize E audio_path = Ok size ->
        let d := (inject_Z (size * 8) / inject_Z (128 * 1000))%Q in
        fst run = Ok d
        /\ exists earlier, trace (snd run) = earlier ++ [approximate_flag d])
  /\ (header_fails E audio_path = true ->
      forall e, getsize E audio_path = Raise e ->
        fst run
        = Raise (mk_exn RuntimeError
            "Cannot determine audio duration - FFmpeg is required for accurate audio processing"))
  /\ (forall e, fst run = Raise e -> exn_cls e = RuntimeError).
Proof.
  cbv zeta. unfold get_duration_fallback, header_fails.
  rewrite bind_log.
  destruct (endswith (lower audio_path) ".wav"); cbn [negb orb].
  - destruct (wav_duration E audio_path) as [d|e0]; cbn [is_ok negb].
    + rewrite bind_log. cbn [ret fst snd].
      split; [intros _; eexists; split; reflexivity|].
      split; [discriminate|]. split; [discriminate|]. discriminate.
    + rewrite bind_log, size_estimate_run.
      split; [discriminate|].
      destruct (getsize E audio_path) as [size|e1]; cbn [fst snd].
      * split; [|split; [intros _ e H; discriminate | discriminate]].
        intros _ size' H. injection H as <-. split; [reflexivity|].
        eexists. reflexivity.
      * split; [intros _ size H; discriminate|].
        split; [reflexivity|]. intros e H. injection H as <-. reflexivity.
  - rewrite size_estimate_run.
    split; [discriminate|].
    destruct (getsize E audio_path) as [size|e1]; cbn [fst snd].
    + split; [|split; [intros _ e H; discriminate | discriminate]].
      intros _ size' H. injection H as <-. split; [reflexivity|].
      eexists. reflexivity.
    + split; [intros _ size H; discriminate|].
      split; [reflexivity|]. intros e H. injection H as <-. reflexivity.
Qed.

(** A 160000-byte MP3 without FFmpeg is estimated at 10 s; where no file
    exists, the method raises RuntimeError. *)
Lemma get_duration_fallback_contract_witness :
  (header_fails small_file_env "voice.mp3" = true
   /\ getsize small_file_env "voice.mp3" = Ok 160000
   /\ fst (get_duration_fallback small_file_env "voice.mp3" initial_world)
      = Ok (inject_Z (160000 * 8) / inject_Z (128 * 1000))%Q)
  /\ (header_fails missing_file_env "voice.mp3" = true
      /\ fst (get_duration_fallback missing_file_env "voice.mp3" initial_world)
         = Raise (mk_exn RuntimeError
             "Cannot determine audio duration - FFmpeg is required for accurate audio processing")).
Proof.
  split.
  - assert (H1 : header_fails small_file_env "voice.mp3" = true) by reflexivity.
    assert (H2 : getsize small_file_env "voice.mp3" = Ok 160000) by reflexivity.
    split; [exact H1|]. split; [exact H2|].
    exact (proj1 (proj1 (proj2 (get_duration_fallback_contract small_file_env "voice.mp3"
                                                             initial_world))
                        H1 160000 H2)).
  - assert (H1 : header_fails missing_file_env "voice.mp3" = true) by reflexivity.
    split; [exact H1|].
    exact (proj1 (proj2 (proj2 (get_duration_fallback_contract missing_file_env "voice.mp3"
                                                              initial_world)))
                 H1 _ eq_refl).
Defined.

(** X2. On a file for which both methods come down to the size estimate,
    [get_duration_fallback] and [get_duration] agree, except on an [.m4a]
    file: there [get_duration] assumes 256 kbps and the fallback 128 kbps,
    so the fallback's duration is twice the other. *)
Theorem fallback_assumes_one_bitrate (E : env) (audio_path : string) (size : Z)
        (w w' : world) :
  path_exists E audio_path = true ->
  header_fails E audio_path = true ->
  decoder_fails E audio_path = true ->
  getsize E audio_path = Ok size ->
  exists d d',
    fst (get_duration E audio_path w) = Ok d
    /\ fst (get_duration_fallback E audio_path w') = Ok d'
    /\ (if endswith (lower audio_path) ".m4a" then (d' == 2 * d)%Q else d' = d).
Proof.
  intros Hex Hh Hd Hsize.
  destruct (get_duration_falls_back E audio_path w Hex Hh Hd) as [w1 Hrun].
  pose proof (fallback_estimate_run E audio_path w1) as Hest.
  rewrite Hsize in Hest. rewrite Hest in Hrun.
  destruct (get_duration_fallback_estimates E audio_path w' Hh) as [w2 Hfb].
  rewrite size_estimate_run, Hsize in Hfb.
  eexists. eexists. split; [rewrite Hrun; reflexivity|].
  split; [rewrite Hfb; reflexivity|].
  rewrite estimate_from_size_eq. unfold assumed_bitrate.
  destruct (endswith (lower audio_path) ".m4a"); [|reflexivity].
  change (inject_Z (128 * 1000)) with (128000 # 1).
  change (inject_Z (256 * 1000)) with (256000 # 1).
  generalize (inject_Z (size * 8)). intros x. field.
Qed.

(** The same 160000 bytes named [voice.m4a]: 5 s by [get_duration], 10 s
    by the fallback. *)
Lemma fallback_assumes_one_bitrate_witness :
  path_exists small_file_env "voice.m4a" = true
  /\ header_fails small_file_env "voice.m4a" = true
  /\ decoder_fails small_file_env "voice.m4a" = true
  /\ getsize small_file_env "voice.m4a" = Ok 160000
  /\ exists d d',
       fst (get_duration small_file_env "voice.m4a" initial_world) = Ok d
       /\ fst (get_duration_fallback small_file_env "voice.m4a" initial_world) = Ok d'
       /\ (if endswith (lower "voice.m4a") ".m4a" then (d' == 2 * d)%Q else d' = d).
Proof.
  assert (H1 : path_exists small_file_env "voice.m4a" = true) by reflexivity.
  assert (H2 : header_fails small_file_env "voice.m4a" = true) by reflexivity.
  assert (H3 : decoder_fails small_file_env "voice.m4a" = true) by reflexivity.
  assert (H4 : getsize small_file_env "voice.m4a" = Ok 160000) by reflexivity.
  repeat (split; [assumption|]).
  exact (fallback_assumes_one_bitrate small_file_env "voice.m4a" 160000
           initial_world initial_world H1 H2 H3 H4).
Defined.

(* ================================================================== *)
(** * Cost estimate, style table and prompts *)
(* ================================================================== *)

Section CostAndPrompts.

Lemma standard_price (q : string) :
  String.eqb q "hd" = false ->
  get_default (get_default pricing q []) "1024x1024" (40 # 1000) = 40 # 1000.
Proof.
  intros Hhd. unfold get_default, pricing. cbn [lookup].
  rewrite (String.eqb_sym "standard" q), (String.eqb_sym "hd" q), Hhd.
  destruct (String.eqb q "standard"); reflexivity.
Qed.

Lemma startswith_here (p t : string) : startswith p (p ++ t) = true.
Proof.
  induction p as [|c p IH]; simpl; [reflexivity|].
  now rewrite Ascii.eqb_refl, IH.
Qed.

Lemma startswith_app_cancel (a p s : string) :
  startswith (a ++ p) (a ++ s) = startswith p s.
Proof.
  induction a as [|c a IH]; simpl; [reflexivity|].
  now rewrite Ascii.eqb_refl, IH.
Qed.

Lemma startswith_app_l (p s t : string) :
  startswith p s = true -> startswith p (s ++ t) = true.
Proof.
  revert s; induction p as [|c p IH]; intros s H; [reflexivity|].
  destruct s as [|d s]; [discriminate|]. simpl in *.
  apply andb_prop in H as [-> H]. simpl. now apply IH.
Qed.

Lemma contains_startswith (p s : string) :
  startswith p s = true -> contains p s = true.
Proof. intros H. destruct s; simpl in *; now rewrite H. Qed.

Lemma contains_here (p t : string) : contains p (p ++ t) = true.
Proof. apply contains_startswith, startswith_here. Qed.

Lemma contains_app_r (p s t : string) :
  contains p t = true -> contains p (s ++ t) = true.
Proof.
  intros H. induction s as [|c s IH]; simpl; [exact H|].
  rewrite IH. apply orb_true_r.
Qed.

Lemma contains_app_l (p s t : string) :
  contains p s = true -> contains p (s ++ t) = true.
Proof.
  induction s as [|c s IH]; intros H.
  - simpl in H. rewrite orb_false_r in H.
    destruct p; [|discriminate]. destruct t; reflexivity.
  - simpl in H. apply orb_prop in H as [H|H].
    + apply contains_startswith.
      now apply (startswith_app_l p (String c s) t).
    + change (String c s ++ t)%string with (String c (s ++ t)%string).
      simpl. rewrite (IH H). apply orb_true_r.
Qed.

End CostAndPrompts.

(** X3. [estimate_cost] charges 0.08 per image for the quality "hd" and
    0.04 for every other quality string, known or not; the total is the
    count times that price (negative for a negative count), so an "hd"
    batch costs twice a standard one, and for any quality but "hd" the
    total is the [count * 0.04] the main window displays. *)
Theorem estimate_cost_prices (n : Z) (q : string) :
  let c := estimate_cost n q in
  cost_per_image c = (if String.eqb q "hd" then 80 # 1000 else 40 # 1000)
  /\ (total_cost c == inject_Z n * cost_per_image c)%Q
  /\ num_images c = n
  /\ quality c = q
  /\ (if String.eqb q "hd" then True
      else (total_cost c == window_cost n)%Q
           /\ (total_cost c == estimate_total_cost n)%Q)
  /\ (total_cost (estimate_cost n "hd") == 2 * total_cost (estimate_cost n "standard"))%Q.
Proof.
  cbv zeta. unfold estimate_cost.
  cbn [cost_per_image total_cost num_images quality].
  split; [|split; [reflexivity|split; [reflexivity|split; [reflexivity|split]]]].
  - destruct (String.eqb q "hd") eqn:Hhd.
    + apply String.eqb_eq in Hhd. subst q. reflexivity.
    + now apply standard_price.
  - destruct (String.eqb q "hd") eqn:Hhd; [exact I|].
    rewrite (standard_price q Hhd). unfold window_cost, estimate_total_cost.
    generalize (inject_Z n). intros x. split; field.
  - change (get_default (get_default pricing "hd" []) "1024x1024" (40 # 1000))
      with (80 # 1000).
    change (get_default (get_default pricing "standard" []) "1024x1024" (40 # 1000))
      with (40 # 1000).
    generalize (inject_Z n). intros x. field.
Qed.

(** X4. [_get_style_guidelines] looks the style up by its exact spelling:
    the eight styles the main window offers are the keys of the table, each
    with a guideline of its own, and every other string, a known style in
    another case included, gets the default line. *)
Theorem style_guidelines_lookup (style : string) :
  map fst style_guides = image_styles
  /\ (_get_style_guidelines style = "High quality artistic rendering"
      <-> ~ In style image_styles)
  /\ _get_style_guidelines (lower "Cinematic") = "High quality artistic rendering".
Proof.
  split; [reflexivity|]. split; [|reflexivity].
  unfold _get_style_guidelines, style_guides, image_styles. cbn [dict_get In].
  repeat match goal with
         | |- context [String.eqb ?k style] =>
             destruct (String.eqb_spec k style) as [<-|?];
             [split; [discriminate | intros H; exfalso; apply H; tauto]|]
         end.
  split; [|reflexivity]. intros _ H.
  repeat (destruct H as [H|H]; [congruence|]). exact H.
Qed.

(** X5. Whatever the style, the prompt [create_scene_prompt] builds opens
    with the style in lower case and carries, verbatim, the character
    description, the script segment after the label of its scene number,
    and the guideline of the style. *)
Theorem scene_prompt_mentions (script_segment character_desc style : string)
        (scene_number : Z) :
  let prompt := create_scene_prompt script_segment character_desc style scene_number in
  startswith ("Create a " ++ lower style ++ " style image.") prompt = true
  /\ contains ("Main character: " ++ character_desc) prompt = true
  /\ contains ("Scene " ++ str_int scene_number ++ " context: " ++ script_segment)
              prompt = true
  /\ contains ("- " ++ _get_style_guidelines style) prompt = true.
Proof.
  cbv zeta. unfold create_scene_prompt.
  match goal with
  | |- context [if String.eqb style "Photorealistic" then _ else ?b] => set (base := b)
  end.
  assert (Hbase : startswith ("Create a " ++ lower style ++ " style image.") base = true
                  /\ contains ("Main character: " ++ character_desc) base = true
                  /\ contains ("Scene " ++ str_int scene_number ++ " context: "
                                 ++ script_segment) base = true
                  /\ contains ("- " ++ _get_style_guidelines style) base = true).
  { subst base. split; [|split; [|split]].
    - rewrite !startswith_app_cancel. reflexivity.
    - repeat first [ solve [ apply contains_startswith;
                             rewrite ?startswith_app_cancel; apply startswith_here ]
                   | apply contains_app_r ].
    - repeat first [ solve [ apply contains_startswith;
                             rewrite ?startswith_app_cancel; apply startswith_here ]
                   | apply contains_app_r ].
    - repeat first [ solve [ apply contains_startswith;
                             rewrite ?startswith_app_cancel; apply startswith_here ]
                   | apply contains_app_r ]. }
  destruct Hbase as (H1 & H2 & H3 & H4).
  destruct (String.eqb style "Cinematic"); [|destruct (String.eqb style "Photorealistic")];
    repeat split;
    first [ assumption
          | apply startswith_app_l; assumption
          | apply contains_app_l; assumption ].
Qed.

(* ================================================================== *)
(** * Computations that make no external call *)
(* ================================================================== *)

Section Quiet.

Variable E : env.

Lemma add_events_nil (w : world) : add_events w [] = w.
Proof. destruct w. unfold add_events. simpl. now rewrite app_nil_r. Qed.




Lemma externals_app (a b : list event) :
  externals (a ++ b) = externals a ++ externals b.
Proof. apply filter_app. Qed.

Lemma quiet_ret {A} (a : A) : quiet (ret a).
Proof. intros w. exists []. now rewrite add_events_nil. Qed.

Lemma quiet_raise {A} (e : exn) : quiet (@raise A e).
Proof. intros w. exists []. now rewrite add_events_nil. Qed.

Lemma quiet_lift {A} (r : result A) : quiet (lift r).
Proof. intros w. exists []. now rewrite add_events_nil. Qed.

Lemma quiet_emit (e : event) : is_external e = false -> quiet (emit e).
Proof.
  intros He w. exists [e]. split; [reflexivity|].
  unfold externals. simpl. now rewrite He.
Qed.

Lemma quiet_log (l : level) (t : text) : quiet (log l t).
Proof. now apply quiet_emit. Qed.


Lemma quiet_bind {A B} (m : M A) (k : A -> M B) :
  quiet m -> (forall a, quiet (k a)) -> quiet (bind m k).
Proof.
  intros Hm Hk w. unfold bind. destruct (Hm w) as (evs & Hw & Hq).
  destruct (m w) as [[a|e] w1]; cbn [snd] in *; subst w1.
  - destruct (Hk a (add_events w evs)) as (evs' & Hw' & Hq').
    exists (evs ++ evs'). rewrite Hw', add_events_app, externals_app, Hq, Hq'. auto.
  - exists evs. auto.
Qed.

Lemma quiet_try {A} (m : M A) : quiet m -> quiet (try_ m).
Proof.
  intros Hm w. unfold try_. destruct (Hm w) as (evs & Hw & Hq).
  destruct (m w) as [r w1]. exists evs. auto.
Qed.


Lemma quiet_generate_timestamps (total_duration : Q) (n : Z) :
  quiet (generate_timestamps total_duration n).
Proof.
  unfold generate_timestamps. destruct (n <=? 0); [apply quiet_raise|].
  apply quiet_bind; [apply quiet_log | intros _; apply quiet_ret].
Qed.







End Quiet.




(* ================================================================== *)
(** * Downloading and naming the picture *)
(* ================================================================== *)

Section Download.

Variable E : env.
Variables output_dir filename_prefix : string.

Lemma get_requests_app (a b : list event) :
  get_requests (a ++ b) = get_requests a ++ get_requests b.
Proof.
  induction a as [|e a IH]; simpl; [reflexivity|].
  destruct e; simpl; now rewrite ?IH.
Qed.

Lemma download_delays_app (a b : list event) :
  download_delays (a ++ b) = download_delays a ++ download_delays b.
Proof.
  induction a as [|e a IH]; simpl; [reflexivity|].
  destruct e as [| [|] | | | | | | | | | | | | | | ]; simpl; now rewrite ?IH.
Qed.

(** The HTTP loop with its three attempts: one to three requests, one
    second slept between two of them. *)
Lemma download_attempts_requests (k : nat) (url : string) (w : world) :
  exists evs n,
    download_attempts E k url 3 [0; 1; 2] w
    = (http_outcome E k url 3 [0; 1; 2], add_events w evs)
    /\ (1 <= n <= 3)%nat
    /\ get_requests evs = repeat url n
    /\ download_delays evs = repeat 1 (n - 1).
Proof.
  cbn [download_attempts http_outcome]. rewrite bind_emit.
  destruct (requests_get E k (Z.to_nat 0) url) as [ct|e0].
  { exists [EvRequestsGet url], 1%nat. repeat split; lia. }
  destruct (retriable e0).
  2: { exists [EvRequestsGet url], 1%nat. repeat split; lia. }
  cbn [Z.eqb Z.sub Z.add Z.opp Z.pos_sub Pos.pred_double Pos.eqb].
  rewrite bind_sleep, bind_emit.
  destruct (requests_get E k (Z.to_nat 1) url) as [ct|e1].
  { exists [EvRequestsGet url; EvSleep DownloadRetry 1; EvRequestsGet url], 2%nat.
    unfold ret, add_events. cbn [trace api_calls generation_history].
    rewrite <- !app_assoc. repeat split; lia. }
  destruct (retriable e1).
  2: { exists [EvRequestsGet url; EvSleep DownloadRetry 1; EvRequestsGet url], 2%nat.
       unfold raise, add_events. cbn [trace api_calls generation_history].
       rewrite <- !app_assoc. repeat split; lia. }
  cbn [Z.eqb Z.sub Z.add Z.opp Z.pos_sub Pos.pred_double Pos.eqb].
  rewrite bind_sleep, bind_emit.
  exists [EvRequestsGet url; EvSleep DownloadRetry 1; EvRequestsGet url;
          EvSleep DownloadRetry 1; EvRequestsGet url], 3%nat.
  destruct (requests_get E k (Z.to_nat 2) url) as [ct|e2];
    [|destruct (retriable e2)];
    cbn [Z.eqb Z.sub Z.add Z.opp Z.pos_sub Pos.pred_double Pos.eqb];
    unfold ret, raise, add_events; cbn [trace api_calls generation_history];
    rewrite <- !app_assoc; repeat split; lia.
Qed.

(** [_download_image] as a whole. *)
Lemma download_image_events (url : string) (w : world) :
  let k := pred (api_calls w) in
  exists evs n r more,
    (1 <= n <= 3)%nat
    /\ get_requests evs = repeat url n
    /\ download_delays evs = repeat 1 (n - 1)
    /\ _download_image E url output_dir filename_prefix w
       = (r, add_events w (evs ++ more))
    /\ ((exists content_type,
           let image_path :=
             image_file output_dir filename_prefix (time_time E k)
                        (extension_of content_type) in
           r = Ok image_path
           /\ more = [EvMakedirs output_dir; EvWrite image_path (ImageData url)])
        \/ (exists e,
              let error_msg :=
                ("Error downloading image from " ++ url ++ ": " ++ str e)%string in
              r = Raise (mk_exn Exception error_msg)
              /\ (more = [EvLog ERROR (Text error_msg)]
                  \/ more = [EvMakedirs output_dir; EvLog ERROR (Text error_msg)]))).
Proof.
  cbv zeta. unfold _download_image, download_body, try_.
  change (range 3) with [0; 1; 2].
  unfold bind at 1. unfold bind at 1.
  destruct (download_attempts_requests (pred (api_calls w)) url w)
    as (evs & n & -> & Hn & Hg & Hd).
  exists evs, n.
  destruct (http_outcome E (pred (api_calls w)) url 3 [0; 1; 2]) as [content_type|e].
  - rewrite bind_emit. fold (add_events (add_events w evs) [EvMakedirs output_dir]).
    rewrite add_events_app.
    destruct (makedirs E output_dir) as [[]|e].
    + rewrite bind_lift_ok.
      destruct (open_w E _) as [[]|e].
      * rewrite bind_lift_ok.
        destruct (iter_content E (pred (api_calls w)) url) as [[]|e].
        -- rewrite bind_lift_ok, bind_emit. unfold ret, add_events.
           cbn [trace api_calls generation_history]. rewrite <- !app_assoc.
           eexists. eexists. repeat (split; [eassumption|]).
           split; [reflexivity|]. left. eexists. split; reflexivity.
        -- rewrite bind_lift_raise, bind_log. unfold raise, add_events.
           cbn [trace api_calls generation_history]. rewrite <- !app_assoc.
           eexists. eexists. repeat (split; [eassumption|]).
           split; [reflexivity|]. right. eexists. split; [reflexivity|]. right. reflexivity.
      * rewrite bind_lift_raise, bind_log. unfold raise, add_events.
        cbn [trace api_calls generation_history]. rewrite <- !app_assoc.
        eexists. eexists. repeat (split; [eassumption|]).
        split; [reflexivity|]. right. eexists. split; [reflexivity|]. right. reflexivity.
    + rewrite bind_lift_raise, bind_log. unfold raise, add_events.
      cbn [trace api_calls generation_history]. rewrite <- !app_assoc.
      eexists. eexists. repeat (split; [eassumption|]).
      split; [reflexivity|]. right. eexists. split; [reflexivity|]. right. reflexivity.
  - rewrite bind_log. unfold raise, add_events.
    cbn [trace api_calls generation_history]. rewrite <- !app_assoc.
    eexists. eexists. repeat (split; [eassumption|]).
    split; [reflexivity|]. right. eexists. split; [reflexivity|]. left. reflexivity.
Qed.

End Download.

(** X8. [_download_image] sends one to three GET requests for the URL and
    sleeps exactly one second between two of them. On success it has
    created the output directory and written
    [<prefix>_<time>.<extension>] there, its last effect. Any failure, of
    the requests, of the directory or of the file, comes out as an
    [Exception] whose message starts with the URL's "Error downloading
    image from" line, logged as its last effect. *)
Theorem download_image_requests (E : env) (url output_dir filename_prefix : string)
        (w : world) :
  let run := _download_image E url output_dir filename_prefix w in
  exists evs n,
    snd run = add_events w evs
    /\ (1 <= n <= 3)%nat
    /\ get_requests evs = repeat url n
    /\ download_delays evs = repeat 1 (n - 1)
    /\ match fst run with
       | Ok image_path =>
           (exists content_type,
               image_path
               = image_file output_dir filename_prefix
                            (time_time E (pred (api_calls w)))
                            (extension_of content_type))
           /\ In (EvMakedirs output_dir) evs
           /\ exists earlier, evs = earlier ++ [EvWrite image_path (ImageData url)]
       | Raise e =>
           exn_cls e = Exception
           /\ startswith ("Error downloading image from " ++ url ++ ": ") (str e) = true
           /\ exists earlier, evs = earlier ++ [EvLog ERROR (Text (str e))]
       end.
Proof.
  cbv zeta.
  destruct (download_image_events E output_dir filename_prefix url w)
    as (evs & n & r & more & Hn & Hg & Hd & Hrun & Hcases).
  rewrite Hrun. cbn [fst snd].
  exists (evs ++ more), n. split; [reflexivity|]. split; [exact Hn|].
  rewrite get_requests_app, download_delays_app, Hg, Hd.
  destruct Hcases as [(content_type & -> & ->) | (e & -> & Hmore)].
  - cbn [get_requests download_delays]. rewrite !app_nil_r.
    split; [reflexivity|]. split; [reflexivity|].
    split; [eexists; reflexivity|].
    split; [apply in_or_app; right; left; reflexivity|].
    exists (evs ++ [EvMakedirs output_dir]). now rewrite <- app_assoc.
  - assert (Hquiet : get_requests more = [] /\ download_delays more = []
                     /\ exists earlier,
                          evs ++ more
                          = earlier
                            ++ [EvLog ERROR
                                  (Text ("Error downloading image from " ++ url ++ ": "
                                           ++ str e))]).
    { destruct Hmore as [->| ->]; (split; [reflexivity|split; [reflexivity|]]).
      - now exists evs.
      - exists (evs ++ [EvMakedirs output_dir]). now rewrite <- app_assoc. }
    destruct Hquiet as (-> & -> & Hlast).
    rewrite !app_nil_r. split; [reflexivity|]. split; [reflexivity|].
    cbn [exn_cls str exn_msg]. split; [reflexivity|].
    split; [|exact Hlast].
    rewrite !startswith_app_cancel. apply startswith_here.
Qed.

Section Naming.

Variable E : env.
Variables prompt output_dir filename_prefix style : string.

(** A successful retry loop ends on its first successful call. *)
Lemma retry_summary_ok (max_retries : Z) (todo : list Z)
      (outcome : nat -> result string) (k : nat) (image_path : string) :
  fst (fst (retry_summary max_retries todo outcome k)) = Ok image_path ->
  exists n,
    snd (retry_summary max_retries todo outcome k) = S n
    /\ outcome (k + n)%nat = Ok image_path
    /\ forall j, (k <= j < k + n)%nat -> is_ok (outcome j) = false.
Proof.
  revert k; induction todo as [|attempt rest IH]; intros k; cbn [retry_summary].
  - discriminate.
  - destruct (outcome k) as [p|e] eqn:Hk.
    + cbn [fst snd]. intros H. injection H as ->. exists 0%nat.
      rewrite Nat.add_0_r. split; [reflexivity|]. split; [exact Hk|]. intros j Hj. lia.
    + assert (Hstep :
                fst (fst (retry_summary max_retries rest outcome (S k))) = Ok image_path ->
                exists n,
                  S (snd (retry_summary max_retries rest outcome (S k))) = S n
                  /\ outcome (k + n)%nat = Ok image_path
                  /\ forall j, (k <= j < k + n)%nat -> is_ok (outcome j) = false).
      { intros H. destruct (IH (S k) H) as (n & Hn & Hout & Hbefore).
        exists (S n). split; [now rewrite Hn|].
        split; [now rewrite Nat.add_succ_r|].
        intros j Hj. destruct (Nat.eq_dec j k) as [->|Hne]; [now rewrite Hk|].
        apply Hbefore. lia. }
      destruct (rate_limited e).
      * destruct (retry_summary max_retries rest outcome (S k)) as [[r delays] n].
        exact Hstep.
      * destruct (attempt =? max_retries - 1); [discriminate|].
        destruct (retry_summary max_retries rest outcome (S k)) as [[r delays] n].
        exact Hstep.
Qed.

(** What a successful attempt has done. *)
Lemma attempt_outcome_ok (k : nat) (image_path : string) :
  attempt_outcome E prompt output_dir filename_prefix k = Ok image_path ->
  exists url revised content_type,
    images_generate E k prompt = Ok (url, revised)
    /\ http_outcome E k url 3 (range 3) = Ok content_type
    /\ image_path = image_file output_dir filename_prefix (time_time E k)
                               (extension_of content_type)
    /\ history_of E prompt output_dir filename_prefix style k
       = [mk_history prompt revised image_path style].
Proof.
  unfold attempt_outcome, history_of.
  destruct (images_generate E k prompt) as [[url revised]|e]; [|discriminate].
  destruct (download_outcome E k url output_dir filename_prefix) as [p|e] eqn:Hd;
    [|discriminate].
  destruct (open_w E _); [|discriminate]. intros H. injection H as ->.
  exists url, revised. unfold download_outcome in Hd.
  destruct (http_outcome E k url 3 (range 3)) as [content_type|e]; [|discriminate].
  exists content_type.
  destruct (makedirs E output_dir); [|discriminate].
  destruct (open_w E _); [|discriminate].
  destruct (iter_content E k url); [|discriminate].
  injection Hd as <-. auto.
Qed.

Lemma extension_of_cases (content_type : string) :
  extension_of content_type
  = if contains "png" (lower content_type) then "png" else "jpg".
Proof.
  unfold extension_of. destruct (contains "png" _); [reflexivity|].
  destruct (_ || _); reflexivity.
Qed.

Lemma history_of_entries (k : nat) :
  (List.length (history_of E prompt output_dir filename_prefix style k) <= 1)%nat
  /\ Forall (fun h => original_prompt h = prompt /\ history_style h = style)
            (history_of E prompt output_dir filename_prefix style k).
Proof.
  unfold history_of.
  destruct (images_generate E k prompt) as [[url revised]|e]; [|simpl; auto].
  destruct (download_outcome E k url output_dir filename_prefix); simpl; auto.
Qed.

Lemma history_added (k n : nat) :
  let added :=
    List.concat (map (history_of E prompt output_dir filename_prefix style) (seq k n)) in
  (List.length added <= n)%nat
  /\ Forall (fun h => original_prompt h = prompt /\ history_style h = style) added.
Proof.
  cbv zeta. revert k; induction n as [|n IH]; intros k; cbn [seq map List.concat].
  - simpl. auto.
  - destruct (history_of_entries k) as [Hlen Hall].
    destruct (IH (S k)) as [Hlen' Hall'].
    rewrite length_app. split; [lia|]. apply Forall_app. auto.
Qed.

End Naming.

(** X9. A picture that [generate_and_save_image] returns is the file
    [<prefix>_<time>.<extension>] of the output directory, for the clock
    read at one of the calls of this run, the one that succeeded; the
    extension is "png" when the content type of the download mentions png,
    in any case, and "jpg" for every other content type. *)
Theorem saved_image_name (E : env) (prompt output_dir filename_prefix style : string)
        (max_retries : Z) (w : world) (image_path : string) :
  let run := generate_and_save_image E prompt output_dir filename_prefix style
                                     max_retries w in
  fst run = Ok image_path ->
  exists k url revised content_type,
    (api_calls w <= k < api_calls (snd run))%nat
    /\ images_generate E k prompt = Ok (url, revised)
    /\ http_outcome E k url 3 (range 3) = Ok content_type
    /\ image_path
       = path_join output_dir
                   (filename_prefix ++ "_" ++ str_int (time_time E k) ++ "."
                      ++ (if contains "png" (lower content_type) then "png" else "jpg")).
Proof.
  cbv zeta. unfold generate_and_save_image. intros Hrun.
  destruct (attempts_summary E prompt output_dir filename_prefix style max_retries
              (range max_retries) w) as (Hfst & _ & Hcalls & _).
  rewrite Hfst in Hrun.
  apply retry_summary_ok in Hrun as (n & Hn & Hout & _).
  apply (attempt_outcome_ok E prompt output_dir filename_prefix style) in Hout
    as (url & revised & content_type & Hgen & Hhttp & -> & _).
  exists (api_calls w + n)%nat, url, revised, content_type.
  rewrite Hcalls, Hn. split; [lia|]. split; [exact Hgen|]. split; [exact Hhttp|].
  unfold image_file. now rewrite extension_of_cases.
Qed.

(** The first scene on a machine where everything works. *)
Lemma saved_image_name_witness :
  fst (generate_and_save_image small_file_env "a prompt" "out" "scene_001" "Cinematic"
                               3 initial_world)
  = Ok "out/scene_001_1700000000.png"
  /\ exists k url revised content_type,
       (api_calls initial_world <= k
        < api_calls (snd (generate_and_save_image small_file_env "a prompt" "out"
                                                  "scene_001" "Cinematic" 3
                                                  initial_world)))%nat
       /\ images_generate small_file_env k "a prompt" = Ok (url, revised)
       /\ http_outcome small_file_env k url 3 (range 3) = Ok content_type
       /\ "out/scene_001_1700000000.png"
          = path_join "out"
                      ("scene_001" ++ "_" ++ str_int (time_time small_file_env k) ++ "."
                         ++ (if contains "png" (lower content_type)
                             then "png" else "jpg")).
Proof.
  assert (H : fst (generate_and_save_image small_file_env "a prompt" "out" "scene_001"
                                           "Cinematic" 3 initial_world)
              = Ok "out/scene_001_1700000000.png") by reflexivity.
  split; [exact H|].
  exact (saved_image_name small_file_env "a prompt" "out" "scene_001" "Cinematic" 3
                          initial_world "out/scene_001_1700000000.png" H).
Defined.

(** X10. [generate_and_save_image] only ever appends to the generator's
    history: at most one entry per call made, each with the prompt and
    the style of this request; when it returns a picture, the last entry
    is the one of that picture. *)
Theorem generation_history_grows (E : env)
        (prompt output_dir filename_prefix style : string) (max_retries : Z) (w : world) :
  let run := generate_and_save_image E prompt output_dir filename_prefix style
                                     max_retries w in
  exists added,
    generation_history (snd run) = generation_history w ++ added
    /\ (List.length added <= api_calls (snd run) - api_calls w)%nat
    /\ Forall (fun h => original_prompt h = prompt /\ history_style h = style) added
    /\ match fst run with
       | Ok image_path =>
           exists earlier revised,
             added = earlier ++ [mk_history prompt revised image_path style]
       | Raise _ => True
       end.
Proof.
  cbv zeta. unfold generate_and_save_image.
  destruct (attempts_summary E prompt output_dir filename_prefix style max_retries
              (range max_retries) w) as (Hfst & _ & Hcalls & _ & Hhist).
  eexists. split; [exact Hhist|].
  destruct (history_added E prompt output_dir filename_prefix style (api_calls w)
              (snd (retry_summary max_retries (range max_retries)
                      (attempt_outcome E prompt output_dir filename_prefix)
                      (api_calls w)))) as [Hlen Hall].
  split; [rewrite Hcalls; lia|]. split; [exact Hall|].
  rewrite Hfst.
  destruct (fst (fst (retry_summary max_retries (range max_retries)
                        (attempt_outcome E prompt output_dir filename_prefix)
                        (api_calls w)))) as [image_path|e] eqn:Hr; [|exact I].
  apply retry_summary_ok in Hr as (n & Hn & Hout & _).
  apply (attempt_outcome_ok E prompt output_dir filename_prefix style) in Hout
    as (url & revised & content_type & _ & _ & _ & Hentry).
  rewrite Hn. replace (S n) with (n + 1)%nat by lia.
  rewrite seq_app, map_app, concat_app. cbn [seq map List.concat].
  rewrite Hentry, app_nil_r. eexists. exists revised. reflexivity.
Qed.

(** X11. [generate_character_reference] is one generation request with the
    reference-sheet prompt, which carries the character description, and
    the prefix "character_reference": at most three calls to the service,
    all with that prompt, and a picture named
    [character_reference_<time>.<extension>] in the output directory. *)
Theorem character_reference_request (E : env) (character_desc style output_dir : string)
        (w : world) :
  let run := generate_character_reference E character_desc style output_dir w in
  let calls := (api_calls (snd run) - api_calls w)%nat in
  (calls <= 3)%nat
  /\ generate_calls (trace (snd run))
     = generate_calls (trace w) ++ repeat (reference_prompt character_desc style) calls
  /\ contains ("Character: " ++ character_desc) (reference_prompt character_desc style)
     = true
  /\ match fst run with
     | Ok image_path =>
         exists k content_type,
           image_path
           = path_join output_dir
                       ("character_reference_" ++ str_int (time_time E k) ++ "."
                          ++ extension_of content_type)
     | Raise _ => True
     end.
Proof.
  cbv zeta. unfold generate_character_reference, generate_and_save_image,
              default_max_retries.
  set (prompt := reference_prompt character_desc style).
  destruct (attempts_summary E prompt output_dir "character_reference" style 3
              (range 3) w) as (Hfst & _ & Hcalls & Hgen & _).
  pose proof (retry_summary_calls 3 (range 3)
                (attempt_outcome E prompt output_dir "character_reference")
                (api_calls w)) as Hbudget.
  rewrite range_length in Hbudget. rewrite Hcalls, Hgen.
  replace (api_calls w + _ - api_calls w)%nat
    with (snd (retry_summary 3 (range 3)
                 (attempt_outcome E prompt output_dir "character_reference")
                 (api_calls w))) by lia.
  split; [exact Hbudget|]. split; [reflexivity|]. split.
  - subst prompt. unfold reference_prompt.
    repeat first [ solve [ apply contains_startswith;
                           rewrite ?startswith_app_cancel; apply startswith_here ]
                 | apply contains_app_r ].
  - rewrite Hfst.
    destruct (fst (fst (retry_summary 3 (range 3) _ (api_calls w)))) as [image_path|e] eqn:Hr;
      [|exact I].
    apply retry_summary_ok in Hr as (n & _ & Hout & _).
    apply (attempt_outcome_ok E prompt output_dir "character_reference" style) in Hout
      as (url & revised & content_type & _ & _ & -> & _).
    exists (api_calls w + n)%nat, content_type. reflexivity.
Qed.

(* ================================================================== *)
(** * Clips from the artifacts *)
(* ================================================================== *)

Section Clips.

Variable E : env.
Variable output_dir : string.

Lemma videofiles_app (a b : list event) :
  videofiles (a ++ b) = videofiles a ++ videofiles b.
Proof.
  induction a as [|e a IH]; simpl; [reflexivity|].
  destruct e; simpl; now rewrite ?IH.
Qed.



End Clips.



(* ================================================================== *)
(** * Running computations on the machine *)
(* ================================================================== *)

Section ActFacts.

Lemma add_calls_nil (m : machine) : add_calls m [] = m.
Proof. apply app_nil_r. Qed.

Lemma add_calls_app (m : machine) (a b : list call) :
  add_calls (add_calls m a) b = add_calls m (a ++ b).
Proof. unfold add_calls. now rewrite app_assoc. Qed.

Lemma andthen_ok {A B} (c : Act A) (k : A -> Act B) (m m1 : machine) (a : A) :
  c m = (Ok a, m1) -> andthen c k m = k a m1.
Proof. intros H. unfold andthen. now rewrite H. Qed.

Lemma andthen_raise {A B} (c : Act A) (k : A -> Act B) (m m1 : machine) (e : exn) :
  c m = (Raise e, m1) -> andthen c k m = (Raise e, m1).
Proof. intros H. unfold andthen. now rewrite H. Qed.

Lemma andthen_done {A B} (a : A) (k : A -> Act B) (m : machine) :
  andthen (done a) k m = k a m.
Proof. reflexivity. Qed.

Lemma andthen_assoc {A B C} (c : Act A) (k : A -> Act B) (h : B -> Act C) (m : machine) :
  andthen (andthen c k) h m = andthen c (fun a => andthen (k a) h) m.
Proof. unfold andthen. destruct (c m) as [[a|e] m1]; reflexivity. Qed.

Lemma andthen_record {B} (c : call) (k : unit -> Act B) (m : machine) :
  andthen (record c) k m = k tt (add_calls m [c]).
Proof. reflexivity. Qed.

Lemma andthen_logged {B} (l : level) (t : list piece) (k : unit -> Act B) (m : machine) :
  andthen (logged l t) k m = k tt (add_calls m [Logged l t]).
Proof. reflexivity. Qed.

Lemma andthen_answer_ok {A B} (a : A) (k : A -> Act B) (m : machine) :
  andthen (answer (Ok a)) k m = k a m.
Proof. reflexivity. Qed.

Lemma andthen_answer_raise {A B} (e : exn) (k : A -> Act B) (m : machine) :
  andthen (answer (Raise e)) k m = (Raise e, m).
Proof. reflexivity. Qed.

Lemma opened_app (a b : list call) : opened (a ++ b) = opened a ++ opened b.
Proof.
  induction a as [|c a IH]; simpl; [reflexivity|].
  destruct c; simpl; now rewrite ?IH.
Qed.

Lemma exported_app (a b : list call) : exported (a ++ b) = exported a ++ exported b.
Proof.
  induction a as [|c a IH]; simpl; [reflexivity|].
  destruct c; simpl; now rewrite ?IH.
Qed.

Lemma commands_app (a b : list call) : commands (a ++ b) = commands a ++ commands b.
Proof.
  induction a as [|c a IH]; simpl; [reflexivity|].
  destruct c; simpl; now rewrite ?IH.
Qed.

End ActFacts.

(* ================================================================== *)
(** * Looking for FFmpeg *)
(* ================================================================== *)

Section Probe.

Variable T : tools.

Lemma probe_run (paths : list string) (m : machine) :
  (forall path, In path paths -> escapes T path = false) ->
  exists cs,
    probe T paths m = (Ok (existsb (works T) paths), add_calls m cs)
    /\ commands cs = map (fun path => [path; "-version"]) (through (works T) paths).
Proof.
  revert m; induction paths as [|path rest IH]; intros m Hsafe; cbn [probe].
  - rewrite andthen_logged. eexists. split; [reflexivity|]. reflexivity.
  - rewrite andthen_record.
    assert (Hrest : forall p, In p rest -> escapes T p = false)
      by (intros p Hp; apply Hsafe; now right).
    pose proof (Hsafe path (or_introl eq_refl)) as Hpath.
    unfold escapes in Hpath. cbn [existsb through map]. unfold works at 1 3.
    destruct (subprocess_run_timeout T [path; "-version"]) as [[rc out err|e]|].
    + destruct (rc =? 0).
      * rewrite andthen_logged. unfold done. rewrite add_calls_app.
        eexists. split; [reflexivity|]. reflexivity.
      * destruct (IH (add_calls m [Run [path; "-version"]]) Hrest) as (cs & -> & Hcs).
        rewrite add_calls_app. eexists. split; [reflexivity|].
        cbn [app commands]. now rewrite Hcs.
    + apply negb_false_iff in Hpath. rewrite Hpath.
      destruct (IH (add_calls m [Run [path; "-version"]]) Hrest) as (cs & -> & Hcs).
      rewrite add_calls_app. eexists. split; [reflexivity|].
      cbn [app commands]. now rewrite Hcs.
    + destruct (IH (add_calls m [Run [path; "-version"]]) Hrest) as (cs & -> & Hcs).
      rewrite add_calls_app. eexists. split; [reflexivity|].
      cbn [app commands]. now rewrite Hcs.
Qed.

End Probe.

(** X13. [_check_ffmpeg_availability] runs the five candidates in the order
    of the list, each with [-version], and stops at the first one that
    exits with code 0: it returns True exactly when one of them does. A
    candidate that is missing, fails with another [OSError], times out or
    exits with another code is passed over; this holds as long as no probe
    raises an exception of another kind, which the method lets through. *)
Theorem check_ffmpeg_availability_finds (T : tools) (m : machine) :
  (forall path, In path possible_paths -> escapes T path = false) ->
  exists cs,
    _check_ffmpeg_availability T m
    = (Ok (existsb (works T) possible_paths), add_calls m cs)
    /\ commands cs
       = map (fun path => [path; "-version"]) (through (works T) possible_paths).
Proof. apply probe_run. Qed.

(** On a machine where [ffmpeg] is missing and [ffmpeg.exe] answers, two
    probes are made. *)
Lemma check_ffmpeg_availability_finds_witness :
  (forall path, In path possible_paths -> escapes windows_tools path = false)
  /\ existsb (works windows_tools) possible_paths = true
  /\ through (works windows_tools) possible_paths = ["ffmpeg"; "ffmpeg.exe"]
  /\ exists cs,
       _check_ffmpeg_availability windows_tools fresh_machine
       = (Ok (existsb (works windows_tools) possible_paths), add_calls fresh_machine cs)
       /\ commands cs
          = map (fun path => [path; "-version"])
                (through (works windows_tools) possible_paths).
Proof.
  assert (H : forall path, In path possible_paths -> escapes windows_tools path = false).
  { intros path Hin. repeat (destruct Hin as [<-|Hin]; [reflexivity|]). destruct Hin. }
  split; [exact H|]. split; [reflexivity|]. split; [reflexivity|].
  exact (check_ffmpeg_availability_finds windows_tools fresh_machine H).
Defined.

(* ================================================================== *)
(** * Editing audio *)
(* ================================================================== *)

Section Editing.

Variable E : env.
Variable T : tools.

Lemma from_file_run (audio_path : string) (m : machine) :
  from_file E audio_path m
  = match AudioSegment_from_file E audio_path with
    | Ok length_ms => (Ok (Loaded audio_path, length_ms), add_calls m [FromFile audio_path])
    | Raise e => (Raise e, add_calls m [FromFile audio_path])
    end.
Proof.
  unfold from_file. rewrite andthen_record.
  destruct (AudioSegment_from_file E audio_path); reflexivity.
Qed.

Lemma from_file_ok (audio_path : string) (length_ms : Z) (m : machine) :
  AudioSegment_from_file E audio_path = Ok length_ms ->
  from_file E audio_path m
  = (Ok (Loaded audio_path, length_ms), add_calls m [FromFile audio_path]).
Proof. intros H. now rewrite from_file_run, H. Qed.

Lemma from_file_raise (audio_path : string) (e : exn) (m : machine) :
  AudioSegment_from_file E audio_path = Raise e ->
  from_file E audio_path m = (Raise e, add_calls m [FromFile audio_path]).
Proof. intros H. now rewrite from_file_run, H. Qed.

Lemma getitem_run (timestamps : list Q) (i : nat) (m : machine) :
  (i < List.length timestamps)%nat ->
  getitem timestamps (Z.of_nat i) m = (Ok (nth i timestamps 0%Q), m).
Proof.
  intros Hi. unfold getitem.
  rewrite (index_nth timestamps (Z.of_nat i) 0%Q) by (unfold len; lia).
  now rewrite Nat2Z.id.
Qed.

(** The cut points of a split: the timestamps in milliseconds, then the
    length of the audio. *)
Lemma nth_cuts (timestamps : list Q) (audio_len : Z) (i : nat) :
  nth i (map milliseconds timestamps ++ [audio_len]) 0
  = if (i <? List.length timestamps)%nat then milliseconds (nth i timestamps 0%Q)
    else if (i =? List.length timestamps)%nat then audio_len else 0.
Proof.
  destruct (Nat.ltb_spec i (List.length timestamps)).
  - rewrite app_nth1 by now rewrite length_map.
    rewrite nth_indep with (d' := milliseconds 0) by now rewrite length_map.
    apply map_nth.
  - rewrite app_nth2 by now rewrite length_map.
    rewrite length_map. destruct (Nat.eqb_spec i (List.length timestamps)) as [->|Hne].
    + now rewrite Nat.sub_diag.
    + destruct (i - List.length timestamps)%nat as [|[|k]] eqn:Hk; [lia| |]; reflexivity.
Qed.

Lemma split_loop_run (audio_path output_dir : string) (audio_len : Z)
      (timestamps : list Q) (k s : nat) (acc : list string) (m : machine) :
  (forall out, export_result T out = Ok tt) ->
  (s + k = List.length timestamps)%nat ->
  let cuts := map milliseconds timestamps ++ [audio_len] in
  exists cs,
    split_loop T (Loaded audio_path) audio_len timestamps output_dir
               (map Z.of_nat (seq s k)) acc m
    = (Ok (acc ++ map (fun i => segment_file output_dir (Z.of_nat i)) (seq s k)),
       add_calls m cs)
    /\ opened cs = []
    /\ exported cs
       = map (fun i => (Slice (Loaded audio_path) (nth i cuts 0) (nth (S i) cuts 0),
                        segment_file output_dir (Z.of_nat i), "mp3"))
             (seq s k).
Proof.
  intros Hexp. cbv zeta. revert s acc m; induction k as [|k IH]; intros s acc m Hlen.
  - cbn. exists []. rewrite add_calls_nil, app_nil_r. auto.
  - cbn [seq map split_loop].
    rewrite (andthen_ok _ _ _ _ _ (getitem_run timestamps s m ltac:(lia))).
    assert (Hend :
              (if Z.of_nat s <? len timestamps - 1
               then andthen (getitem timestamps (Z.of_nat s + 1))
                            (fun t' => done (int_of_Q (fmul t' 1000)))
               else done audio_len) m
              = (Ok (nth (S s) (map milliseconds timestamps ++ [audio_len]) 0), m)).
    { rewrite nth_cuts. unfold len.
      destruct (Z.ltb_spec (Z.of_nat s) (Z.of_nat (List.length timestamps) - 1)).
      - destruct (Nat.ltb_spec (S s) (List.length timestamps)); [|lia].
        replace (Z.of_nat s + 1) with (Z.of_nat (S s)) by lia.
        rewrite (andthen_ok _ _ _ _ _ (getitem_run timestamps (S s) m ltac:(lia))).
        reflexivity.
      - destruct (Nat.ltb_spec (S s) (List.length timestamps)); [lia|].
        destruct (Nat.eqb_spec (S s) (List.length timestamps)); [reflexivity | lia]. }
    rewrite (andthen_ok _ _ _ _ _ Hend).
    unfold export. rewrite !andthen_assoc, andthen_record, Hexp, andthen_answer_ok,
                     andthen_logged, add_calls_app.
    fold (segment_file output_dir (Z.of_nat s)).
    match goal with |- context [split_loop T _ _ _ _ _ ?acc' ?m'] =>
      destruct (IH (S s) acc' m' ltac:(lia)) as (cs & -> & Hop & Hex) end.
    rewrite add_calls_app, <- app_assoc. eexists. split; [reflexivity|].
    rewrite !opened_app, !exported_app, Hop, Hex. cbn [opened exported app].
    split; [reflexivity|]. f_equal.
    rewrite (nth_cuts timestamps audio_len s).
    destruct (Nat.ltb_spec s (List.length timestamps)); [|lia].
    reflexivity.
Qed.

End Editing.

(** X14. With FFmpeg, a readable audio file and exports that succeed,
    [split_audio] writes one MP3 per timestamp, [segment_001.mp3],
    [segment_002.mp3], ... in the output directory, and returns their
    paths in order. The segments tile the audio: segment [i] runs from
    timestamp [i] to timestamp [i + 1], both truncated to milliseconds,
    and the last one to the end of the audio, so each segment ends where
    the next begins. The audio file is opened once. *)
Theorem split_audio_tiles (E : env) (T : tools) (audio_path output_dir : string)
        (timestamps : list Q) (audio_len : Z) (m : machine) :
  ffmpeg_available E = true ->
  AudioSegment_from_file E audio_path = Ok audio_len ->
  (forall out, export_result T out = Ok tt) ->
  let n := List.length timestamps in
  let cuts := map milliseconds timestamps ++ [audio_len] in
  exists cs,
    split_audio E T audio_path timestamps output_dir m
    = (Ok (map (fun i => segment_file output_dir (Z.of_nat i)) (seq 0 n)), add_calls m cs)
    /\ opened cs = [audio_path]
    /\ exported cs
       = map (fun i => (Slice (Loaded audio_path) (nth i cuts 0) (nth (S i) cuts 0),
                        segment_file output_dir (Z.of_nat i), "mp3"))
             (seq 0 n).
Proof.
  intros Hff Hload Hexp. cbv zeta. unfold split_audio. rewrite Hff. cbn [negb].
  rewrite andthen_logged.
  rewrite (andthen_ok _ _ _ _ _ (from_file_ok E audio_path audio_len _ Hload)).
  cbn [fst snd]. rewrite add_calls_app.
  unfold range, len. rewrite Nat2Z.id.
  match goal with |- context [split_loop T _ _ _ _ _ ?acc' ?m'] =>
    destruct (split_loop_run T audio_path output_dir audio_len timestamps
                (List.length timestamps) 0 acc' m' Hexp eq_refl) as (cs & -> & Hop & Hex) end.
  rewrite add_calls_app. eexists. split; [reflexivity|].
  rewrite !opened_app, !exported_app, Hop, Hex. auto.
Qed.

(** A voice-over of 10 s cut at 0 s, 2.5 s and 5 s, on a machine with
    FFmpeg. *)
Lemma split_audio_tiles_witness :
  ffmpeg_available ffmpeg_env = true
  /\ AudioSegment_from_file ffmpeg_env "voice.mp3" = Ok 10000
  /\ (forall out, export_result windows_tools out = Ok tt)
  /\ map milliseconds [0; 5 # 2; 5]%Q ++ [10000] = [0; 2500; 5000; 10000]
  /\ exists cs,
       split_audio ffmpeg_env windows_tools "voice.mp3" [0; 5 # 2; 5]%Q "out"
                   fresh_machine
       = (Ok ["out/segment_001.mp3"; "out/segment_002.mp3"; "out/segment_003.mp3"],
          add_calls fresh_machine cs)
       /\ opened cs = ["voice.mp3"]
       /\ exported cs
          = [(Slice (Loaded "voice.mp3") 0 2500, "out/segment_001.mp3", "mp3");
             (Slice (Loaded "voice.mp3") 2500 5000, "out/segment_002.mp3", "mp3");
             (Slice (Loaded "voice.mp3") 5000 10000, "out/segment_003.mp3", "mp3")].
Proof.
  split; [reflexivity|]. split; [reflexivity|]. split; [reflexivity|].
  split; [vm_compute; reflexivity|].
  exact (split_audio_tiles ffmpeg_env windows_tools "voice.mp3" "out" [0; 5 # 2; 5]%Q
           10000 fresh_machine eq_refl eq_refl (fun _ => eq_refl)).
Defined.

Section Combining.

Variable E : env.
Variable T : tools.

Lemma combine_loop_run (paths : list string) (combined : segment) (m : machine) :
  exists cs,
    snd (combine_loop E paths combined m) = add_calls m cs
    /\ exported cs = []
    /\ (Forall (fun p => is_ok (AudioSegment_from_file E p) = true) paths ->
        fst (combine_loop E paths combined m)
        = Ok (fold_left Plus (map Loaded paths) combined)
        /\ opened cs = paths)
    /\ (forall k p e,
          nth_error paths k = Some p -> readable_before E paths k ->
          AudioSegment_from_file E p = Raise e ->
          fst (combine_loop E paths combined m) = Raise e
          /\ opened cs = firstn (S k) paths).
Proof.
  revert combined m; induction paths as [|path rest IH]; intros combined m;
    cbn [combine_loop].
  - exists []. rewrite add_calls_nil. split; [reflexivity|]. split; [reflexivity|].
    split; [intros _; split; reflexivity|].
    intros [|k] p e Hk; discriminate Hk.
  - destruct (AudioSegment_from_file E path) as [len|e0] eqn:Hload.
    + rewrite (andthen_ok _ _ _ _ _ (from_file_ok E path len m Hload)). cbn [fst].
      destruct (IH (Plus combined (Loaded path)) (add_calls m [FromFile path]))
        as (cs & Hsnd & Hex & Hall & Hfail).
      exists (FromFile path :: cs). rewrite Hsnd, add_calls_app.
      split; [reflexivity|]. split; [exact Hex|]. split.
      * intros HF. inversion HF as [|? ? _ HF']; subst.
        destruct (Hall HF') as [Hr Ho]. cbn [map fold_left opened].
        rewrite Hr, Ho. split; reflexivity.
      * intros [|k] p e Hk Hbefore Hp.
        -- injection Hk as <-. congruence.
        -- cbn [nth_error] in Hk.
           assert (Hb : readable_before E rest k).
           { intros j q Hj Hq. apply (Hbefore (S j) q); [lia | exact Hq]. }
           destruct (Hfail k p e Hk Hb Hp) as [Hr Ho]. cbn [opened firstn].
           rewrite Hr, Ho. split; reflexivity.
    + rewrite (andthen_raise _ _ _ _ _ (from_file_raise E path e0 m Hload)).
      exists [FromFile path]. split; [reflexivity|]. split; [reflexivity|]. split.
      * intros HF. inversion HF as [|? ? Hp _]; subst. rewrite Hload in Hp. discriminate Hp.
      * intros [|k] p e Hk Hbefore Hp.
        -- injection Hk as <-. rewrite Hload in Hp. injection Hp as <-.
           split; reflexivity.
        -- exfalso. pose proof (Hbefore 0%nat path ltac:(lia) eq_refl) as H0.
           rewrite Hload in H0. discriminate H0.
Qed.

End Combining.

(** X15. [combine_audio_files] opens the files in the order given and
    writes nothing before all of them are read. When every file can be
    read it exports once, to the output path and as MP3, the segments
    joined in that order after an empty one, and ends as this export ends.
    When one cannot be read, its error comes out, the files after it are
    not opened, and nothing is exported. *)
Theorem combine_audio_files_all_or_nothing (E : env) (T : tools)
        (audio_paths : list string) (output_path : string) (m : machine) :
  ffmpeg_available E = true ->
  let run := combine_audio_files E T audio_paths output_path m in
  exists cs,
    snd run = add_calls m cs
    /\ (Forall (fun p => is_ok (AudioSegment_from_file E p) = true) audio_paths ->
        opened cs = audio_paths
        /\ exported cs
           = [(fold_left Plus (map Loaded audio_paths) Silence, output_path, "mp3")]
        /\ fst run = export_result T output_path)
    /\ (forall k p e,
          nth_error audio_paths k = Some p -> readable_before E audio_paths k ->
          AudioSegment_from_file E p = Raise e ->
          fst run = Raise e
          /\ opened cs = firstn (S k) audio_paths
          /\ exported cs = []).
Proof.
  intros Hff. cbv zeta. unfold combine_audio_files. rewrite Hff. cbn [negb].
  rewrite andthen_logged.
  match goal with |- context [andthen (combine_loop E audio_paths Silence) _ ?m0] =>
    destruct (combine_loop_run E audio_paths Silence m0)
      as (cs & Hsnd & Hex & Hall & Hfail);
    destruct (combine_loop E audio_paths Silence m0) as [[combined|e0] m1] eqn:Hrun end;
    cbn [fst snd] in Hsnd, Hall, Hfail; subst m1.
  - rewrite (andthen_ok _ _ _ _ _ Hrun). unfold export.
    rewrite andthen_assoc, andthen_record, !add_calls_app.
    destruct (export_result T output_path) as [[]|e] eqn:Hexp.
    + rewrite andthen_answer_ok. unfold logged, record. cbn [fst snd].
      rewrite add_calls_app. eexists. split; [reflexivity|]. split.
      * intros HF. destruct (Hall HF) as [Hc Hop]. injection Hc as ->.
        rewrite !opened_app, !exported_app, Hop, Hex. cbn.
        rewrite ?app_nil_r. repeat split; reflexivity.
      * intros k p e Hk Hb Hp. destruct (Hfail k p e Hk Hb Hp) as [Hc _]. discriminate Hc.
    + rewrite andthen_answer_raise. cbn [fst snd].
      eexists. split; [reflexivity|]. split.
      * intros HF. destruct (Hall HF) as [Hc Hop]. injection Hc as ->.
        rewrite !opened_app, !exported_app, Hop, Hex. cbn.
        rewrite ?app_nil_r. repeat split; reflexivity.
      * intros k p e' Hk Hb Hp. destruct (Hfail k p e' Hk Hb Hp) as [Hc _]. discriminate Hc.
  - rewrite (andthen_raise _ _ _ _ _ Hrun). cbn [fst snd].
    rewrite add_calls_app. eexists. split; [reflexivity|]. split.
    + intros HF. destruct (Hall HF) as [Hc _]. discriminate Hc.
    + intros k p e Hk Hb Hp. destruct (Hfail k p e Hk Hb Hp) as [Hc Hop].
      injection Hc as ->.
      rewrite !opened_app, !exported_app, Hop, Hex. cbn.
      rewrite ?app_nil_r. repeat split; reflexivity.
Qed.

(** Three files, all readable; and three files of which the second is
    missing. *)
Lemma combine_audio_files_all_or_nothing_witness :
  ffmpeg_available ffmpeg_env = true
  /\ Forall (fun p => is_ok (AudioSegment_from_file ffmpeg_env p) = true)
            ["a.mp3"; "b.mp3"; "c.mp3"]
  /\ readable_before ffmpeg_env ["a.mp3"; "missing.mp3"; "c.mp3"] 1
  /\ (exists cs,
        snd (combine_audio_files ffmpeg_env windows_tools ["a.mp3"; "b.mp3"; "c.mp3"]
                                 "all.mp3" fresh_machine)
        = add_calls fresh_machine cs
        /\ opened cs = ["a.mp3"; "b.mp3"; "c.mp3"]
        /\ exported cs
           = [(Plus (Plus (Plus Silence (Loaded "a.mp3")) (Loaded "b.mp3"))
                    (Loaded "c.mp3"), "all.mp3", "mp3")])
  /\ (exists cs,
        snd (combine_audio_files ffmpeg_env windows_tools
                                 ["a.mp3"; "missing.mp3"; "c.mp3"] "all.mp3"
                                 fresh_machine)
        = add_calls fresh_machine cs
        /\ fst (combine_audio_files ffmpeg_env windows_tools
                                    ["a.mp3"; "missing.mp3"; "c.mp3"] "all.mp3"
                                    fresh_machine)
           = Raise (mk_exn FileNotFoundError "missing.mp3")
        /\ opened cs = ["a.mp3"; "missing.mp3"]
        /\ exported cs = []).
Proof.
  assert (HF : Forall (fun p => is_ok (AudioSegment_from_file ffmpeg_env p) = true)
                      ["a.mp3"; "b.mp3"; "c.mp3"]) by (repeat constructor).
  assert (HB : readable_before ffmpeg_env ["a.mp3"; "missing.mp3"; "c.mp3"] 1).
  { intros [|j] q Hj Hq; [injection Hq as <-; reflexivity | lia]. }
  split; [reflexivity|]. split; [exact HF|]. split; [exact HB|]. split.
  - destruct (combine_audio_files_all_or_nothing ffmpeg_env windows_tools
                ["a.mp3"; "b.mp3"; "c.mp3"] "all.mp3" fresh_machine eq_refl)
      as (cs & Hsnd & Hall & _).
    exists cs. split; [exact Hsnd|]. destruct (Hall HF) as (Hop & Hex & _).
    split; [exact Hop | exact Hex].
  - destruct (combine_audio_files_all_or_nothing ffmpeg_env windows_tools
                ["a.mp3"; "missing.mp3"; "c.mp3"] "all.mp3" fresh_machine eq_refl)
      as (cs & Hsnd & _ & Hfail).
    exists cs. split; [exact Hsnd|].
    exact (Hfail 1%nat "missing.mp3" (mk_exn FileNotFoundError "missing.mp3")
                 eq_refl HB eq_refl).
Defined.

(* ================================================================== *)
(** * The file an edited copy is written to *)
(* ================================================================== *)

Section EditedCopy.

Lemma length_append (a b : string) :
  String.length (a ++ b) = (String.length a + String.length b)%nat.
Proof. induction a as [|c a IH]; simpl; [reflexivity | now rewrite IH]. Qed.

Lemma substring_all (s : string) : String.substring 0 (String.length s) s = s.
Proof. induction s as [|c s IH]; simpl; [reflexivity | now rewrite IH]. Qed.

(** A string is its first [n] characters followed by the rest. *)
Lemma substring_split (n : nat) (s : string) :
  (n <= String.length s)%nat ->
  (String.substring 0 n s ++ String.substring n (String.length s - n) s)%string = s.
Proof.
  revert n; induction s as [|c s IH]; intros n Hn.
  - destruct n; reflexivity.
  - destruct n as [|n].
    + cbn [String.substring append]. rewrite Nat.sub_0_r.
      change (String.length (String c s)) with (S (String.length s)).
      cbn [String.substring]. now rewrite substring_all.
    + cbn [String.substring append String.length Nat.sub]. f_equal.
      apply IH. simpl in Hn. lia.
Qed.

(** [rfind] answers -1 or an index of the string. *)
Lemma rfind_from_bounds (c : ascii) (s : string) (i found : Z) :
  found < i ->
  rfind_from c s i found = found
  \/ i <= rfind_from c s i found < i + str_len s.
Proof.
  revert i found; induction s as [|a s IH]; intros i found Hlt; cbn [rfind_from].
  - now left.
  - unfold str_len. cbn [String.length]. rewrite Nat2Z.inj_succ.
    destruct (Ascii.eqb a c).
    + destruct (IH (i + 1) i ltac:(lia)) as [->|H]; unfold str_len in *; right; lia.
    + destruct (IH (i + 1) found ltac:(lia)) as [->|H]; unfold str_len in *;
        [now left | right; lia].
Qed.

Lemma rfind_bounds (c : ascii) (s : string) :
  rfind c s = -1 \/ 0 <= rfind c s < str_len s.
Proof. apply (rfind_from_bounds c s 0 (-1)). lia. Qed.

(** [splitext] cuts the path in two. *)
Lemma splitext_app (p : string) :
  (fst (splitext p) ++ snd (splitext p))%string = p.
Proof.
  unfold splitext.
  destruct ((rfind "/" p <? rfind "." p)
            && negb (all_dots (str_slice p (rfind "/" p + 1) (rfind "." p)))) eqn:Hc;
    cbn [fst snd]; [|apply append_nil_r].
  apply andb_true_iff in Hc as [Hlt _]. apply Z.ltb_lt in Hlt.
  destruct (rfind_bounds "/" p) as [Hs|Hs], (rfind_bounds "." p) as [Hd|Hd]; try lia;
    unfold str_to, str_from, str_slice, clip_index;
    (destruct (Z.ltb_spec 0 0); [lia|]);
    (destruct (Z.ltb_spec (rfind "." p) 0); [lia|]);
    rewrite Z.min_l, Z.min_l, Z.sub_0_r by lia;
    cbn [Z.to_nat]; apply substring_split; unfold str_len in *; lia.
Qed.

(** A copy named after the path with a tag before the extension is not
    the path. *)
Lemma tagged_copy_differs (p tag : string) :
  tag <> "" ->
  (fst (splitext p) ++ tag ++ snd (splitext p))%string <> p.
Proof.
  intros Htag Heq.
  pose proof (f_equal String.length Heq) as Hlen.
  rewrite <- (splitext_app p) in Hlen at 3.
  rewrite !length_append in Hlen.
  destruct tag; [contradiction | simpl in Hlen; lia].
Qed.

End EditedCopy.

(** X16. [normalize_audio] and [add_fade_effects] never write over their
    input: the result goes to a new file beside it, named after the input
    with [_normalized] or [_faded] put before the extension (at the end of
    a name without extension), and exported in the format named by the
    extension without its dot. The input is opened once; the gain applied
    is the target level minus the level of the input, the fades are the
    fade-in and then the fade-out. The path is returned when the export
    succeeds; otherwise the export's error comes out. *)
Theorem edited_copy_beside_original (E : env) (T : tools) (audio_path : string)
        (target_dBFS : Q) (fade_in_ms fade_out_ms : Z) (length_ms : Z) (m : machine) :
  ffmpeg_available E = true ->
  AudioSegment_from_file E audio_path = Ok length_ms ->
  let base := fst (splitext audio_path) in
  let ext := snd (splitext audio_path) in
  let normalized := (base ++ "_normalized" ++ ext)%string in
  let faded := (base ++ "_faded" ++ ext)%string in
  (base ++ ext)%string = audio_path
  /\ normalized <> audio_path
  /\ faded <> audio_path
  /\ (exists cs,
        normalize_audio E T audio_path target_dBFS m
        = (match export_result T normalized with
           | Ok _ => Ok normalized
           | Raise e => Raise e
           end, add_calls m cs)
        /\ opened cs = [audio_path]
        /\ exported cs
           = [(ApplyGain (Loaded audio_path)
                         (fsub target_dBFS (audio_dBFS T audio_path)),
               normalized, str_from ext 1)])
  /\ (exists cs,
        add_fade_effects E T audio_path fade_in_ms fade_out_ms m
        = (match export_result T faded with
           | Ok _ => Ok faded
           | Raise e => Raise e
           end, add_calls m cs)
        /\ opened cs = [audio_path]
        /\ exported cs
           = [(FadeOut (FadeIn (Loaded audio_path) fade_in_ms) fade_out_ms,
               faded, str_from ext 1)]).
Proof.
  intros Hff Hload. cbv zeta.
  split; [apply splitext_app|].
  split; [apply tagged_copy_differs; discriminate|].
  split; [apply tagged_copy_differs; discriminate|].
  split.
  - unfold normalize_audio. rewrite Hff. cbn [negb].
    rewrite andthen_logged.
    rewrite (andthen_ok _ _ _ _ _ (from_file_ok E audio_path length_ms _ Hload)).
    cbn [fst snd]. destruct (splitext audio_path) as [base ext]. cbn [fst snd].
    unfold export. rewrite andthen_assoc, andthen_record, !add_calls_app.
    destruct (export_result T (base ++ "_normalized" ++ ext)) as [[]|e].
    + rewrite andthen_answer_ok, andthen_logged, add_calls_app. unfold done.
      eexists. split; [reflexivity|]. cbn. auto.
    + rewrite andthen_answer_raise. eexists. split; [reflexivity|]. cbn. auto.
  - unfold add_fade_effects. rewrite Hff. cbn [negb].
    rewrite andthen_logged.
    rewrite (andthen_ok _ _ _ _ _ (from_file_ok E audio_path length_ms _ Hload)).
    cbn [fst snd]. destruct (splitext audio_path) as [base ext]. cbn [fst snd].
    unfold export. rewrite andthen_assoc, andthen_record, !add_calls_app.
    destruct (export_result T (base ++ "_faded" ++ ext)) as [[]|e].
    + rewrite andthen_answer_ok, andthen_logged, add_calls_app. unfold done.
      eexists. split; [reflexivity|]. cbn. auto.
    + rewrite andthen_answer_raise. eexists. split; [reflexivity|]. cbn. auto.
Qed.

(** A voice-over at -23 dBFS normalised to -20 dBFS, and faded over one
    second at each end. *)
Lemma edited_copy_beside_original_witness :
  ffmpeg_available ffmpeg_env = true
  /\ AudioSegment_from_file ffmpeg_env "audio/voice.mp3" = Ok 10000
  /\ splitext "audio/voice.mp3" = ("audio/voice", ".mp3")
  /\ (exists cs,
        normalize_audio ffmpeg_env windows_tools "audio/voice.mp3" (-20) fresh_machine
        = (Ok "audio/voice_normalized.mp3", add_calls fresh_machine cs)
        /\ opened cs = ["audio/voice.mp3"]
        /\ exported cs
           = [(ApplyGain (Loaded "audio/voice.mp3") 3,
               "audio/voice_normalized.mp3", "mp3")])
  /\ (exists cs,
        add_fade_effects ffmpeg_env windows_tools "audio/voice.mp3" 1000 1000
                         fresh_machine
        = (Ok "audio/voice_faded.mp3", add_calls fresh_machine cs)
        /\ opened cs = ["audio/voice.mp3"]
        /\ exported cs
           = [(FadeOut (FadeIn (Loaded "audio/voice.mp3") 1000) 1000,
               "audio/voice_faded.mp3", "mp3")]).
Proof.
  split; [reflexivity|]. split; [reflexivity|]. split; [reflexivity|].
  exact (proj2 (proj2 (proj2
           (edited_copy_beside_original ffmpeg_env windows_tools "audio/voice.mp3"
              (-20) 1000 1000 10000 fresh_machine eq_refl eq_refl)))).
Defined.
